(** * Task-management API: a shallow embedding of the Express routes,
    the Mongoose models and the authentication middleware.

    Source files embedded here:
    - [src/middleware/auth.js]            the [auth] middleware (Access Guard)
    - [src/routes/auth.js]                register / login / me / logout
    - [src/unnamed/part_002] (models/User) the user schema, [generateAuthToken],
                                          [comparePassword], [toJSON]
    - [src/models/task.js]                the task schema and its save hook
    - [src/unnamed/part_001] (routes/tasks) list / get / create / update / delete

    Strings are held as the bytes of their UTF-8 form; the length of a
    string is its number of UTF-16 code units, as in JavaScript.

    The document store is a pair of finite maps keyed by [_id]; a handler is
    a function from the store (and the request) to an outcome and a new
    store.  Library calls whose result is not determined by the repository
    (token signing, password hashing, e-mail syntax checks, date parsing) are
    the fields of the class [Libraries]. *)

From Stdlib Require Import ZArith Ascii String List Bool Lia.
From stdpp Require Import base option gmap strings list fin_maps sorting pretty.

Local Open Scope Z_scope.
Set Warnings "-register-all".

(** ** JavaScript built-ins used by the handlers *)

Module JS.

(** The double-quote character, code 34. *)
Definition dq : string := String "034"%char EmptyString.

Definition quote (s : string) : string := dq +:+ s +:+ dq.

(** Strings are held as the bytes of their UTF-8 form, as a request carries
    them.  [length] is the [length] of the JavaScript string: its number of
    UTF-16 code units, which is 1 for a character of one to three bytes and
    2 for a character of four; a continuation byte counts nothing. *)
Definition units (c : ascii) : nat :=
  let n := N_of_ascii c in
  if ((128 <=? n) && (n <? 192))%N then 0%nat
  else if (240 <=? n)%N then 2%nat else 1%nat.

Fixpoint length (s : string) : nat :=
  match s with
  | EmptyString => 0%nat
  | String c s' => (units c + length s')%nat
  end.

(** A string of ASCII characters only. *)
Fixpoint is_ascii (s : string) : bool :=
  match s with
  | EmptyString => true
  | String c s' => (N_of_ascii c <? 128)%N && is_ascii s'
  end.

(** [String.prototype.toLowerCase] on the ASCII letters.  The addresses that
    the user schema stores match its pattern of ASCII word characters, dots
    and hyphens; the mapping of the letters outside ASCII is not modelled,
    and a string that has such letters is left as it is. *)
Definition lower_char (c : ascii) : ascii :=
  let n := N_of_ascii c in
  if ((65 <=? n) && (n <=? 90))%N then ascii_of_N (n + 32) else c.

Fixpoint toLowerCase (s : string) : string :=
  match s with
  | EmptyString => EmptyString
  | String c s' => String (lower_char c) (toLowerCase s')
  end.

(** The white space and the line terminators of ECMAScript that take more
    than one byte: U+00A0 in two bytes; U+1680, U+2000 to U+200A, U+2028,
    U+2029, U+202F, U+205F, U+3000 and U+FEFF in three. *)
Definition white2 (a b : ascii) : bool :=
  ((N_of_ascii a =? 194) && (N_of_ascii b =? 160))%N.

Definition white3 (a b c : ascii) : bool :=
  let (x, y) := (N_of_ascii b, N_of_ascii c) in
  match N_of_ascii a with
  | 225%N => ((x =? 154) && (y =? 128))%N
  | 226%N =>
      ((x =? 128) && (((128 <=? y) && (y <=? 138)) || (y =? 168) || (y =? 169)
                      || (y =? 175))
       || (x =? 129) && (y =? 159))%N
  | 227%N => ((x =? 128) && (y =? 128))%N
  | 239%N => ((x =? 187) && (y =? 191))%N
  | _ => false
  end.

(** [String.prototype.trim]: the white space of ECMAScript is removed from
    both ends, the six ASCII characters (tab, line feed, vertical tab, form
    feed, carriage return, space) and the ones above. *)
Fixpoint trimStart (s : string) : string :=
  match s with
  | EmptyString => EmptyString
  | String a s1 =>
      if Ascii.is_space a then trimStart s1
      else match s1 with
           | String b s2 =>
               if white2 a b then trimStart s2
               else match s2 with
                    | String c s3 => if white3 a b c then trimStart s3 else s
                    | EmptyString => s
                    end
           | EmptyString => s
           end
  end.

(** A string of white space only. *)
Definition blank (s : string) : bool :=
  match trimStart s with EmptyString => true | _ => false end.

Fixpoint trimEnd (s : string) : string :=
  match s with
  | EmptyString => EmptyString
  | String c s' => if blank s then EmptyString else String c (trimEnd s')
  end.

Definition trim (s : string) : string := trimEnd (trimStart s).

Fixpoint drop (n : nat) (s : string) : string :=
  match n, s with
  | O, _ => s
  | S _, EmptyString => EmptyString
  | S n', String _ s' => drop n' s'
  end.

(** [s.replace(pat, rep)] with a string pattern: only the first
    occurrence of [pat] is replaced. *)
Fixpoint replace (pat rep s : string) : string :=
  if String.prefix pat s then rep +:+ drop (String.length pat) s
  else match s with
       | EmptyString => EmptyString
       | String c s' => String c (replace pat rep s')
       end.

(** [s.includes(pat)] *)
Fixpoint includes (pat s : string) : bool :=
  if String.prefix pat s then true
  else match s with
       | EmptyString => false
       | String _ s' => includes pat s'
       end.

Definition digit (radix : Z) (c : ascii) : option Z :=
  let n := Z.of_N (N_of_ascii c) in
  let v := if (48 <=? n) && (n <=? 57) then Some (n - 48)
           else if (97 <=? n) && (n <=? 122) then Some (n - 87)
           else if (65 <=? n) && (n <=? 90) then Some (n - 55)
           else None in
  match v with
  | Some d => if d <? radix then Some d else None
  | None => None
  end.

(** The longest prefix of digits; [None] is [NaN] (no digit at all). *)
Fixpoint digits (radix : Z) (s : string) (acc : option Z) : option Z :=
  match s with
  | EmptyString => acc
  | String c s' =>
      match digit radix c with
      | Some d => digits radix s' (Some (radix * default 0 acc + d))
      | None => acc
      end
  end.

Definition unsigned (s : string) : option Z :=
  match s with
  | String "0" (String "x" s') | String "0" (String "X" s') => digits 16 s' None
  | _ => digits 10 s None
  end.

(** The double that is nearest to an integer, ties to the even mantissa: a
    [Number] has 53 bits of precision, so an integer below 2^53 in absolute
    value is itself. *)
Definition double (z : Z) : Z :=
  let a := Z.abs z in
  if a <? 2 ^ 53 then z
  else
    let e := Z.log2 a - 52 in
    let q := a / 2 ^ e in
    let r := a mod 2 ^ e in
    let half := 2 ^ (e - 1) in
    let q' := if (r <? half) || ((r =? half) && Z.even q) then q else q + 1 in
    Z.sgn z * (q' * 2 ^ e).

(** An integral [Number]; [None] is a value that is not finite: [NaN], or
    an infinity, where the nearest double is beyond the largest one.  Both
    print as [null]. *)
Definition number (z : Z) : option Z :=
  let d := double z in
  if Z.abs d <? 2 ^ 1024 then Some d else None.

(** [parseInt(s)] without a radix: leading white space, a sign, [0x] for
    hexadecimal digits, then the longest prefix of digits; [NaN] where there
    is no digit. *)
Definition parseInt (s : string) : option Z :=
  match trimStart s with
  | String "-" s' => unsigned s' ≫= λ n, number (- n)
  | String "+" s' => unsigned s' ≫= number
  | s' => unsigned s' ≫= number
  end.

(** [Math.ceil(a / b)] for integers [a] and [b <> 0].  For [a] below 2^53
    in absolute value the quotient, rounded to a double, has the ceiling of
    the exact quotient. *)
Definition ceil_div (a b : Z) : Z := - ((- a) / b).

End JS.

(** ** JSON values *)

Inductive json :=
| JNull
| JBool (b : bool)
| JNum (n : Z)
| JStr (s : string)
| JDate (ms : Z)                      (* a Date; [res.json] prints its ISO string *)
| JArr (l : list json)
| JObj (o : list (string * json)).

(** Property lookup in an object literal. *)
Fixpoint assoc (k : string) (o : list (string * json)) : option json :=
  match o with
  | [] => None
  | (k', v) :: o' => if decide (k = k') then Some v else assoc k o'
  end.

Definition field (k : string) (j : json) : option json :=
  match j with JObj o => assoc k o | _ => None end.

(** [delete obj.k] *)
Definition delete_key (k : string) (o : list (string * json)) : list (string * json) :=
  filter (λ kv, kv.1 ≠ k) o.

Definition has_key (k : string) (o : list (string * json)) : Prop := k ∈ o.*1.

(** [obj[k] = v]: a property that exists keeps its place, a new one comes
    last. *)
Fixpoint set_key (k : string) (v : json) (o : list (string * json))
    : list (string * json) :=
  match o with
  | [] => [(k, v)]
  | (k', v') :: o' =>
      if decide (k = k') then (k, v) :: o' else (k', v') :: set_key k v o'
  end.

(** [x + n] for the value [x] of a property and a number [n]; [NaN]
    (printed as [null]) when [x] is not a number. *)
Definition plus (x : option json) (n : Z) : json :=
  match x with
  | Some (JNum m) => JNum (m + n)
  | _ => JNull
  end.

Record response := Response { status : nat; body : json }.

Definition error_body (msg : string) : json := JObj [("error", JStr msg)].


(** ** Joi: the declarative request validation of the routes *)

Module Joi.

Inductive error :=
| Required (key : string)                       (* any.required *)
| StringBase (key : string)                     (* string.base *)
| StringEmpty (key : string)                    (* string.empty *)
| StringMin (key : string) (n : nat)            (* string.min *)
| StringMax (key : string) (n : nat)            (* string.max *)
| StringEmail (key : string)                    (* string.email *)
| AnyOnly (key : string) (allowed : list string) (* any.only *)
| DateBase (key : string)                       (* date.base *)
| DateGreater (key : string)                    (* date.greater *)
| ObjectUnknown (key : string).                 (* object.unknown *)

Fixpoint join (sep : string) (l : list string) : string :=
  match l with
  | [] => EmptyString
  | [x] => x
  | x :: l' => x +:+ sep +:+ join sep l'
  end.

(** [error.details[0].message] *)
Definition message (e : error) : string :=
  match e with
  | Required k => JS.quote k +:+ " is required"
  | StringBase k => JS.quote k +:+ " must be a string"
  | StringEmpty k => JS.quote k +:+ " is not allowed to be empty"
  | StringMin k n =>
      JS.quote k +:+ " length must be at least " +:+ pretty n +:+ " characters long"
  | StringMax k n =>
      JS.quote k +:+ " length must be less than or equal to " +:+ pretty n
        +:+ " characters long"
  | StringEmail k => JS.quote k +:+ " must be a valid email"
  | AnyOnly k l => JS.quote k +:+ " must be one of [" +:+ join ", " l +:+ "]"
  | DateBase k => JS.quote k +:+ " must be a valid date"
  | DateGreater k => JS.quote k +:+ " must be greater than " +:+ JS.quote "now"
  | ObjectUnknown k => JS.quote k +:+ " is not allowed"
  end.

(** [{ error, value }]: validation stops at the first error. *)
Definition result (A : Type) : Type := error + A.

#[global] Instance result_bind : MBind result :=
  λ A B f m, match m with inl e => inl e | inr a => f a end.
#[global] Instance result_ret : MRet result := λ A a, inr a.

(** [Joi.string()] *)
Definition string (key : String.string) (v : json) : result String.string :=
  match v with
  | JStr s => if decide (s = EmptyString) then inl (StringEmpty key) else inr s
  | _ => inl (StringBase key)
  end.

(** [.min(n)] and [.max(n)] *)
Definition min (key : String.string) (n : nat) (s : String.string) : result String.string :=
  if (JS.length s <? n)%nat then inl (StringMin key n) else inr s.

Definition max (key : String.string) (n : nat) (s : String.string) : result String.string :=
  if (n <? JS.length s)%nat then inl (StringMax key n) else inr s.

(** [.email()]; the address syntax check is the library's. *)
Definition email (is_email : String.string → bool) (key : String.string)
    (s : String.string) : result String.string :=
  if is_email s then inr s else inl (StringEmail key).

(** [Joi.string().valid(...)]: the allow-list is checked before the type. *)
Definition valid (key : String.string) (allowed : list String.string) (v : json)
    : result String.string :=
  match v with
  | JStr s => if decide (s ∈ allowed) then inr s else inl (AnyOnly key allowed)
  | _ => inl (AnyOnly key allowed)
  end.

(** The largest time value of a JavaScript Date, in milliseconds. *)
Definition max_time : Z := 8640000000000000.

(** [Joi.date()]: numbers and strings are converted to a Date. *)
Definition date (parse : String.string → option Z) (key : String.string) (v : json)
    : result Z :=
  match v with
  | JDate ms => inr ms
  | JNum n => if (Z.abs n <=? max_time) then inr n else inl (DateBase key)
  | JStr s => match parse s with Some ms => inr ms | None => inl (DateBase key) end
  | _ => inl (DateBase key)
  end.

(** [.greater('now')] *)
Definition greater_now (key : String.string) (now : Z) (d : Z) : result Z :=
  if now <? d then inr d else inl (DateGreater key).

(** [.required()] and [.optional()] on the key of an object. *)
Definition required {A} (key : String.string) (rule : json → result A)
    (v : option json) : result A :=
  match v with None => inl (Required key) | Some j => rule j end.

Definition optional {A} (rule : json → result A) (v : option json)
    : result (option A) :=
  match v with
  | None => inr None
  | Some j => a ← rule j; mret (Some a)
  end.

(** [Joi.object({...})] rejects the keys its schema does not list, after
    the listed keys have been validated.  Where a body has several such
    keys, Joi names the first in the order of the request; a map does not
    keep that order, and the key that is named here is the first of the
    map. *)
Definition unknown (keys : list String.string) (o : gmap String.string json)
    : result unit :=
  match filter (λ k, k ∉ keys) (map_to_list o).*1 with
  | [] => inr ()
  | k :: _ => inl (ObjectUnknown k)
  end.

End Joi.


(** ** Mongoose: collections, queries and errors *)

Abbreviation ObjectId := string (only parsing).

Module Mongoose.

(** What a query, [save] or a library call throws. *)
Inductive error :=
| ValidationError (errors : list (string * string))   (* path, message *)
| DuplicateKey (index : string)                       (* E11000 *)
| CastError (path : string)
| DocumentNotFoundError
| OtherError (msg : string).

Section Collection.
Context {V : Type}.

Definition docs (coll : gmap ObjectId V) : list V := (map_to_list coll).*2.

(** [Model.find(filter)], [Model.findOne(filter)] and
    [Model.countDocuments(filter)] *)
Definition find (filter : V → bool) (coll : gmap ObjectId V) : list V :=
  List.filter filter (docs coll).

Definition findOne (filter : V → bool) (coll : gmap ObjectId V) : option V :=
  List.find filter (docs coll).

Definition countDocuments (filter : V → bool) (coll : gmap ObjectId V) : nat :=
  length (find filter coll).
End Collection.

Definition is_hex (c : ascii) : bool :=
  match JS.digit 16 c with Some _ => true | None => false end.

Fixpoint all_hex (s : string) : bool :=
  match s with
  | EmptyString => true
  | String c s' => is_hex c && all_hex s'
  end.

(** Casting a route parameter to an ObjectId: 24 hexadecimal digits. *)
Definition castObjectId (s : string) : option ObjectId :=
  if (String.length s =? 24)%nat && all_hex s then Some (JS.toLowerCase s) else None.

(** One schema path: its validators in order, the first failure is the
    path's error. *)
Definition check (path : string) (rules : list (bool * string))
    : list (string * string) :=
  match List.find (λ r, negb r.1) rules with
  | Some r => [(path, r.2)]
  | None => []
  end.

(** [required] on a String path: the empty string does not pass. *)
Definition nonempty (s : string) : bool := bool_decide (s ≠ EmptyString).

(** [enum: [...]] on a path that is set. *)
Definition enum_message (path value : string) : string :=
  "`" +:+ value +:+ "` is not a valid enum value for path `" +:+ path +:+ "`.".

Definition validate_enum (path : string) (allowed : list string) (v : option string)
    : list (string * string) :=
  match v with
  | Some v => check path [(bool_decide (v ∈ allowed), enum_message path v)]
  | None => []
  end.

End Mongoose.

(** ** The User model ([models/User]) *)

Module User.

(** A user document.  [password] is [None] on a document that was loaded
    without the field ([select: false]); stored documents always have it. *)
Record doc := Doc {
  _id : ObjectId;
  name : string;
  email : string;
  password : option string;
  role : string;
  createdAt : Z;
  tokens : list string            (* [tokens: [{ token }]] *)
}.

Definition set_password (p : option string) (u : doc) : doc :=
  Doc (_id u) (name u) (email u) p (role u) (createdAt u) (tokens u).

Definition set_tokens (t : list string) (u : doc) : doc :=
  Doc (_id u) (name u) (email u) (password u) (role u) (createdAt u) t.

(** [new User({ name, email, password })]: setters [trim] and
    [lowercase], defaults for [role], [createdAt] and [tokens]. *)
Definition new (id : ObjectId) (now : Z) (name email password : string) : doc :=
  Doc id (JS.trim name) (JS.toLowerCase email) (Some password) "user" now [].

(** [this.toObject()]: the paths of the schema that the document holds
    (Mongoose's version key and the ids of the token subdocuments are left
    out). *)
Definition toObject (u : doc) : list (string * json) :=
  [("_id", JStr (_id u)); ("name", JStr (name u)); ("email", JStr (email u))]
  ++ match password u with Some p => [("password", JStr p)] | None => [] end
  ++ [("role", JStr (role u)); ("createdAt", JDate (createdAt u));
      ("tokens", JArr (map (λ t, JObj [("token", JStr t)]) (tokens u)))].

(** [userSchema.methods.toJSON] *)
Definition toJSON (u : doc) : json :=
  let userObject := toObject u in
  let userObject := delete_key "password" userObject in
  let userObject := delete_key "tokens" userObject in
  JObj userObject.

End User.

(** ** Session tokens ([jsonwebtoken]) *)

Module Jwt.

(** The signed payload: the claims of [generateAuthToken] and the
    [iat] / [exp] claims that [jwt.sign] adds (in seconds). *)
Record payload := Payload {
  _id : ObjectId;
  email : string;
  role : string;
  iat : Z;
  exp : Z
}.

(** ['7d'] in seconds *)
Definition seven_days : Z := 7 * 24 * 60 * 60.

(** [Math.floor(Date.now() / 1000)] *)
Definition clock (now : Z) : Z := now / 1000.

End Jwt.

(** ** The Task model ([models/task.js]) *)

(** The value that the Joi [taskSchema] of the task routes returns. *)
Module TaskValue.
Record t := Make {
  title : string;
  description : option string;
  status : option string;
  priority : option string;
  dueDate : option Z
}.
End TaskValue.

Module Task.

Record doc := Doc {
  _id : ObjectId;
  title : string;
  description : option string;
  status : string;
  priority : string;
  dueDate : option Z;
  owner : ObjectId;
  createdAt : Z;
  updatedAt : Z
}.

Definition set_updatedAt (now : Z) (t : doc) : doc :=
  Doc (_id t) (title t) (description t) (status t) (priority t) (dueDate t)
      (owner t) (createdAt t) now.

Definition statuses : list string := ["pending"; "in-progress"; "completed"].
Definition priorities : list string := ["low"; "medium"; "high"].

(** [new Task({ ...value, owner })]: [trim] on the strings, defaults for
    [status], [priority], [createdAt] and [updatedAt]. *)
Definition new (id : ObjectId) (now : Z) (v : TaskValue.t) (owner : ObjectId) : doc :=
  Doc id (JS.trim (TaskValue.title v)) (JS.trim <$> TaskValue.description v)
      (default "pending" (TaskValue.status v))
      (default "medium" (TaskValue.priority v))
      (TaskValue.dueDate v) owner now now.

(** The [dueDate] validator: [!value || value > new Date()]; a Date
    object is never falsy. *)
Definition validator (now : Z) (value : Z) : bool := now <? value.

(** The schema validators of the paths that a document (or an update) sets. *)
Definition validate_title (title : string) : list (string * string) :=
  Mongoose.check "title"
    [(Mongoose.nonempty title, "Task title is required");
     ((JS.length title <=? 100)%nat, "Title cannot exceed 100 characters")].

Definition validate_description (d : option string) : list (string * string) :=
  match d with
  | Some d => Mongoose.check "description"
      [((JS.length d <=? 500)%nat, "Description cannot exceed 500 characters")]
  | None => []
  end.

Definition validate_dueDate (now : Z) (d : option Z) : list (string * string) :=
  match d with
  | Some d => Mongoose.check "dueDate" [(validator now d, "Due date must be in the future")]
  | None => []
  end.

Definition validate (now : Z) (t : doc) : list (string * string) :=
  validate_title (title t) ++ validate_description (description t)
  ++ Mongoose.validate_enum "status" statuses (Some (status t))
  ++ Mongoose.validate_enum "priority" priorities (Some (priority t))
  ++ validate_dueDate now (dueDate t).

(** [taskSchema.pre('save')]: refresh [updatedAt]. *)
Definition pre_save (now : Z) (t : doc) : doc := set_updatedAt now t.

(** [task.save()] on a new document: validation, the save hook, then the
    insert (the [_id] index is unique). *)
Definition save (now : Z) (t : doc) (coll : gmap ObjectId doc)
    : Mongoose.error + (doc * gmap ObjectId doc) :=
  match validate now t with
  | [] =>
      let t := pre_save now t in
      match coll !! _id t with
      | Some _ => inl (Mongoose.DuplicateKey "_id")
      | None => inr (t, <[_id t := t]> coll)
      end
  | errors => inl (Mongoose.ValidationError errors)
  end.

(** The update document that Mongoose builds from the Joi value: a [$set]
    of the supplied keys, cast through the schema setters. *)
Definition cast_update (v : TaskValue.t) : TaskValue.t :=
  TaskValue.Make (JS.trim (TaskValue.title v)) (JS.trim <$> TaskValue.description v)
    (TaskValue.status v) (TaskValue.priority v) (TaskValue.dueDate v).

(** [runValidators: true]: the validators of the paths being set. *)
Definition update_validators (now : Z) (u : TaskValue.t) : list (string * string) :=
  validate_title (TaskValue.title u) ++ validate_description (TaskValue.description u)
  ++ Mongoose.validate_enum "status" statuses (TaskValue.status u)
  ++ Mongoose.validate_enum "priority" priorities (TaskValue.priority u)
  ++ validate_dueDate now (TaskValue.dueDate u).

Definition apply_set (u : TaskValue.t) (t : doc) : doc :=
  Doc (_id t) (TaskValue.title u)
      (match TaskValue.description u with Some d => Some d | None => description t end)
      (default (status t) (TaskValue.status u))
      (default (priority t) (TaskValue.priority u))
      (match TaskValue.dueDate u with Some d => Some d | None => dueDate t end)
      (owner t) (createdAt t) (updatedAt t).

(** The filter [{ _id: id, owner: owner }] *)
Definition by_id_owner (id owner : ObjectId) (coll : gmap ObjectId doc) : option doc :=
  t ← coll !! id; if decide (Task.owner t = owner) then Some t else None.

(** [Task.findOneAndUpdate({ _id, owner }, value, { new: true,
    runValidators: true })]: no save hook runs on this path. *)
Definition findOneAndUpdate (now : Z) (id owner : ObjectId) (v : TaskValue.t)
    (coll : gmap ObjectId doc) : Mongoose.error + (option doc * gmap ObjectId doc) :=
  let u := cast_update v in
  match update_validators now u with
  | [] =>
      match by_id_owner id owner coll with
      | Some t => let t' := apply_set u t in inr (Some t', <[id := t']> coll)
      | None => inr (None, coll)
      end
  | errors => inl (Mongoose.ValidationError errors)
  end.

(** [Task.findOneAndDelete({ _id, owner })] *)
Definition findOneAndDelete (id owner : ObjectId) (coll : gmap ObjectId doc)
    : option doc * gmap ObjectId doc :=
  match by_id_owner id owner coll with
  | Some t => (Some t, delete id coll)
  | None => (None, coll)
  end.

Definition opt_field (k : string) (v : option json) : list (string * json) :=
  match v with Some j => [(k, j)] | None => [] end.

Definition toJSON (t : doc) : json :=
  JObj ([("_id", JStr (_id t)); ("title", JStr (title t))]
        ++ opt_field "description" (JStr <$> description t)
        ++ [("status", JStr (status t)); ("priority", JStr (priority t))]
        ++ opt_field "dueDate" (JDate <$> dueDate t)
        ++ [("owner", JStr (owner t)); ("createdAt", JDate (createdAt t));
            ("updatedAt", JDate (updatedAt t))]).

(** *** Sorting: the value of a path, in BSON comparison order *)
Inductive key := KNull | KStr (s : string) | KDate (ms : Z).

Definition path (p : string) (t : doc) : key :=
  if decide (p = "_id") then KStr (_id t)
  else if decide (p = "title") then KStr (title t)
  else if decide (p = "description") then from_option KStr KNull (description t)
  else if decide (p = "status") then KStr (status t)
  else if decide (p = "priority") then KStr (priority t)
  else if decide (p = "dueDate") then from_option KDate KNull (dueDate t)
  else if decide (p = "owner") then KStr (owner t)
  else if decide (p = "createdAt") then KDate (createdAt t)
  else if decide (p = "updatedAt") then KDate (updatedAt t)
  else KNull.

Definition key_leb (a b : key) : bool :=
  match a, b with
  | KNull, _ => true
  | KStr _, KNull => false
  | KStr x, KStr y => String.leb x y
  | KStr _, KDate _ => true
  | KDate x, KDate y => x <=? y
  | KDate _, _ => false
  end.

(** [{ [p]: 1 }] and [{ [p]: -1 }] *)
Definition ordered (p : string) (direction : Z) (a b : doc) : Prop :=
  if decide (direction = -1) then key_leb (path p b) (path p a)
  else key_leb (path p a) (path p b).

#[global] Instance ordered_dec p d : RelDecision (ordered p d).
Proof. intros a b. unfold ordered. destruct (decide (d = -1)); apply _. Defined.

(** [.sort({ [p]: direction })].  Documents with equal keys come in the
    order in which the collection is enumerated here; the database leaves
    their order open. *)
Definition sort (p : string) (direction : Z) (l : list doc) : list doc :=
  merge_sort (ordered p direction) l.

(** The paths of the schema. *)
Definition paths : list string :=
  ["_id"; "title"; "description"; "status"; "priority"; "dueDate"; "owner";
   "createdAt"; "updatedAt"].

(** [{ $group: { _id: '$status', count: { $sum: 1 } } }]: one group for
    each status that occurs among the documents, with the number of the
    documents that have it. *)
Definition group_by_status (docs : list doc) : list (string * nat) :=
  (λ s, (s, length (List.filter (λ t, bool_decide (status t = s)) docs)))
    <$> remove_dups (status <$> docs).

End Task.

Record store := Store {
  users : gmap ObjectId User.doc;
  tasks : gmap ObjectId Task.doc
}.

(** What a request reads from its environment: the clock, the ObjectId that
    a new document receives and the salt that [bcrypt.genSalt] draws. *)
Record env := Env { now : Z; oid : ObjectId; salt : string }.

(** [req.query] of [GET /api/tasks] *)
Module Query.
Record t := Make {
  status : option string;
  priority : option string;
  sortBy : option string;
  sortOrder : option string;
  page : option string;
  limit : option string
}.
End Query.

(** The outcome of the [auth] middleware: [next()] with [req.user] and
    [req.token] set, or a response. *)
Inductive guard :=
| Next (user : User.doc) (token : string)
| Reject (r : response).

Inductive request :=
| Register (body : gmap string json)
| Login (body : gmap string json)
| Me (authorization : option string)
| Logout (authorization : option string)
| ListTasks (authorization : option string) (query : Query.t)
| GetTask (authorization : option string) (id : string)
| CreateTask (authorization : option string) (body : gmap string json)
| UpdateTask (authorization : option string) (id : string) (body : gmap string json)
| DeleteTask (authorization : option string) (id : string).

(** What a handler does with the request: it sends a response, or it
    passes an error to the error-handling middleware with [next(error)].
    That middleware ([middleware/errorHandler]) decides the response to an
    error; it is outside this development. *)
Inductive outcome :=
| Send (r : response)
| NextError (error : Mongoose.error).

(** The library calls that the handlers rely on. *)
Class Libraries := {
  (** [jwt.sign(payload, JWT_SECRET)], and the signature check and
      decoding of [jwt.verify(token, JWT_SECRET)] *)
  jwt_sign : Jwt.payload → string;
  jwt_decode : string → option Jwt.payload;
  (** [bcrypt.hash(password, salt)] and [bcrypt.compare(candidate, hash)] *)
  bcrypt_hash : string → string → string;
  bcrypt_compare : string → string → bool;
  (** the address syntax accepted by [Joi.string().email()], and the
      [match] regular expression of the user schema *)
  is_email : string → bool;
  email_match : string → bool;
  (** [new Date(string)], [None] for an invalid date *)
  Date_parse : string → option Z
}.

Section Api.

Context `{Libraries}.

(** *** models/User *)

Definition User_validate (u : User.doc) : list (string * string) :=
  Mongoose.check "name"
    [(Mongoose.nonempty (User.name u), "Name is required");
     ((JS.length (User.name u) <=? 50)%nat, "Name cannot exceed 50 characters")]
  ++ Mongoose.check "email"
    [(Mongoose.nonempty (User.email u), "Email is required");
     (email_match (User.email u), "Please enter a valid email")]
  ++ Mongoose.check "password"
    [(from_option Mongoose.nonempty false (User.password u), "Password is required");
     (from_option (λ p, 6 <=? JS.length p)%nat false (User.password u),
      "Password must be at least 6 characters")]
  ++ Mongoose.validate_enum "role" ["user"; "admin"] (Some (User.role u)).

(** [tokens: [{ token: { type: String, required: true } }]] *)
Definition User_validate_tokens (u : User.doc) : list (string * string) :=
  flat_map (λ t, Mongoose.check "tokens.token"
                   [(Mongoose.nonempty t, "Path `token` is required.")])
           (User.tokens u).

(** [userSchema.pre('save')]: hash the password when it was modified. *)
Definition User_pre_save (isModified_password : bool) (salt : string) (u : User.doc)
    : User.doc :=
  if negb isModified_password then u
  else User.set_password (flip bcrypt_hash salt <$> User.password u) u.

(** [user.save()] on a new document: validation, the hook, then the
    insert under the unique indexes on [_id] and [email]. *)
Definition User_insert (e : env) (u : User.doc) (coll : gmap ObjectId User.doc)
    : Mongoose.error + (User.doc * gmap ObjectId User.doc) :=
  match User_validate u ++ User_validate_tokens u with
  | [] =>
      let u := User_pre_save true (salt e) u in
      match coll !! User._id u with
      | Some _ => inl (Mongoose.DuplicateKey "_id")
      | None =>
          match Mongoose.findOne (λ x, bool_decide (User.email x = User.email u)) coll with
          | Some _ => inl (Mongoose.DuplicateKey "email")
          | None => inr (u, <[User._id u := u]> coll)
          end
      end
  | errors => inl (Mongoose.ValidationError errors)
  end.

(** [user.save()] on a stored document whose [tokens] path was assigned:
    the path is validated and written; the password is not modified, so
    the hook leaves it. *)
Definition User_save (e : env) (u : User.doc) (coll : gmap ObjectId User.doc)
    : Mongoose.error + gmap ObjectId User.doc :=
  match User_validate_tokens u with
  | [] =>
      let u := User_pre_save false (salt e) u in
      match coll !! User._id u with
      | Some stored => inr (<[User._id u := User.set_tokens (User.tokens u) stored]> coll)
      | None => inl Mongoose.DocumentNotFoundError
      end
  | errors => inl (Mongoose.ValidationError errors)
  end.

(** [User.findOne({ email })]: the filter is cast through the schema
    setter ([lowercase]); the password is not selected. *)
Definition User_findOne_email (email : string) (coll : gmap ObjectId User.doc)
    : option User.doc :=
  User.set_password None <$>
    Mongoose.findOne (λ u, bool_decide (User.email u = JS.toLowerCase email)) coll.

(** [User.findOne({ email }).select('+password')] *)
Definition User_findOne_email_password (email : string) (coll : gmap ObjectId User.doc)
    : option User.doc :=
  Mongoose.findOne (λ u, bool_decide (User.email u = JS.toLowerCase email)) coll.

(** [User.findOne({ _id: id, 'tokens.token': token })] *)
Definition User_findOne_id_token (id : ObjectId) (token : string)
    (coll : gmap ObjectId User.doc) : option User.doc :=
  u ← coll !! id;
  if decide (token ∈ User.tokens u) then Some (User.set_password None u) else None.

(** [userSchema.methods.generateAuthToken] *)
Definition generateAuthToken (e : env) (this : User.doc) (coll : gmap ObjectId User.doc)
    : Mongoose.error + (string * User.doc * gmap ObjectId User.doc) :=
  let token :=
    jwt_sign (Jwt.Payload (User._id this) (User.email this) (User.role this)
                (Jwt.clock (now e)) (Jwt.clock (now e) + Jwt.seven_days)) in
  let this := User.set_tokens (User.tokens this ++ [token]) this in
  match User_save e this coll with
  | inl err => inl err
  | inr coll' => inr (token, this, coll')
  end.

(** [userSchema.methods.comparePassword] *)
Definition comparePassword (this : User.doc) (candidatePassword : string)
    : Mongoose.error + bool :=
  match User.password this with
  | Some hash => inr (bcrypt_compare candidatePassword hash)
  | None => inl (Mongoose.OtherError "Illegal arguments: string, undefined")
  end.

(** [jwt.verify(token, JWT_SECRET)]: [None] when it throws. *)
Definition jwt_verify (token : string) (now : Z) : option Jwt.payload :=
  if decide (token = EmptyString) then None
  else
    match jwt_decode token with
    | Some payload =>
        if Jwt.exp payload <=? Jwt.clock now then None else Some payload
    | None => None
    end.

(** *** middleware/auth.js *)

(** The answer to a token that does not verify or is not a session. *)
Definition invalid_token : guard :=
  Reject (Response 401 (error_body "Token is not valid")).

Definition auth (st : store) (e : env) (authorization : option string) : guard :=
  let token := JS.replace "Bearer " EmptyString <$> authorization in
  match token with
  | None | Some EmptyString =>
      Reject (Response 401 (error_body "No token, authorization denied"))
  | Some token =>
      match jwt_verify token (now e) with
      | None => invalid_token
      | Some decoded =>
          match User_findOne_id_token (Jwt._id decoded) token (users st) with
          | None => invalid_token
          | Some user => Next user token
          end
      end
  end.

(** *** routes/auth.js *)

Definition registerSchema (body : gmap string json)
    : Joi.result (string * string * string) :=
  name ← Joi.required "name"
    (λ v, (Joi.string "name" v ≫= Joi.min "name" 2) ≫= Joi.max "name" 50)
    (body !! "name");
  email ← Joi.required "email"
    (λ v, Joi.string "email" v ≫= Joi.email is_email "email") (body !! "email");
  password ← Joi.required "password"
    (λ v, Joi.string "password" v ≫= Joi.min "password" 6) (body !! "password");
  _ ← Joi.unknown ["name"; "email"; "password"] body;
  mret (name, email, password).

Definition loginSchema (body : gmap string json) : Joi.result (string * string) :=
  email ← Joi.required "email"
    (λ v, Joi.string "email" v ≫= Joi.email is_email "email") (body !! "email");
  password ← Joi.required "password" (Joi.string "password") (body !! "password");
  _ ← Joi.unknown ["email"; "password"] body;
  mret (email, password).

Definition set_users (u : gmap ObjectId User.doc) (st : store) : store :=
  Store u (tasks st).
Definition set_tasks (t : gmap ObjectId Task.doc) (st : store) : store :=
  Store (users st) t.

(** [POST /api/auth/register] *)
Definition register (st : store) (e : env) (body : gmap string json)
    : outcome * store :=
  match registerSchema body with
  | inl error => (Send (Response 400 (error_body (Joi.message error))), st)
  | inr (name, email, password) =>
      match User_findOne_email email (users st) with
      | Some existingUser =>
          (Send (Response 400 (error_body "User already exists with this email")), st)
      | None =>
          let user := User.new (oid e) (now e) name email password in
          match User_insert e user (users st) with
          | inl error => (NextError error, st)
          | inr (user, coll) =>
              match generateAuthToken e user coll with
              | inl error => (NextError error, set_users coll st)
              | inr (token, user, coll) =>
                  (Send (Response 201
                     (JObj [("message", JStr "User registered successfully");
                            ("user", User.toJSON user);
                            ("token", JStr token)])),
                   set_users coll st)
              end
          end
      end
  end.

(** [POST /api/auth/login] *)
Definition login (st : store) (e : env) (body : gmap string json)
    : outcome * store :=
  match loginSchema body with
  | inl error => (Send (Response 400 (error_body (Joi.message error))), st)
  | inr (email, password) =>
      match User_findOne_email_password email (users st) with
      | None => (Send (Response 401 (error_body "Invalid credentials")), st)
      | Some user =>
          match comparePassword user password with
          | inl error => (NextError error, st)
          | inr false => (Send (Response 401 (error_body "Invalid credentials")), st)
          | inr true =>
              match generateAuthToken e user (users st) with
              | inl error => (NextError error, st)
              | inr (token, user, coll) =>
                  (Send (Response 200
                     (JObj [("message", JStr "Login successful");
                            ("user", User.toJSON user);
                            ("token", JStr token)])),
                   set_users coll st)
              end
          end
      end
  end.

(** [GET /api/auth/me], behind [auth] *)
Definition me (user : User.doc) : outcome :=
  Send (Response 200 (JObj [("user", User.toJSON user)])).

(** [POST /api/auth/logout], behind [auth] *)
Definition logout (st : store) (e : env) (user : User.doc) (token : string)
    : outcome * store :=
  let user :=
    User.set_tokens (filter (λ tokenObj, tokenObj ≠ token) (User.tokens user)) user in
  match User_save e user (users st) with
  | inl error => (NextError error, st)
  | inr coll =>
      (Send (Response 200 (JObj [("message", JStr "Logged out successfully")])),
       set_users coll st)
  end.

(** *** routes/tasks ([src/unnamed/part_001]) *)

Definition taskSchema (now : Z) (body : gmap string json) : Joi.result TaskValue.t :=
  title ← Joi.required "title"
    (λ v, (Joi.string "title" v ≫= Joi.min "title" 1) ≫= Joi.max "title" 100)
    (body !! "title");
  description ← Joi.optional
    (λ v, Joi.string "description" v ≫= Joi.max "description" 500)
    (body !! "description");
  status ← Joi.optional (Joi.valid "status" Task.statuses) (body !! "status");
  priority ← Joi.optional (Joi.valid "priority" Task.priorities) (body !! "priority");
  dueDate ← Joi.optional
    (λ v, Joi.date Date_parse "dueDate" v ≫= Joi.greater_now "dueDate" now)
    (body !! "dueDate");
  _ ← Joi.unknown ["title"; "description"; "status"; "priority"; "dueDate"] body;
  mret (TaskValue.Make title description status priority dueDate).

(** [if (status) query.status = status]: an empty string is falsy. *)
Definition truthy (p : option string) : option string :=
  match p with
  | Some s => if decide (s = EmptyString) then None else Some s
  | None => None
  end.

(** The filter [query] of [GET /api/tasks] *)
Definition list_query (user : User.doc) (q : Query.t) (t : Task.doc) : bool :=
  bool_decide (Task.owner t = User._id user)
  && from_option (λ s, bool_decide (Task.status t = s)) true (truthy (Query.status q))
  && from_option (λ p, bool_decide (Task.priority t = p)) true (truthy (Query.priority q)).

(** [parseInt(p)] of a query parameter with the numeric default [d]. *)
Definition param (d : Z) (p : option string) : option Z :=
  match p with
  | None => Some d
  | Some s => JS.parseInt s
  end.

(** [Task.find(query).sort(sort).limit(limit).skip(skip)]: the driver
    skips before it limits; a limit of 0 is no limit, a negative limit
    is its absolute value.  The query fails for a sort field that is the
    empty string, for a limit or a skip that is not finite, for a negative
    skip and for a skip or a limit outside the 64-bit integers. *)
Definition find_sort_limit_skip (query : Task.doc → bool) (sortBy : string)
    (direction : Z) (limit skip : option Z) (coll : gmap ObjectId Task.doc)
    : Mongoose.error + list Task.doc :=
  if decide (sortBy = EmptyString) then inl (Mongoose.OtherError "Invalid sort field")
  else
  match limit, skip with
  | Some limit, Some skip =>
      if skip <? 0 then inl (Mongoose.OtherError "Skip value must be non-negative")
      else if (2 ^ 63 <=? skip) || (2 ^ 63 <=? Z.abs limit)
      then inl (Mongoose.OtherError "Value out of range")
      else
        let sorted := Task.sort sortBy direction (Mongoose.find query coll) in
        let rest := drop (Z.to_nat skip) sorted in
        inr (if limit =? 0 then rest else take (Z.to_nat (Z.abs limit)) rest)
  | _, _ => inl (Mongoose.CastError "limit")
  end.

(** A number in a JSON body; [NaN] and the infinities print as [null]. *)
Definition number (n : option Z) : json := from_option JNum JNull n.

(** The tasks that a list request asks for, as the route says it: the
    tasks of the caller, with the status and the priority of the query where
    it names one (an empty parameter names none). *)
Definition listed (user : User.doc) (q : Query.t) (t : Task.doc) : Prop :=
  Task.owner t = User._id user
  ∧ (∀ s, Query.status q = Some s → s ≠ EmptyString → Task.status t = s)
  ∧ (∀ p, Query.priority q = Some p → p ≠ EmptyString → Task.priority t = p).

#[global] Instance listed_dec user q t : Decision (listed user q t).
Proof.
  unfold listed.
  apply and_dec; [apply _|]. apply and_dec.
  - destruct (Query.status q) as [s|]; [|left; intros ? [=]].
    destruct (decide (s = EmptyString)) as [->|Hne]; [left; by intros ? [= <-]|].
    destruct (decide (Task.status t = s)) as [Heq|Hneq].
    + left. by intros ? [= <-].
    + right. intros Hall. by apply Hneq, Hall.
  - destruct (Query.priority q) as [p|]; [|left; intros ? [=]].
    destruct (decide (p = EmptyString)) as [->|Hne]; [left; by intros ? [= <-]|].
    destruct (decide (Task.priority t = p)) as [Heq|Hneq].
    + left. by intros ? [= <-].
    + right. intros Hall. by apply Hneq, Hall.
Defined.

(** [Math.ceil(total / parseInt(limit))] *)
Definition pages (total : nat) (limit : option Z) : option Z :=
  limit ← limit;
  if limit =? 0 then None else Some (JS.ceil_div (Z.of_nat total) limit).

(** [GET /api/tasks] *)
Definition listTasks (st : store) (user : User.doc) (q : Query.t) : outcome :=
  let sortBy := default "createdAt" (Query.sortBy q) in
  let sortOrder := default "desc" (Query.sortOrder q) in
  let page := param 1 (Query.page q) in
  let limit := param 10 (Query.limit q) in
  let query := list_query user q in
  let direction := if decide (sortOrder = "desc") then -1 else 1 in
  let skip := p ← page; l ← limit; a ← JS.number (p - 1); JS.number (a * l) in
  match find_sort_limit_skip query sortBy direction limit skip (tasks st) with
  | inl error => NextError error
  | inr found =>
      let total := Mongoose.countDocuments query (tasks st) in
      Send (Response 200
        (JObj [("tasks", JArr (Task.toJSON <$> found));
               ("pagination",
                JObj [("page", number page);
                      ("limit", number limit);
                      ("total", JNum (Z.of_nat total));
                      ("pages", number (pages total limit))])]))
  end.

Definition not_found : response := Response 404 (error_body "Task not found").

(** [GET /api/tasks/:id] *)
Definition getTask (st : store) (user : User.doc) (id : string) : outcome :=
  match Mongoose.castObjectId id with
  | None => NextError (Mongoose.CastError "_id")
  | Some _id =>
      match Task.by_id_owner _id (User._id user) (tasks st) with
      | None => Send not_found
      | Some task => Send (Response 200 (JObj [("task", Task.toJSON task)]))
      end
  end.

(** [POST /api/tasks] *)
Definition createTask (st : store) (e : env) (user : User.doc)
    (body : gmap string json) : outcome * store :=
  match taskSchema (now e) body with
  | inl error => (Send (Response 400 (error_body (Joi.message error))), st)
  | inr value =>
      let task := Task.new (oid e) (now e) value (User._id user) in
      match Task.save (now e) task (tasks st) with
      | inl error => (NextError error, st)
      | inr (task, coll) =>
          (Send (Response 201
             (JObj [("message", JStr "Task created successfully");
                    ("task", Task.toJSON task)])),
           set_tasks coll st)
      end
  end.

(** [PUT /api/tasks/:id] *)
Definition updateTask (st : store) (e : env) (user : User.doc) (id : string)
    (body : gmap string json) : outcome * store :=
  match taskSchema (now e) body with
  | inl error => (Send (Response 400 (error_body (Joi.message error))), st)
  | inr value =>
      match Mongoose.castObjectId id with
      | None => (NextError (Mongoose.CastError "_id"), st)
      | Some _id =>
          match Task.findOneAndUpdate (now e) _id (User._id user) value (tasks st) with
          | inl error => (NextError error, st)
          | inr (None, _) => (Send not_found, st)
          | inr (Some task, coll) =>
              (Send (Response 200
                 (JObj [("message", JStr "Task updated successfully");
                        ("task", Task.toJSON task)])),
               set_tasks coll st)
          end
      end
  end.

(** [DELETE /api/tasks/:id] *)
Definition deleteTask (st : store) (user : User.doc) (id : string)
    : outcome * store :=
  match Mongoose.castObjectId id with
  | None => (NextError (Mongoose.CastError "_id"), st)
  | Some _id =>
      match Task.findOneAndDelete _id (User._id user) (tasks st) with
      | (None, _) => (Send not_found, st)
      | (Some task, coll) =>
          (Send (Response 200 (JObj [("message", JStr "Task deleted successfully")])),
           set_tasks coll st)
      end
  end.

(** [GET /api/tasks/stats/overview]: the aggregation matches the tasks of
    the caller and groups them by status; the route is reached through
    [auth] like the other task routes and reads the store only. *)
Definition statsOverview (st : store) (user : User.doc) : outcome :=
  let stats :=
    Task.group_by_status
      (Mongoose.find (λ t, bool_decide (Task.owner t = User._id user)) (tasks st)) in
  let overview :=
    [("total", JNum 0); ("pending", JNum 0); ("in-progress", JNum 0);
     ("completed", JNum 0)] in
  let overview :=
    foldl (λ overview stat,
             let overview := set_key stat.1 (JNum (Z.of_nat stat.2)) overview in
             set_key "total" (plus (assoc "total" overview) (Z.of_nat stat.2)) overview)
          overview stats in
  Send (Response 200 (JObj [("stats", JObj overview)])).

(** *** server.js: the routes, the protected ones behind [auth] *)

Definition protected (st : store) (e : env) (authorization : option string)
    (route : User.doc → string → outcome * store) : outcome * store :=
  match auth st e authorization with
  | Reject r => (Send r, st)
  | Next user token => route user token
  end.

Definition handle (st : store) (e : env) (req : request) : outcome * store :=
  match req with
  | Register body => register st e body
  | Login body => login st e body
  | Me a => protected st e a (λ user _, (me user, st))
  | Logout a => protected st e a (λ user token, logout st e user token)
  | ListTasks a q => protected st e a (λ user _, (listTasks st user q, st))
  | GetTask a id => protected st e a (λ user _, (getTask st user id, st))
  | CreateTask a body => protected st e a (λ user _, createTask st e user body)
  | UpdateTask a id body => protected st e a (λ user _, updateTask st e user id body)
  | DeleteTask a id => protected st e a (λ user _, deleteTask st user id)
  end.

(** The stores that the server can be in: it starts empty and every
    request is handled in turn. *)
Inductive reachable : store → Prop :=
| reachable_init : reachable (Store ∅ ∅)
| reachable_step st e req :
    reachable st → reachable (handle st e req).2.

(** The stores that follow a given one. *)
Inductive later (st : store) : store → Prop :=
| later_refl : later st st
| later_step st' e req : later st st' → later st (handle st' e req).2.

(** A response that hands out a token: the [token] of its body. *)
Definition issues (out : outcome) (token : string) : Prop :=
  ∃ r, out = Send r ∧ field "token" (body r) = Some (JStr token).

(** The stores that follow a given one by requests none of which is answered
    with [token]. *)
Inductive later_without (token : string) (st : store) : store → Prop :=
| later_without_refl : later_without token st st
| later_without_step st' e req :
    later_without token st st' →
    ¬ issues (handle st' e req).1 token →
    later_without token st (handle st' e req).2.

End Api.


(** ** The invariant of the store *)

Record consistent (st : store) : Prop := Consistent {
  (** documents are stored under their [_id] *)
  user_key : ∀ id u, users st !! id = Some u → User._id u = id;
  task_key : ∀ id t, tasks st !! id = Some t → Task._id t = id;
  (** a stored user has a password hash and no empty session token *)
  user_password : ∀ id u, users st !! id = Some u → is_Some (User.password u);
  user_tokens : ∀ id u, users st !! id = Some u → Forall (λ t, t ≠ EmptyString) (User.tokens u);
  (** e-mail addresses are stored in lower case and identify the user *)
  user_email_lower :
    ∀ id u, users st !! id = Some u → JS.toLowerCase (User.email u) = User.email u;
  user_email_unique :
    ∀ i j u v, users st !! i = Some u → users st !! j = Some v →
               User.email u = User.email v → i = j
}.

(** What the routes keep true of the stored tasks. *)
Record well_formed (st : store) : Prop := WellFormed {
  (** the owner of a task is a stored user *)
  task_owner : ∀ id t, tasks st !! id = Some t → is_Some (users st !! Task.owner t);
  (** the fields are within the bounds of the schema *)
  task_title :
    ∀ id t, tasks st !! id = Some t →
            Task.title t ≠ EmptyString ∧ (JS.length (Task.title t) ≤ 100)%nat;
  task_description :
    ∀ id t d, tasks st !! id = Some t → Task.description t = Some d →
              (JS.length d ≤ 500)%nat;
  task_status : ∀ id t, tasks st !! id = Some t → Task.status t ∈ Task.statuses;
  task_priority : ∀ id t, tasks st !! id = Some t → Task.priority t ∈ Task.priorities
}.

(** ** A concrete instance of the libraries, to run the handlers *)

Module Demo.

Fixpoint split (sep : ascii) (s : string) : list string :=
  match s with
  | EmptyString => [EmptyString]
  | String c s' =>
      if decide (c = sep) then EmptyString :: split sep s'
      else match split sep s' with
           | x :: l => String c x :: l
           | [] => [String c EmptyString]
           end
  end.

(** An unsigned token: the claims, separated by bars. *)
Definition sign (p : Jwt.payload) : string :=
  Joi.join "|" [Jwt._id p; Jwt.email p; Jwt.role p; pretty (Jwt.iat p); pretty (Jwt.exp p)].

Definition decode (token : string) : option Jwt.payload :=
  match split "|" token with
  | [id; email; role; iat; exp] =>
      iat ← JS.parseInt iat; exp ← JS.parseInt exp;
      Some (Jwt.Payload id email role iat exp)
  | _ => None
  end.

Definition hash (password salt : string) : string :=
  "$2a$12$" +:+ salt +:+ "$" +:+ password.

Definition compare (candidate hash : string) : bool :=
  match split "$" hash with
  | [_; _; _; _; password] => bool_decide (candidate = password)
  | _ => false
  end.

Definition libraries : Libraries := {|
  jwt_sign := sign;
  jwt_decode := decode;
  bcrypt_hash := hash;
  bcrypt_compare := compare;
  is_email := JS.includes "@";
  email_match := JS.includes "@";
  Date_parse := JS.parseInt
|}.

(** A signing library that returns an empty token. *)
Definition silent : Libraries := {|
  jwt_sign := λ _, EmptyString;
  jwt_decode := decode;
  bcrypt_hash := hash;
  bcrypt_compare := compare;
  is_email := JS.includes "@";
  email_match := JS.includes "@";
  Date_parse := JS.parseInt
|}.

(** The n-th ObjectId, for n below 100. *)
Definition id (n : nat) : ObjectId :=
  "0000000000000000000000" +:+ (if (n <? 10)%nat then "0" else EmptyString) +:+ pretty n.

(** The environment of the n-th request: one request per second. *)
Definition environment (n : nat) : env :=
  Env (1000000 + 1000 * Z.of_nat n) (id n) "salt".

(** Handle a list of requests in turn, from the n-th environment on. *)
Fixpoint run (st : store) (n : nat) (reqs : list request) : list outcome * store :=
  match reqs with
  | [] => ([], st)
  | req :: reqs' =>
      let (r, st') := handle (H := libraries) st (environment n) req in
      let (rs, st'') := run st' (S n) reqs' in
      (r :: rs, st'')
  end.

Definition alice : gmap string json :=
  {[ "name" := JStr "Alice"; "email" := JStr "Alice@Example.com";
     "password" := JStr "secret1" ]}.

Definition bob : gmap string json :=
  {[ "name" := JStr "Bob"; "email" := JStr "bob@example.com";
     "password" := JStr "hunter22" ]}.

(** The tokens that the two registrations below return. *)
Definition alice_token : string :=
  "000000000000000000000000|alice@example.com|user|1000|605800".
Definition bob_token : string :=
  "000000000000000000000001|bob@example.com|user|1001|605801".

Definition bearer (token : string) : option string := Some ("Bearer " +:+ token).

(** Alice's document after her registration, and the token of her next
    login, in the fifth second. *)
Definition alice_doc : User.doc :=
  User.Doc (id 0) "Alice" "alice@example.com" (Some "$2a$12$salt$secret1") "user"
           1000000 [alice_token].
Definition second_token : string :=
  "000000000000000000000000|alice@example.com|user|1005|605805".

(** A title of white space only: a space, a no-break space (U+00A0) and an
    ideographic space (U+3000). *)
Definition blanks : string :=
  String " " (String "194" (String "160" (String "227" (String "128" (String "128"
    EmptyString))))).

(** The body of Alice's login. *)
Definition alice_login : gmap string json :=
  {[ "email" := JStr "alice@example.com"; "password" := JStr "secret1" ]}.

Definition task (title : string) : gmap string json := {[ "title" := JStr title ]}.

(** Bob's document and Alice's task in [small]. *)
Definition bob_doc : User.doc :=
  User.Doc (id 1) "Bob" "bob@example.com" (Some "$2a$12$salt$hunter22") "user"
           1001000 [bob_token].
Definition alice_task : Task.doc :=
  Task.Doc (id 2) "write" None "pending" "medium" None (id 0) 1002000 1002000.

(** The documents as the guard loads them, without the password. *)
Definition alice_user : User.doc := User.set_password None alice_doc.
Definition bob_user : User.doc := User.set_password None bob_doc.

(** A second registration under Alice's address, in other letter case. *)
Definition alice_again : gmap string json :=
  {[ "name" := JStr "Alice B"; "email" := JStr "ALICE@example.COM";
     "password" := JStr "another" ]}.

(** The store after Alice's registration. *)
Definition registered : store :=
  (register (H := libraries) (Store ∅ ∅) (environment 0) alice).2.

(** Alice and Bob are registered, Alice has one task. *)
Definition small : store :=
  (run (Store ∅ ∅) 0
     [Register alice; Register bob; CreateTask (bearer alice_token) (task "write")]).2.

(** Alice has fifteen tasks. *)
Definition busy : store :=
  (run (Store ∅ ∅) 0
     (Register alice :: replicate 15 (CreateTask (bearer alice_token) (task "todo")))).2.

(** Alice has three pending tasks and a completed one. *)
Definition mixed : store :=
  (run (Store ∅ ∅) 0
     [Register alice;
      CreateTask (bearer alice_token) (task "one");
      CreateTask (bearer alice_token) (task "two");
      CreateTask (bearer alice_token) (task "three");
      CreateTask (bearer alice_token) (task "four");
      UpdateTask (bearer alice_token) (id 4)
        {[ "title" := JStr "four"; "status" := JStr "completed" ]}]).2.

End Demo.


(** * Properties *)

(** ** Strings *)

Lemma replace_eq (pat rep s : string) :
  JS.replace pat rep s =
  if String.prefix pat s then rep +:+ JS.drop (String.length pat) s
  else match s with
       | EmptyString => EmptyString
       | String c s' => String c (JS.replace pat rep s')
       end.
Proof. by destruct s. Qed.

Lemma includes_eq (pat s : string) :
  JS.includes pat s =
  if String.prefix pat s then true
  else match s with
       | EmptyString => false
       | String _ s' => JS.includes pat s'
       end.
Proof. by destruct s. Qed.

Lemma prefix_append (p t : string) : String.prefix p (p +:+ t) = true.
Proof.
  induction p as [|c p IH]; [by destruct t|].
  simpl. by destruct (ascii_dec c c).
Qed.

Lemma drop_append (p t : string) : JS.drop (String.length p) (p +:+ t) = t.
Proof. induction p as [|c p IH]; [done | apply IH]. Qed.

Lemma replace_prefix (pat rep s : string) :
  JS.replace pat rep (pat +:+ s) = rep +:+ s.
Proof. by rewrite replace_eq, prefix_append, drop_append. Qed.

Lemma replace_unframed (pat rep s : string) :
  s ≠ EmptyString → String.prefix pat s = false → JS.replace pat rep s ≠ EmptyString.
Proof.
  intros Hs Hp. rewrite replace_eq, Hp. by destruct s.
Qed.

Lemma replace_absent (pat rep s : string) :
  JS.includes pat s = false → JS.replace pat rep s = s.
Proof.
  induction s as [|c s IH]; rewrite includes_eq, replace_eq;
    destruct (String.prefix pat _); try done.
  intros Hi. by rewrite IH.
Qed.

(** ** The Access Guard and the session tokens *)

Section Guard.

Context `{Libraries}.

Lemma auth_header (st : store) (e : env) (h : string) :
  auth st e (Some h) =
  match JS.replace "Bearer " EmptyString h with
  | EmptyString => Reject (Response 401 (error_body "No token, authorization denied"))
  | token =>
      match jwt_verify token (now e) with
      | None => invalid_token
      | Some decoded =>
          match User_findOne_id_token (Jwt._id decoded) token (users st) with
          | None => invalid_token
          | Some user => Next user token
          end
      end
  end.
Proof.
  unfold auth. cbn [fmap option_fmap option_map].
  by destruct (JS.replace "Bearer " EmptyString h).
Qed.

Lemma auth_bearer (st : store) (e : env) (token : string) :
  token ≠ EmptyString →
  auth st e (Some ("Bearer " +:+ token)) =
  match jwt_verify token (now e) with
  | None => invalid_token
  | Some decoded =>
      match User_findOne_id_token (Jwt._id decoded) token (users st) with
      | None => invalid_token
      | Some user => Next user token
      end
  end.
Proof.
  intros Ht. rewrite auth_header, replace_prefix.
  change (EmptyString +:+ token) with token. by destruct token.
Qed.

Lemma validate_tokens_nil (u : User.doc) :
  User_validate_tokens u = [] ↔ Forall (λ t, t ≠ EmptyString) (User.tokens u).
Proof.
  unfold User_validate_tokens. induction (User.tokens u) as [|t l IH]; simpl.
  - split; [constructor | done].
  - unfold Mongoose.check at 1, Mongoose.nonempty at 1. simpl.
    rewrite Forall_cons. case_bool_decide; simpl; [tauto|].
    split; [done | intros [? _]; done].
Qed.

Lemma User_save_inr (e : env) (u : User.doc) (coll coll' : gmap ObjectId User.doc) :
  User_save e u coll = inr coll' ↔
  Forall (λ t, t ≠ EmptyString) (User.tokens u)
  ∧ ∃ stored, coll !! User._id u = Some stored
              ∧ coll' = <[User._id u := User.set_tokens (User.tokens u) stored]> coll.
Proof.
  unfold User_save. rewrite <- validate_tokens_nil.
  change (User_pre_save false (salt e) u) with u.
  destruct (User_validate_tokens u) as [|x l]; simpl.
  - destruct (coll !! User._id u) as [stored|]; split.
    + intros [= <-]. eauto.
    + intros (_ & stored' & [= <-] & ->). done.
    + done.
    + intros (_ & ? & ? & _). done.
  - split; [done | intros [? _]; done].
Qed.

Lemma jwt_verify_Some (token : string) (t : Z) (p : Jwt.payload) :
  jwt_verify token t = Some p ↔
  token ≠ EmptyString ∧ jwt_decode token = Some p ∧ Jwt.clock t < Jwt.exp p.
Proof.
  unfold jwt_verify. case_decide as Ht.
  - split; [done | intros [? _]; done].
  - destruct (jwt_decode token) as [q|]; [|split; [done | intros (_ & ? & _); done]].
    destruct (Z.leb_spec (Jwt.exp q) (Jwt.clock t)).
    + split; [done | intros (_ & [= ->] & ?); lia].
    + split; [intros [= ->]; done | intros (_ & [= ->] & _); done].
Qed.

(** A token that is not among the sessions of the user it names is
    rejected, whatever the clock says. *)
Lemma auth_revoked (st : store) (e : env) (token : string) (id : ObjectId) :
  token ≠ EmptyString →
  (∀ p, jwt_decode token = Some p → Jwt._id p = id) →
  (∀ u, users st !! id = Some u → token ∉ User.tokens u) →
  auth st e (Some ("Bearer " +:+ token)) = invalid_token.
Proof.
  intros Ht Hid Hrev. rewrite auth_bearer by done.
  destruct (jwt_verify token (now e)) as [p|] eqn:Hv; [|done].
  apply jwt_verify_Some in Hv as (_ & Hd & _). rewrite (Hid _ Hd).
  unfold User_findOne_id_token.
  destruct (users st !! id) as [u|] eqn:Hu; simpl; [|done].
  case_decide; [|done]. by destruct (Hrev u).
Qed.

End Guard.

Section GuardClaims.

Context `{Libraries}.

(** Claim C9.  A non-empty Authorization header that does not begin with
    [Bearer ] is not rejected for its framing: the guard takes the header
    with the first occurrence of [Bearer ] removed (the whole header when
    there is none) as the token, which is not empty, and answers exactly as
    it does for that token in a well-framed header; so a raw token that
    verifies and is among the sessions of its user is accepted. *)
Theorem guard_accepts_unframed_token (st : store) (e : env) (h : string) :
  h ≠ EmptyString →
  String.prefix "Bearer " h = false →
  let token := JS.replace "Bearer " EmptyString h in
  token ≠ EmptyString
  ∧ auth st e (Some h) = auth st e (Some ("Bearer " +:+ token))
  ∧ auth st e (Some h)
    ≠ Reject (Response 401 (error_body "No token, authorization denied"))
  ∧ (JS.includes "Bearer " h = false → token = h)
  ∧ (∀ decoded u,
       JS.includes "Bearer " h = false →
       jwt_verify h (now e) = Some decoded →
       users st !! Jwt._id decoded = Some u →
       h ∈ User.tokens u →
       auth st e (Some h) = Next (User.set_password None u) h).
Proof.
  intros Hne Hpre token.
  assert (Htok : token ≠ EmptyString) by by apply replace_unframed.
  assert (Hauth : auth st e (Some h) = auth st e (Some ("Bearer " +:+ token))).
  { rewrite (auth_header st e ("Bearer " +:+ token)), replace_prefix.
    apply auth_header. }
  split_and!; try done.
  - rewrite Hauth, auth_bearer by done.
    destruct (jwt_verify token (now e)); [|done].
    by destruct (User_findOne_id_token _ _ _).
  - apply replace_absent.
  - intros decoded u Hin Hv Hu Hmem.
    rewrite Hauth, auth_bearer by done. unfold token.
    rewrite (replace_absent _ _ _ Hin), Hv.
    unfold User_findOne_id_token. rewrite Hu. simpl. by case_decide.
Qed.

End GuardClaims.

(** ** Queries on a collection *)

Section Queries.

Context {V : Type}.
Implicit Types (coll : gmap ObjectId V) (filter : V → bool).

Lemma elem_of_docs coll v : v ∈ Mongoose.docs coll ↔ ∃ id, coll !! id = Some v.
Proof.
  unfold Mongoose.docs. rewrite list_elem_of_fmap. split.
  - intros ([id v'] & -> & Hin). exists id. by apply elem_of_map_to_list.
  - intros [id Hid]. exists (id, v). split; [done|]. by apply elem_of_map_to_list.
Qed.

Lemma findOne_Some filter coll v :
  Mongoose.findOne filter coll = Some v → filter v = true ∧ ∃ id, coll !! id = Some v.
Proof.
  intros Hf. apply List.find_some in Hf as [Hin Hv]. split; [done|].
  apply elem_of_docs. by apply list_elem_of_In.
Qed.

Lemma findOne_None filter coll id v :
  Mongoose.findOne filter coll = None → coll !! id = Some v → filter v = false.
Proof.
  intros Hf Hv. apply (List.find_none _ _ Hf).
  apply list_elem_of_In, elem_of_docs. eauto.
Qed.

Lemma findOne_is_Some filter coll id v :
  coll !! id = Some v → filter v = true → is_Some (Mongoose.findOne filter coll).
Proof.
  intros Hv Hf. destruct (Mongoose.findOne filter coll) eqn:Hone; [done|].
  rewrite (findOne_None _ _ _ _ Hone Hv) in Hf. done.
Qed.

End Queries.

Lemma lower_char_idemp (c : ascii) : JS.lower_char (JS.lower_char c) = JS.lower_char c.
Proof. by destruct c as [[] [] [] [] [] [] [] []]. Qed.

Lemma toLowerCase_idemp (s : string) :
  JS.toLowerCase (JS.toLowerCase s) = JS.toLowerCase s.
Proof. induction s as [|c s IH]; simpl; [done|]. by rewrite lower_char_idemp, IH. Qed.

(** ** The invariant holds in every store the server reaches *)

Section Invariant.

Context `{Libraries}.

Lemma consistent_empty : consistent (Store ∅ ∅).
Proof. constructor; simpl; intros *; by rewrite ?lookup_empty. Qed.

Lemma consistent_set_tokens (st : store) (id : ObjectId) (stored : User.doc)
    (tokens : list string) :
  consistent st →
  users st !! id = Some stored →
  Forall (λ t, t ≠ EmptyString) tokens →
  consistent (set_users (<[id := User.set_tokens tokens stored]> (users st)) st).
Proof.
  intros [Hk Htk Hp Ht Hl Hu] Hs Htok.
  assert (Hlook : ∀ i u, <[id := User.set_tokens tokens stored]> (users st) !! i = Some u →
            ∃ u0, users st !! i = Some u0 ∧ User._id u = User._id u0
                  ∧ User.email u = User.email u0 ∧ User.password u = User.password u0
                  ∧ (User.tokens u = User.tokens u0 ∨ User.tokens u = tokens)).
  { intros i u. rewrite lookup_insert. case_decide as Hi.
    - intros [= <-]. subst i. exists stored. simpl. tauto.
    - intros Hu0. exists u. tauto. }
  constructor; simpl; try done.
  - intros i u (u0 & Hu0 & -> & _)%Hlook. eauto.
  - intros i u (u0 & Hu0 & _ & _ & -> & _)%Hlook. eauto.
  - intros i u (u0 & Hu0 & _ & _ & _ & [-> | ->])%Hlook; eauto.
  - intros i u (u0 & Hu0 & _ & -> & _)%Hlook. eauto.
  - intros i j u v (u0 & Hu0 & _ & -> & _)%Hlook (v0 & Hv0 & _ & -> & _)%Hlook. eauto.
Qed.

Lemma consistent_save (st : store) (e : env) (u : User.doc)
    (coll : gmap ObjectId User.doc) :
  consistent st → User_save e u (users st) = inr coll → consistent (set_users coll st).
Proof.
  intros Hst (Hall & stored & Hs & ->)%User_save_inr.
  by apply consistent_set_tokens.
Qed.

Lemma consistent_generateAuthToken (st : store) (e : env) (u u' : User.doc)
    (token : string) (coll : gmap ObjectId User.doc) :
  consistent st → generateAuthToken e u (users st) = inr (token, u', coll) →
  consistent (set_users coll st).
Proof.
  intros Hst Hgen. unfold generateAuthToken in Hgen.
  destruct (User_save _ _ _) as [|coll1] eqn:Hsave; [done|].
  injection Hgen as _ _ <-. by eapply consistent_save.
Qed.

Lemma User_insert_inr (e : env) (u u' : User.doc) (coll coll' : gmap ObjectId User.doc) :
  User_insert e u coll = inr (u', coll') →
  u' = User_pre_save true (salt e) u
  ∧ coll !! User._id u = None
  ∧ (∀ id v, coll !! id = Some v → User.email v ≠ User.email u)
  ∧ Forall (λ t, t ≠ EmptyString) (User.tokens u)
  ∧ coll' = <[User._id u := u']> coll.
Proof.
  unfold User_insert.
  destruct (User_validate u ++ User_validate_tokens u) eqn:Hval; [|done].
  apply app_eq_nil in Hval as [_ Htok%validate_tokens_nil].
  change (User._id (User_pre_save true (salt e) u)) with (User._id u).
  change (User.email (User_pre_save true (salt e) u)) with (User.email u).
  destruct (coll !! User._id u) eqn:Hid; [done|].
  destruct (Mongoose.findOne _ coll) eqn:Hone; [done|].
  intros [= <- <-]. split_and!; try done.
  intros id v Hv Heq. pose proof (findOne_None _ _ _ _ Hone Hv) as Hf.
  simpl in Hf. by rewrite bool_decide_eq_false in Hf.
Qed.

Lemma consistent_insert (st : store) (e : env) (name email password : string)
    (u' : User.doc) (coll : gmap ObjectId User.doc) :
  consistent st →
  User_insert e (User.new (oid e) (now e) name email password) (users st) = inr (u', coll) →
  consistent (set_users coll st)
  ∧ coll !! oid e = Some u' ∧ User.email u' = JS.toLowerCase email
  ∧ User._id u' = oid e.
Proof.
  intros [Hk Htk Hp Ht Hl Hu] (-> & Hnone & Hfresh & _ & ->)%User_insert_inr.
  simpl in *. split_and!; [|by rewrite lookup_insert_eq|done|done].
  constructor; simpl; try done.
  - intros i u. rewrite lookup_insert. case_decide; [by intros [= <-]|]. eauto.
  - intros i u. rewrite lookup_insert. case_decide; [by intros [= <-]|]. eauto.
  - intros i u. rewrite lookup_insert. case_decide; [by intros [= <-]|]. eauto.
  - intros i u. rewrite lookup_insert.
    case_decide; [intros [= <-]; apply toLowerCase_idemp|]. eauto.
  - intros i j u v. rewrite !lookup_insert.
    repeat case_decide; subst; try done.
    + intros [= <-] Hv Heq. simpl in Heq. by destruct (Hfresh _ _ Hv).
    + intros Hu' [= <-] Heq. simpl in Heq. by destruct (Hfresh _ _ Hu').
    + eauto.
Qed.

End Invariant.

Section InvariantTasks.

Context `{Libraries}.

Lemma by_id_owner_Some (id owner : ObjectId) (coll : gmap ObjectId Task.doc)
    (t : Task.doc) :
  Task.by_id_owner id owner coll = Some t ↔ coll !! id = Some t ∧ Task.owner t = owner.
Proof.
  unfold Task.by_id_owner. destruct (coll !! id) as [t'|]; simpl.
  - case_decide; split; try done.
    + by intros [= <-].
    + by intros [[= <-] _].
    + intros [[= <-] ?]. done.
  - split; [done | by intros [? _]].
Qed.

Lemma by_id_owner_None (id owner : ObjectId) (coll : gmap ObjectId Task.doc) :
  Task.by_id_owner id owner coll = None ↔
  ∀ t, coll !! id = Some t → Task.owner t ≠ owner.
Proof.
  unfold Task.by_id_owner. destruct (coll !! id) as [t'|]; simpl.
  - case_decide; split; try done.
    + intros Hn. by destruct (Hn t').
    + by intros _ t [= <-].
  - split; [by intros _ t | done].
Qed.

Lemma consistent_set_tasks (st : store) (coll : gmap ObjectId Task.doc) :
  consistent st →
  (∀ id t, coll !! id = Some t → Task._id t = id) →
  consistent (set_tasks coll st).
Proof. intros [Hk Htk Hp Ht Hl Hu] Hc. by constructor. Qed.

Lemma consistent_createTask (st : store) (e : env) (user : User.doc)
    (body : gmap string json) :
  consistent st → consistent (createTask st e user body).2.
Proof.
  intros Hst. unfold createTask.
  destruct (taskSchema _ _) as [|value]; [done|].
  unfold Task.save. destruct (Task.validate _ _); [|done].
  change (Task._id (Task.pre_save _ ?t)) with (Task._id t). simpl.
  destruct (tasks st !! oid e) eqn:Hid; [done|]. simpl.
  apply consistent_set_tasks; [done|].
  intros id t. rewrite lookup_insert. case_decide; [by intros [= <-]|].
  apply (task_key _ Hst).
Qed.

Lemma consistent_updateTask (st : store) (e : env) (user : User.doc) (id : string)
    (body : gmap string json) :
  consistent st → consistent (updateTask st e user id body).2.
Proof.
  intros Hst. unfold updateTask.
  destruct (taskSchema _ _) as [|value]; [done|].
  destruct (Mongoose.castObjectId id) as [_id|]; [|done].
  unfold Task.findOneAndUpdate. destruct (Task.update_validators _ _); [|done].
  destruct (Task.by_id_owner _ _ _) as [t|] eqn:Ht; [|done]. simpl.
  apply by_id_owner_Some in Ht as [Ht _].
  apply consistent_set_tasks; [done|].
  intros i t'. rewrite lookup_insert. case_decide.
  - intros [= <-]. subst i. simpl. apply (task_key _ Hst _ _ Ht).
  - apply (task_key _ Hst).
Qed.

Lemma consistent_deleteTask (st : store) (user : User.doc) (id : string) :
  consistent st → consistent (deleteTask st user id).2.
Proof.
  intros Hst. unfold deleteTask.
  destruct (Mongoose.castObjectId id) as [_id|]; [|done].
  unfold Task.findOneAndDelete.
  destruct (Task.by_id_owner _ _ _) as [t|] eqn:Ht; [|done]. simpl.
  apply consistent_set_tasks; [done|].
  intros i t'. rewrite lookup_delete. case_decide; [done|].
  apply (task_key _ Hst).
Qed.

Lemma consistent_register (st : store) (e : env) (body : gmap string json) :
  consistent st → consistent (register st e body).2.
Proof.
  intros Hst. unfold register.
  destruct (registerSchema body) as [|[[name email] password]]; [done|].
  destruct (User_findOne_email _ _); [done|].
  destruct (User_insert _ _ _) as [|[user coll]] eqn:Hins; [done|].
  apply consistent_insert in Hins as (Hc & _); [|done].
  destruct (generateAuthToken _ _ _) as [|[[token user'] coll']] eqn:Hgen; [done|].
  simpl. by apply (consistent_generateAuthToken _ _ _ _ _ _ Hc Hgen).
Qed.

Lemma consistent_login (st : store) (e : env) (body : gmap string json) :
  consistent st → consistent (login st e body).2.
Proof.
  intros Hst. unfold login.
  destruct (loginSchema body) as [|[email password]]; [done|].
  destruct (User_findOne_email_password _ _) as [user|]; [|done].
  destruct (comparePassword _ _) as [|[]]; try done.
  destruct (generateAuthToken _ _ _) as [|[[token user'] coll']] eqn:Hgen; [done|].
  simpl. by eapply consistent_generateAuthToken.
Qed.

Lemma consistent_logout (st : store) (e : env) (user : User.doc) (token : string) :
  consistent st → consistent (logout st e user token).2.
Proof.
  intros Hst. unfold logout.
  destruct (User_save _ _ _) as [|coll] eqn:Hsave; [done|].
  simpl. by eapply consistent_save.
Qed.

Lemma consistent_handle (st : store) (e : env) (req : request) :
  consistent st → consistent (handle st e req).2.
Proof.
  intros Hst. destruct req; simpl;
    try (unfold protected; destruct (auth st e authorization); [|done]); simpl;
    auto using consistent_register, consistent_login, consistent_logout,
      consistent_createTask, consistent_updateTask, consistent_deleteTask.
Qed.

Lemma reachable_consistent (st : store) : reachable st → consistent st.
Proof.
  induction 1; [apply consistent_empty | by apply consistent_handle].
Qed.

Lemma later_consistent (st st' : store) : consistent st → later st st' → consistent st'.
Proof. induction 2; [done | by apply consistent_handle]. Qed.

Lemma later_reachable (st st' : store) : reachable st → later st st' → reachable st'.
Proof. induction 2; [done | by constructor]. Qed.

End InvariantTasks.

Lemma demo_run_later (st : store) (n : nat) (reqs : list request) :
  later (H := Demo.libraries) st (Demo.run st n reqs).2.
Proof.
  assert (Hgen : ∀ st0, later (H := Demo.libraries) st st0 →
            later (H := Demo.libraries) st (Demo.run st0 n reqs).2).
  { revert n. induction reqs as [|req reqs IH]; intros n st0 Hst0; simpl; [done|].
    destruct (handle st0 (Demo.environment n) req) as [r st'] eqn:Hh.
    specialize (IH (S n) st'). destruct (Demo.run st' (S n) reqs) as [rs st''].
    simpl in *. apply IH.
    replace st' with (handle (H := Demo.libraries) st0 (Demo.environment n) req).2
      by by rewrite Hh.
    by constructor. }
  apply Hgen. constructor.
Qed.

Lemma demo_run_consistent (n : nat) (reqs : list request) :
  consistent (Demo.run (Store ∅ ∅) n reqs).2.
Proof.
  eapply (later_consistent (H := Demo.libraries));
    [apply consistent_empty | apply demo_run_later].
Qed.

(** ** Inversion of the Joi rules *)

Section JoiRules.

Context {A B : Type}.

Lemma bind_inr (m : Joi.result A) (f : A → Joi.result B) (b : B) :
  m ≫= f = inr b ↔ ∃ a, m = inr a ∧ f a = inr b.
Proof.
  destruct m as [err|a]; simpl; split; try done.
  - intros (a & ? & _). done.
  - eauto.
  - by intros (a' & [= <-] & ?).
Qed.

Lemma bind_inl (m : Joi.result A) (f : A → Joi.result B) (err : Joi.error) :
  m = inl err → m ≫= f = inl err.
Proof. by intros ->. Qed.

Lemma required_inr (key : string) (rule : json → Joi.result A) (v : option json) (a : A) :
  Joi.required key rule v = inr a ↔ ∃ j, v = Some j ∧ rule j = inr a.
Proof.
  destruct v as [j|]; simpl; split; try done.
  - eauto.
  - by intros (j' & [= <-] & ?).
  - by intros (j & ? & _).
Qed.

Lemma optional_inr (rule : json → Joi.result A) (v : option json) (o : option A) :
  Joi.optional rule v = inr o ↔
  (v = None ∧ o = None) ∨ ∃ j a, v = Some j ∧ rule j = inr a ∧ o = Some a.
Proof.
  destruct v as [j|]; simpl.
  - destruct (rule j) as [err|a] eqn:Hr; simpl; split; try done.
    + intros [[? _] | (j' & a & [= <-] & Hr' & _)]; [done | congruence].
    + intros [= <-]. right. eauto.
    + intros [[? _] | (j' & a' & [= <-] & Hr' & ->)]; [done|].
      rewrite Hr in Hr'. by injection Hr' as ->.
  - split.
    + intros [= <-]. by left.
    + intros [[_ ->] | (j & a & ? & _)]; done.
Qed.

End JoiRules.

Lemma string_inr (key : string) (v : json) (s : string) :
  Joi.string key v = inr s ↔ v = JStr s ∧ s ≠ EmptyString.
Proof.
  destruct v; simpl; try (split; [done | by intros [? _]]).
  case_decide; split; try done.
  - intros [[= ->] ?]. done.
  - by intros [= <-].
  - by intros [[= ->] _].
Qed.

Lemma min_inr (key : string) (n : nat) (s s' : string) :
  Joi.min key n s = inr s' ↔ s' = s ∧ (n ≤ JS.length s)%nat.
Proof.
  unfold Joi.min. destruct (Nat.ltb_spec (JS.length s) n); split; try done.
  - intros [_ ?]. lia.
  - intros [= <-]. split; [done | lia].
  - by intros [-> _].
Qed.

Lemma max_inr (key : string) (n : nat) (s s' : string) :
  Joi.max key n s = inr s' ↔ s' = s ∧ (JS.length s ≤ n)%nat.
Proof.
  unfold Joi.max. destruct (Nat.ltb_spec n (JS.length s)); split; try done.
  - intros [_ ?]. lia.
  - intros [= <-]. split; [done | lia].
  - by intros [-> _].
Qed.

Lemma email_inr (ok : string → bool) (key s s' : string) :
  Joi.email ok key s = inr s' ↔ s' = s ∧ ok s = true.
Proof.
  unfold Joi.email. destruct (ok s); split; try done.
  - by intros [= <-].
  - by intros [-> _].
  - by intros [_ ?].
Qed.

(** ** Registration *)

Section Registration.

Context `{Libraries}.

Lemma registerSchema_inr (body : gmap string json) (name email password : string) :
  registerSchema body = inr (name, email, password) →
  body !! "name" = Some (JStr name) ∧ body !! "email" = Some (JStr email)
  ∧ body !! "password" = Some (JStr password).
Proof.
  unfold registerSchema.
  intros (n & Hn & (m & Hm & (p & Hp & (_ & _ & [= -> -> ->])%bind_inr)%bind_inr)%bind_inr)%bind_inr.
  apply required_inr in Hn as (j & -> & (? & (? & [-> _]%string_inr
    & [-> _]%min_inr)%bind_inr & [-> _]%max_inr)%bind_inr).
  apply required_inr in Hm as (j & -> & (? & [-> _]%string_inr & [-> _]%email_inr)%bind_inr).
  apply required_inr in Hp as (j & -> & (? & [-> _]%string_inr & [-> _]%min_inr)%bind_inr).
  done.
Qed.

Lemma save_keeps (e : env) (x : User.doc) (coll coll' : gmap ObjectId User.doc)
    (id : ObjectId) (u : User.doc) :
  User_save e x coll = inr coll' → coll !! id = Some u →
  ∃ u', coll' !! id = Some u' ∧ User.email u' = User.email u.
Proof.
  intros (_ & stored & Hs & ->)%User_save_inr Hu.
  rewrite lookup_insert. case_decide as Hid; [|eauto].
  subst id. rewrite Hs in Hu. injection Hu as <-. eauto.
Qed.

Lemma generateAuthToken_keeps (e : env) (x x' : User.doc) (token : string)
    (coll coll' : gmap ObjectId User.doc) (id : ObjectId) (u : User.doc) :
  generateAuthToken e x coll = inr (token, x', coll') → coll !! id = Some u →
  ∃ u', coll' !! id = Some u' ∧ User.email u' = User.email u.
Proof.
  unfold generateAuthToken.
  destruct (User_save _ _ _) as [|coll1] eqn:Hsave; [done|].
  intros [= _ _ <-]. by eapply save_keeps.
Qed.

(** No request removes a user or changes an address. *)
Lemma handle_keeps (st : store) (e : env) (req : request) (id : ObjectId) (u : User.doc) :
  users st !! id = Some u →
  ∃ u', users (handle st e req).2 !! id = Some u' ∧ User.email u' = User.email u.
Proof.
  intros Hu.
  assert (Hcreate : ∀ user body, users (createTask st e user body).2 = users st).
  { intros. unfold createTask. destruct (taskSchema _ _); [done|].
    by destruct (Task.save _ _ _) as [|[]]. }
  assert (Hupdate : ∀ user i body, users (updateTask st e user i body).2 = users st).
  { intros. unfold updateTask. destruct (taskSchema _ _); [done|].
    destruct (Mongoose.castObjectId _); [|done].
    by destruct (Task.findOneAndUpdate _ _ _ _ _) as [|[[] ?]]. }
  assert (Hdelete : ∀ user i, users (deleteTask st user i).2 = users st).
  { intros. unfold deleteTask. destruct (Mongoose.castObjectId _); [|done].
    by destruct (Task.findOneAndDelete _ _ _) as [[] ?]. }
  destruct req as [b|b|a|a|a q|a i|a b|a i b|a i]; simpl;
    try (unfold protected; destruct (auth st e a); [|by eauto]); simpl;
    rewrite ?Hcreate, ?Hupdate, ?Hdelete; eauto.
  - unfold register.
    destruct (registerSchema b) as [|[[name email] password]]; [by eauto|].
    destruct (User_findOne_email _ _); [by eauto|].
    destruct (User_insert _ _ _) as [|[user coll]] eqn:Hins; [by eauto|].
    apply User_insert_inr in Hins as (_ & Hnone & _ & _ & ->).
    assert (Hu1 : <[User._id (User.new (oid e) (now e) name email password) := user]>
              (users st) !! id = Some u).
    { rewrite lookup_insert_ne; [done|]. intros <-. by rewrite Hnone in Hu. }
    destruct (generateAuthToken _ _ _) as [|[[token user'] coll']] eqn:Hgen;
      simpl; [by eauto|].
    by eapply generateAuthToken_keeps.
  - unfold login.
    destruct (loginSchema b) as [|[email password]]; [by eauto|].
    destruct (User_findOne_email_password _ _) as [user|]; [|by eauto].
    destruct (comparePassword _ _) as [|[]]; try by eauto.
    destruct (generateAuthToken _ _ _) as [|[[token user'] coll']] eqn:Hgen;
      simpl; [by eauto|].
    by eapply generateAuthToken_keeps.
  - unfold logout.
    destruct (User_save _ _ _) as [|coll] eqn:Hsave; simpl; [by eauto|].
    by eapply save_keeps.
Qed.

Lemma later_keeps (st st' : store) (id : ObjectId) (u : User.doc) :
  later st st' → users st !! id = Some u →
  ∃ u', users st' !! id = Some u' ∧ User.email u' = User.email u.
Proof.
  induction 1 as [|st' e req _ IH]; [by eauto|].
  intros (u1 & Hu1 & <-)%IH. by apply handle_keeps.
Qed.

(** Claim C4.  When a registration has succeeded, every later
    registration whose address is the same up to letter case is answered
    with 400 and leaves the store as it is; when its body passes the
    schema the answer is the duplicate-address error.  The user of the
    first registration is stored under the lower-case address, and in
    every later store no two users share an address. *)
Theorem duplicate_email_rejected
    (st st1 : store) (e1 : env) (body1 : gmap string json) (email1 : string)
    (r1 : response) :
  consistent st →
  register st e1 body1 = (Send r1, st1) →
  status r1 = 201%nat →
  body1 !! "email" = Some (JStr email1) →
  (∃ u, users st1 !! oid e1 = Some u ∧ User.email u = JS.toLowerCase email1)
  ∧ ∀ st2, later st1 st2 →
      (∀ i j u v, users st2 !! i = Some u → users st2 !! j = Some v →
                  i ≠ j → User.email u ≠ User.email v)
      ∧ ∀ e2 body2 email2,
          body2 !! "email" = Some (JStr email2) →
          JS.toLowerCase email2 = JS.toLowerCase email1 →
          ∃ r2, register st2 e2 body2 = (Send r2, st2)
                ∧ status r2 = 400%nat
                ∧ (∀ v, registerSchema body2 = inr v →
                        body r2 = error_body "User already exists with this email").
Proof.
  intros Hst Hreg H201 Hemail1.
  assert (Hst1 : consistent st1).
  { replace st1 with (register st e1 body1).2 by by rewrite Hreg.
    by apply consistent_register. }
  assert (Hu : ∃ u, users st1 !! oid e1 = Some u ∧ User.email u = JS.toLowerCase email1).
  { unfold register in Hreg.
    destruct (registerSchema body1) as [|[[name email] password]] eqn:Hschema.
    { injection Hreg as <- _. done. }
    apply registerSchema_inr in Hschema as (_ & Hem & _).
    rewrite Hemail1 in Hem. injection Hem as <-.
    destruct (User_findOne_email _ _).
    { injection Hreg as <- _. done. }
    destruct (User_insert _ _ _) as [|[user coll]] eqn:Hins; [done|].
    apply consistent_insert in Hins as (_ & Hlook & Hlow & _); [|done].
    destruct (generateAuthToken _ _ _) as [|[[token user'] coll']] eqn:Hgen; [done|].
    injection Hreg as _ <-. simpl. rewrite <- Hlow.
    by eapply generateAuthToken_keeps. }
  split; [done|]. intros st2 Hlater.
  pose proof (later_consistent _ _ Hst1 Hlater) as Hst2. split.
  { intros i j u v Hi Hj Hne Heq. by destruct (Hne (user_email_unique _ Hst2 _ _ _ _ Hi Hj Heq)). }
  intros e2 body2 email2 Hemail2 Hsame.
  destruct Hu as (u & Hu & Hmail).
  destruct (later_keeps _ _ _ _ Hlater Hu) as (u2 & Hu2 & Hmail2).
  unfold register.
  destruct (registerSchema body2) as [err|[[name email] password]] eqn:Hschema.
  { eexists. split_and!; [done | done | done]. }
  apply registerSchema_inr in Hschema as (_ & Hem & _).
  rewrite Hemail2 in Hem. injection Hem as <-.
  assert (Hfound : is_Some (User_findOne_email email2 (users st2))).
  { unfold User_findOne_email. rewrite fmap_is_Some.
    apply (findOne_is_Some _ _ _ _ Hu2). apply bool_decide_eq_true.
    by rewrite Hmail2, Hmail. }
  destruct Hfound as [existing ->]. eexists. split_and!; done.
Qed.

End Registration.

(** ** The claims on concrete requests *)

(** Alice sends her token without the [Bearer ] prefix and is let in. *)
Lemma guard_accepts_unframed_token_witness :
  Demo.alice_token ≠ EmptyString
  ∧ String.prefix "Bearer " Demo.alice_token = false
  ∧ auth (H := Demo.libraries) Demo.small (Demo.environment 5) (Some Demo.alice_token)
    = Next (User.set_password None Demo.alice_doc) Demo.alice_token.
Proof.
  split; [done|]. split; [reflexivity|].
  destruct (guard_accepts_unframed_token (H := Demo.libraries) Demo.small
              (Demo.environment 5) Demo.alice_token) as (_ & _ & _ & _ & Hok);
    [done | reflexivity |].
  apply (Hok (Jwt.Payload (Demo.id 0) "alice@example.com" "user" 1000 605800));
    [reflexivity | reflexivity | by vm_compute | by left].
Defined.

(** A second registration under Alice's address, in other letter case. *)
Lemma duplicate_email_rejected_witness :
  consistent (Store ∅ ∅)
  ∧ Demo.alice !! "email" = Some (JStr "Alice@Example.com")
  ∧ Demo.alice_again !! "email" = Some (JStr "ALICE@example.COM")
  ∧ JS.toLowerCase "ALICE@example.COM" = JS.toLowerCase "Alice@Example.com"
  ∧ ∃ r2, register (H := Demo.libraries) Demo.registered (Demo.environment 1)
            Demo.alice_again = (Send r2, Demo.registered)
          ∧ status r2 = 400%nat
          ∧ body r2 = error_body "User already exists with this email".
Proof.
  assert (H0 : consistent (Store ∅ ∅)) by apply consistent_empty.
  assert (H1 : Demo.alice !! "email" = Some (JStr "Alice@Example.com"))
    by (vm_compute; reflexivity).
  assert (H2 : Demo.alice_again !! "email" = Some (JStr "ALICE@example.COM"))
    by (vm_compute; reflexivity).
  assert (H3 : JS.toLowerCase "ALICE@example.COM" = JS.toLowerCase "Alice@Example.com")
    by reflexivity.
  assert (Hreg : ∃ r1, register (H := Demo.libraries) (Store ∅ ∅) (Demo.environment 0)
                         Demo.alice = (Send r1, Demo.registered) ∧ status r1 = 201%nat).
  { vm_compute. eexists. split; reflexivity. }
  destruct Hreg as (r1 & Hreg & H201).
  split; [exact H0|]. split; [exact H1|]. split; [exact H2|]. split; [exact H3|].
  destruct (duplicate_email_rejected (H := Demo.libraries) _ _ _ _ _ _ H0 Hreg H201 H1)
    as [_ Hlater].
  destruct (Hlater Demo.registered (later_refl _) ) as [_ Hdup].
  destruct (Hdup (Demo.environment 1) _ _ H2 H3) as (r2 & Hr2 & H400 & Hbody).
  exists r2. split; [exact Hr2|]. split; [exact H400|].
  eapply Hbody. vm_compute. reflexivity.
Defined.

(** ** Login *)

Section Login.

Context `{Libraries}.

(** The answer to a login does not tell a registered address with a wrong
    password from an address that is not registered: the same body gets the
    same answer in a store of the one kind and in a store of the other,
    whether or not the body passes the schema. *)
Lemma login_no_existence_oracle (st1 st2 : store) (e1 e2 : env) (body : gmap string json) :
  (∀ email password, loginSchema body = inr (email, password) →
     (∃ user, User_findOne_email_password email (users st1) = Some user
              ∧ comparePassword user password = inr false)
     ∧ User_findOne_email_password email (users st2) = None) →
  (login st1 e1 body).1 = (login st2 e2 body).1.
Proof.
  intros Hcase. unfold login.
  destruct (loginSchema body) as [err|[email password]]; [done|].
  destruct (Hcase _ _ eq_refl) as [(user & -> & ->) ->]. done.
Qed.

(** Claim C6.  A login with a registered address and a wrong password and a
    login with an address that is not registered get the same response:
    status 401 with the body [{ error: 'Invalid credentials' }]; neither
    changes the store. *)
Theorem login_failures_uniform
    (st : store) (e1 e2 : env) (body1 body2 : gmap string json)
    (email1 password1 email2 password2 : string) (user : User.doc) :
  loginSchema body1 = inr (email1, password1) →
  loginSchema body2 = inr (email2, password2) →
  User_findOne_email_password email1 (users st) = Some user →
  comparePassword user password1 = inr false →
  User_findOne_email_password email2 (users st) = None →
  login st e1 body1 = (Send (Response 401 (error_body "Invalid credentials")), st)
  ∧ login st e2 body2 = (Send (Response 401 (error_body "Invalid credentials")), st)
  ∧ (login st e1 body1).1 = (login st e2 body2).1.
Proof.
  intros Hb1 Hb2 Hreg Hwrong Hunreg. unfold login.
  by rewrite Hb1, Hb2, Hreg, Hwrong, Hunreg.
Qed.

End Login.

(** A wrong password for Alice and an address that nobody registered. *)
Lemma login_failures_uniform_witness :
  let wrong : gmap string json :=
    {[ "email" := JStr "alice@example.com"; "password" := JStr "guess" ]} in
  let unknown : gmap string json :=
    {[ "email" := JStr "carol@example.com"; "password" := JStr "guess" ]} in
  loginSchema (H := Demo.libraries) wrong = inr ("alice@example.com", "guess")
  ∧ loginSchema (H := Demo.libraries) unknown = inr ("carol@example.com", "guess")
  ∧ User_findOne_email_password "alice@example.com" (users Demo.small) = Some Demo.alice_doc
  ∧ comparePassword (H := Demo.libraries) Demo.alice_doc "guess" = inr false
  ∧ User_findOne_email_password "carol@example.com" (users Demo.small) = None
  ∧ login (H := Demo.libraries) Demo.small (Demo.environment 7) wrong
    = (Send (Response 401 (error_body "Invalid credentials")), Demo.small)
  ∧ login (H := Demo.libraries) Demo.small (Demo.environment 8) unknown
    = (Send (Response 401 (error_body "Invalid credentials")), Demo.small).
Proof.
  intros wrong unknown.
  assert (H1 : loginSchema (H := Demo.libraries) wrong = inr ("alice@example.com", "guess"))
    by (vm_compute; reflexivity).
  assert (H2 : loginSchema (H := Demo.libraries) unknown = inr ("carol@example.com", "guess"))
    by (vm_compute; reflexivity).
  assert (H3 : User_findOne_email_password "alice@example.com" (users Demo.small)
               = Some Demo.alice_doc) by (vm_compute; reflexivity).
  assert (H4 : comparePassword (H := Demo.libraries) Demo.alice_doc "guess" = inr false)
    by (vm_compute; reflexivity).
  assert (H5 : User_findOne_email_password "carol@example.com" (users Demo.small) = None)
    by (vm_compute; reflexivity).
  destruct (login_failures_uniform (H := Demo.libraries) Demo.small (Demo.environment 7)
              (Demo.environment 8) wrong unknown _ _ _ _ _ H1 H2 H3 H4 H5)
    as (Hwrong & Hunknown & _).
  repeat (split; [assumption|]). exact Hunknown.
Defined.

(** ** The task routes *)

Lemma valid_inr (key : string) (allowed : list string) (v : json) (s : string) :
  Joi.valid key allowed v = inr s ↔ v = JStr s ∧ s ∈ allowed.
Proof.
  destruct v; simpl; try (split; [done | by intros [? _]]).
  case_decide; split; try done.
  - by intros [= <-].
  - by intros [[= ->] _].
  - intros [[= ->] ?]. done.
Qed.

Lemma greater_now_inr (key : string) (now d d' : Z) :
  Joi.greater_now key now d = inr d' ↔ d' = d ∧ now < d.
Proof.
  unfold Joi.greater_now. destruct (Z.ltb_spec now d); split; try done.
  - by intros [= <-].
  - by intros [-> _].
  - intros [_ ?]. lia.
Qed.

Lemma check_nil (path : string) (rules : list (bool * string)) :
  Mongoose.check path rules = [] ↔ Forall (λ r, r.1 = true) rules.
Proof.
  unfold Mongoose.check. induction rules as [|[b m] rules IH]; simpl.
  - split; [constructor | done].
  - rewrite Forall_cons. simpl. destruct b; simpl; [tauto|].
    split; [done | by intros [? _]].
Qed.

Lemma length_app (s t : string) : JS.length (s +:+ t) = (JS.length s + JS.length t)%nat.
Proof. induction s as [|c s IH]; simpl; [done|]. rewrite IH. lia. Qed.

Lemma trimStart_unfold (a : ascii) (s1 : string) :
  JS.trimStart (String a s1) =
  if Ascii.is_space a then JS.trimStart s1
  else match s1 with
       | String b s2 =>
           if JS.white2 a b then JS.trimStart s2
           else match s2 with
                | String c s3 =>
                    if JS.white3 a b c then JS.trimStart s3 else String a s1
                | EmptyString => String a s1
                end
       | EmptyString => String a s1
       end.
Proof. by destruct s1 as [|b [|c s3]]. Qed.

(** [trimStart] removes a prefix and [trimEnd] a suffix. *)
Lemma trimStart_suffix (s : string) : ∃ p, s = p +:+ JS.trimStart s.
Proof.
  assert (Hgen : ∀ n s, (String.length s ≤ n)%nat → ∃ p, s = p +:+ JS.trimStart s).
  { clear s. induction n as [|n IH]; intros s Hn.
    { destruct s; [by exists EmptyString | simpl in Hn; lia]. }
    destruct s as [|a s1]; [by exists EmptyString|].
    rewrite trimStart_unfold. simpl in Hn.
    destruct (Ascii.is_space a).
    { destruct (IH s1 ltac:(lia)) as [p Hp].
      exists (String a p). exact (f_equal (String a) Hp). }
    destruct s1 as [|b s2]; [by exists EmptyString|]. simpl in Hn.
    destruct (JS.white2 a b).
    { destruct (IH s2 ltac:(lia)) as [p Hp].
      exists (String a (String b p)). exact (f_equal (λ t, String a (String b t)) Hp). }
    destruct s2 as [|c s3]; [by exists EmptyString|]. simpl in Hn.
    destruct (JS.white3 a b c); [|by exists EmptyString].
    destruct (IH s3 ltac:(lia)) as [p Hp].
    exists (String a (String b (String c p))).
    exact (f_equal (λ t, String a (String b (String c t))) Hp). }
  by apply (Hgen (String.length s)).
Qed.

Lemma trimEnd_prefix (s : string) : ∃ t, s = JS.trimEnd s +:+ t.
Proof.
  induction s as [|c s [t IH]]; [by exists EmptyString|].
  cbn [JS.trimEnd]. destruct (JS.blank (String c s)).
  - by exists (String c s).
  - exists t. exact (f_equal (String c) IH).
Qed.

Lemma trimStart_length (s : string) : (JS.length (JS.trimStart s) ≤ JS.length s)%nat.
Proof.
  destruct (trimStart_suffix s) as [p Hp]. rewrite Hp at 2. rewrite length_app. lia.
Qed.

Lemma trimEnd_length (s : string) : (JS.length (JS.trimEnd s) ≤ JS.length s)%nat.
Proof.
  destruct (trimEnd_prefix s) as [t Ht]. rewrite Ht at 2. rewrite length_app. lia.
Qed.

Lemma trim_length (s : string) : (JS.length (JS.trim s) ≤ JS.length s)%nat.
Proof.
  unfold JS.trim. etrans; [apply trimEnd_length | apply trimStart_length].
Qed.

Section Tasks.

Context `{Libraries}.

(** What a body that passes [taskSchema] contains. *)
Lemma taskSchema_inr (now : Z) (body : gmap string json) (value : TaskValue.t) :
  taskSchema now body = inr value →
  body !! "title" = Some (JStr (TaskValue.title value))
  ∧ (JS.length (TaskValue.title value) ≤ 100)%nat
  ∧ (∀ d, TaskValue.description value = Some d → (JS.length d ≤ 500)%nat)
  ∧ (∀ s, TaskValue.status value = Some s → s ∈ Task.statuses)
  ∧ (∀ p, TaskValue.priority value = Some p → p ∈ Task.priorities)
  ∧ match body !! "dueDate" with
    | Some v => ∃ d, Joi.date Date_parse "dueDate" v = inr d ∧ now < d
                     ∧ TaskValue.dueDate value = Some d
    | None => TaskValue.dueDate value = None
    end.
Proof.
  unfold taskSchema.
  intros (title & Ht & (descr & Hd & (status & Hs & (priority & Hp & (due & Hdue
    & (_ & _ & [= <-])%bind_inr)%bind_inr)%bind_inr)%bind_inr)%bind_inr)%bind_inr.
  simpl.
  apply required_inr in Ht as (j & -> & (? & (? & [-> _]%string_inr
    & [-> _]%min_inr)%bind_inr & [-> Hlen]%max_inr)%bind_inr).
  split_and!; try done.
  - intros d ->.
    apply optional_inr in Hd as [[_ [=]] | (j & a & _ & Hr & [= <-])].
    by apply bind_inr in Hr as (? & _ & [-> ?]%max_inr).
  - intros s ->.
    apply optional_inr in Hs as [[_ [=]] | (j & a & _ & Hr & [= <-])].
    by apply valid_inr in Hr as [_ ?].
  - intros p ->.
    apply optional_inr in Hp as [[_ [=]] | (j & a & _ & Hr & [= <-])].
    by apply valid_inr in Hr as [_ ?].
  - apply optional_inr in Hdue as [[-> ->] | (j & a & -> & Hr & ->)]; [done|].
    apply bind_inr in Hr as (d & Hdate & [-> ?]%greater_now_inr). eauto.
Qed.

(** After the schema, the update validators reject a blank title only. *)
Lemma update_validators_nil (now : Z) (body : gmap string json) (value : TaskValue.t) :
  taskSchema now body = inr value →
  JS.trim (TaskValue.title value) ≠ EmptyString →
  Task.update_validators now (Task.cast_update value) = [].
Proof.
  intros (_ & Hlen & Hd & Hs & Hp & Hdue)%taskSchema_inr Hblank.
  unfold Task.update_validators, Task.cast_update. simpl.
  assert (Htitle : Task.validate_title (JS.trim (TaskValue.title value)) = []).
  { apply check_nil. repeat constructor; simpl.
    - by apply bool_decide_eq_true.
    - apply Nat.leb_le. etrans; [apply trim_length | done]. }
  assert (Hdescr : Task.validate_description (JS.trim <$> TaskValue.description value) = []).
  { destruct (TaskValue.description value) as [d|]; simpl; [|done].
    apply check_nil. repeat constructor; simpl.
    apply Nat.leb_le. etrans; [apply trim_length | by apply Hd]. }
  assert (Hstatus : Mongoose.validate_enum "status" Task.statuses (TaskValue.status value) = []).
  { destruct (TaskValue.status value) as [s|]; simpl; [|done].
    apply check_nil. repeat constructor; simpl. apply bool_decide_eq_true. by apply Hs. }
  assert (Hprio : Mongoose.validate_enum "priority" Task.priorities (TaskValue.priority value) = []).
  { destruct (TaskValue.priority value) as [p|]; simpl; [|done].
    apply check_nil. repeat constructor; simpl. apply bool_decide_eq_true. by apply Hp. }
  assert (Hdate : Task.validate_dueDate now (TaskValue.dueDate value) = []).
  { destruct (body !! "dueDate").
    - destruct Hdue as (d & _ & Hlt & ->). simpl.
      apply check_nil. repeat constructor; simpl. by apply Z.ltb_lt.
    - by rewrite Hdue. }
  by rewrite Htitle, Hdescr, Hstatus, Hprio, Hdate.
Qed.

(** Claim C10.  An update whose body has no [title] is answered with 400,
    the message that the title is required, before the task is looked up:
    whatever the other fields, the id and the store, which is left as it
    is; so it is for the request that reaches the route through the guard. *)
Theorem update_requires_title
    (st : store) (e : env) (user : User.doc) (id : string) (body : gmap string json) :
  body !! "title" = None →
  updateTask st e user id body
  = (Send (Response 400 (error_body (JS.quote "title" +:+ " is required"))), st)
  ∧ ∀ authorization token,
      auth st e authorization = Next user token →
      handle st e (UpdateTask authorization id body)
      = (Send (Response 400 (error_body (JS.quote "title" +:+ " is required"))), st).
Proof.
  intros Htitle.
  assert (Hupd : updateTask st e user id body
    = (Send (Response 400 (error_body (JS.quote "title" +:+ " is required"))), st)).
  { unfold updateTask, taskSchema. by rewrite Htitle. }
  split; [done|]. intros a token Hauth. simpl. unfold protected. by rewrite Hauth.
Qed.

(** Claim C5.  A create or update request whose [dueDate] is a date that is
    not after the time of the request is answered with 400 and a validation
    message, and the store is left as it is: no task is created and the
    task of an update is unchanged. *)
Theorem past_dueDate_rejected
    (st : store) (e : env) (user : User.doc) (id : string) (body : gmap string json)
    (v : json) (d : Z) :
  body !! "dueDate" = Some v →
  Joi.date Date_parse "dueDate" v = inr d →
  d ≤ now e →
  ∃ error,
    taskSchema (now e) body = inl error
    ∧ createTask st e user body
      = (Send (Response 400 (error_body (Joi.message error))), st)
    ∧ updateTask st e user id body
      = (Send (Response 400 (error_body (Joi.message error))), st).
Proof.
  intros Hv Hd Hpast.
  destruct (taskSchema (now e) body) as [error|value] eqn:Hschema.
  - exists error. unfold createTask, updateTask. by rewrite Hschema.
  - apply taskSchema_inr in Hschema as (_ & _ & _ & _ & _ & Hdue).
    rewrite Hv in Hdue. destruct Hdue as (d' & Hd' & Hlt & _).
    rewrite Hd in Hd'. injection Hd' as <-. lia.
Qed.

Lemma schema_validators_nil (now : Z) (b : gmap string json) (value : TaskValue.t) :
  taskSchema now b = inr value →
  Task.validate_description (JS.trim <$> TaskValue.description value) = []
  ∧ Mongoose.validate_enum "status" Task.statuses (TaskValue.status value) = []
  ∧ Mongoose.validate_enum "priority" Task.priorities (TaskValue.priority value) = []
  ∧ Mongoose.validate_enum "status" Task.statuses
      (Some (default "pending" (TaskValue.status value))) = []
  ∧ Mongoose.validate_enum "priority" Task.priorities
      (Some (default "medium" (TaskValue.priority value))) = []
  ∧ Task.validate_dueDate now (TaskValue.dueDate value) = [].
Proof.
  intros Hvalue.
  pose proof (taskSchema_inr _ _ _ Hvalue) as (_ & _ & Hd & Hs & Hp & Hdue).
  assert (Henum : ∀ path allowed v, v ∈ allowed →
            Mongoose.validate_enum path allowed (Some v) = []).
  { intros path allowed v Hin. apply check_nil. repeat constructor. simpl.
    by apply bool_decide_eq_true. }
  split_and!.
  - destruct (TaskValue.description value) as [d|]; [|done]. simpl.
    apply check_nil. repeat constructor. simpl. apply Nat.leb_le.
    etrans; [apply trim_length | by apply Hd].
  - destruct (TaskValue.status value) as [s|]; [|done]. by apply Henum, Hs.
  - destruct (TaskValue.priority value) as [p|]; [|done]. by apply Henum, Hp.
  - apply Henum. destruct (TaskValue.status value) as [s|]; simpl;
      [by apply Hs | by left].
  - apply Henum. destruct (TaskValue.priority value) as [p|]; simpl;
      [by apply Hp | by right; left].
  - destruct (b !! "dueDate") as [j|].
    + destruct Hdue as (d & _ & Hlt & ->). simpl. apply check_nil.
      repeat constructor. simpl. unfold Task.validator. by apply Z.ltb_lt.
    + by rewrite Hdue.
Qed.

End Tasks.

Section TaskOwnership.

Context `{Libraries}.

(** Claim C2, amended.  For a task stored under an id and a caller who is
    not its owner: get and delete answer 404 [Task not found]; so does an
    update whose body passes the schema with a title that is not blank.  An
    update whose body does not is rejected by the validation, before the
    lookup: with 400 and the message of the schema when the body fails the
    schema, with the validation error [Task title is required], passed to
    the error handler, when the title is white space only.  No update
    changes the store; and each of the three answers what it would answer
    if the task did not exist. *)
Theorem foreign_task_not_found
    (st : store) (e : env) (user : User.doc) (id : string) (_id : ObjectId)
    (task : Task.doc) (body : gmap string json) :
  Mongoose.castObjectId id = Some _id →
  tasks st !! _id = Some task →
  Task.owner task ≠ User._id user →
  let gone := set_tasks (delete _id (tasks st)) st in
  getTask st user id = Send not_found
  ∧ deleteTask st user id = (Send not_found, st)
  ∧ (∀ value,
       taskSchema (now e) body = inr value →
       JS.trim (TaskValue.title value) ≠ EmptyString →
       updateTask st e user id body = (Send not_found, st))
  ∧ (∀ error,
       taskSchema (now e) body = inl error →
       updateTask st e user id body
       = (Send (Response 400 (error_body (Joi.message error))), st))
  ∧ (∀ value,
       taskSchema (now e) body = inr value →
       JS.trim (TaskValue.title value) = EmptyString →
       updateTask st e user id body
       = (NextError (Mongoose.ValidationError [("title", "Task title is required")]),
          st))
  ∧ (updateTask st e user id body).2 = st
  ∧ getTask gone user id = getTask st user id
  ∧ (deleteTask gone user id).1 = (deleteTask st user id).1
  ∧ (updateTask gone e user id body).1 = (updateTask st e user id body).1.
Proof.
  intros Hid Htask Hother gone.
  assert (Hnone : Task.by_id_owner _id (User._id user) (tasks st) = None).
  { apply by_id_owner_None. intros t Ht. rewrite Htask in Ht. by injection Ht as <-. }
  assert (Hgone : Task.by_id_owner _id (User._id user) (tasks gone) = None).
  { apply by_id_owner_None. intros t. simpl. by rewrite lookup_delete_eq. }
  assert (Hget : getTask st user id = Send not_found).
  { unfold getTask. by rewrite Hid, Hnone. }
  assert (Hdel : deleteTask st user id = (Send not_found, st)).
  { unfold deleteTask, Task.findOneAndDelete. by rewrite Hid, Hnone. }
  split_and!; try done.
  - intros value Hvalue Hblank. unfold updateTask, Task.findOneAndUpdate.
    by rewrite Hvalue, Hid, (update_validators_nil _ _ _ Hvalue Hblank), Hnone.
  - intros error Herror. unfold updateTask. by rewrite Herror.
  - intros value Hvalue Hblank.
    destruct (schema_validators_nil _ _ _ Hvalue) as (Hd & Hs & Hp & _ & _ & Hdue).
    unfold updateTask, Task.findOneAndUpdate. rewrite Hvalue, Hid.
    unfold Task.update_validators, Task.cast_update.
    cbn [TaskValue.title TaskValue.description TaskValue.status TaskValue.priority
         TaskValue.dueDate].
    by rewrite Hblank, Hd, Hs, Hp, Hdue.
  - unfold updateTask, Task.findOneAndUpdate.
    destruct (taskSchema _ _); [done|]. rewrite Hid.
    destruct (Task.update_validators _ _); [|done]. by rewrite Hnone.
  - rewrite Hget. unfold getTask. by rewrite Hid, Hgone.
  - rewrite Hdel. unfold deleteTask, Task.findOneAndDelete. by rewrite Hid, Hgone.
  - unfold updateTask, Task.findOneAndUpdate.
    destruct (taskSchema _ _); [done|]. rewrite Hid.
    destruct (Task.update_validators _ _); [|done]. by rewrite Hnone, Hgone.
Qed.

(** Claim C3, as the code has it.  An update of a task of the caller, with
    a body that passes the schema and a title that is not blank, is
    answered with 200 and the updated task; the update sets the supplied
    fields and leaves [_id], [owner], [createdAt] and the fields that the
    body does not supply as they were.  It also leaves [updatedAt] as it
    was: [findOneAndUpdate] runs no save hook, so the timestamp is not
    later than before. *)
Theorem update_keeps_updatedAt
    (st : store) (e : env) (user : User.doc) (id : string) (_id : ObjectId)
    (task : Task.doc) (body : gmap string json) (value : TaskValue.t) :
  Mongoose.castObjectId id = Some _id →
  tasks st !! _id = Some task →
  Task.owner task = User._id user →
  taskSchema (now e) body = inr value →
  JS.trim (TaskValue.title value) ≠ EmptyString →
  ∃ task',
    updateTask st e user id body
    = (Send (Response 200 (JObj [("message", JStr "Task updated successfully");
                                 ("task", Task.toJSON task')])),
       set_tasks (<[_id := task']> (tasks st)) st)
    ∧ Task.updatedAt task' = Task.updatedAt task
    ∧ ¬ Task.updatedAt task < Task.updatedAt task'
    ∧ Task._id task' = Task._id task
    ∧ Task.owner task' = Task.owner task
    ∧ Task.createdAt task' = Task.createdAt task
    ∧ Task.title task' = JS.trim (TaskValue.title value)
    ∧ Task.description task'
      = from_option (Some ∘ JS.trim) (Task.description task) (TaskValue.description value)
    ∧ Task.status task' = default (Task.status task) (TaskValue.status value)
    ∧ Task.priority task' = default (Task.priority task) (TaskValue.priority value)
    ∧ Task.dueDate task'
      = from_option Some (Task.dueDate task) (TaskValue.dueDate value).
Proof.
  intros Hid Htask Hown Hvalue Hblank.
  exists (Task.apply_set (Task.cast_update value) task).
  assert (Hsome : Task.by_id_owner _id (User._id user) (tasks st) = Some task)
    by by apply by_id_owner_Some.
  split_and!; try done.
  - unfold updateTask, Task.findOneAndUpdate.
    by rewrite Hvalue, Hid, (update_validators_nil _ _ _ Hvalue Hblank), Hsome.
  - simpl. lia.
  - simpl. by destruct (TaskValue.description value).
Qed.

End TaskOwnership.

(** ** The outward form of a user *)

Lemma delete_key_absent (k : string) (o : list (string * json)) :
  ¬ has_key k (delete_key k o).
Proof.
  unfold has_key, delete_key. rewrite list_elem_of_fmap.
  intros ([k' v] & -> & [Hk _]%list_elem_of_filter). done.
Qed.

Lemma delete_key_keeps_absent (k k' : string) (o : list (string * json)) :
  ¬ has_key k o → ¬ has_key k (delete_key k' o).
Proof.
  unfold has_key, delete_key. rewrite !list_elem_of_fmap.
  intros Hno ([k0 v] & -> & [_ Hin]%list_elem_of_filter). apply Hno. by exists (k0, v).
Qed.

Lemma toJSON_hides (u : User.doc) :
  ∃ o, User.toJSON u = JObj o ∧ ¬ has_key "password" o ∧ ¬ has_key "tokens" o.
Proof.
  eexists. split; [reflexivity|]. split.
  - apply delete_key_keeps_absent, delete_key_absent.
  - apply delete_key_absent.
Qed.

Section Outward.

Context `{Libraries}.

Lemma auth_Reject (st : store) (e : env) (a : option string) (rej : response) :
  auth st e a = Reject rej → ∃ msg, rej = Response 401 (error_body msg).
Proof.
  unfold auth, invalid_token. intros Hauth.
  repeat (case_match; try done); simplify_eq; eauto.
Qed.

(** Claim C8.  Whatever the request, when the response carries a [user]
    (as the responses of register, login and me do), it is the [toJSON] form
    of a user document: an object with neither a [password] key nor a
    [tokens] key. *)
Theorem user_json_hides_credentials
    (st st' : store) (e : env) (req : request) (r : response) (user : json) :
  handle st e req = (Send r, st') →
  field "user" (body r) = Some user →
  ∃ u o, user = User.toJSON u ∧ user = JObj o
         ∧ ¬ has_key "password" o ∧ ¬ has_key "tokens" o.
Proof.
  assert (Hjson : ∀ u, ∃ u' o, User.toJSON u = User.toJSON u' ∧ User.toJSON u = JObj o
            ∧ ¬ has_key "password" o ∧ ¬ has_key "tokens" o).
  { intros u. destruct (toJSON_hides u) as (o & ? & ? & ?). by exists u, o. }
  intros Hreq Huser.
  assert (Hprot : ∀ a route,
            protected st e a route = (Send r, st') →
            ∃ u tok, route u tok = (Send r, st')).
  { intros a route. unfold protected.
    destruct (auth st e a) as [u tok|rej] eqn:Hauth; [by eauto|].
    apply auth_Reject in Hauth as [msg ->]. intros [= <- _]. done. }
  destruct req as [b|b|a|a|a q|a i|a b|a i b|a i]; simpl in Hreq;
    try (apply Hprot in Hreq as (u & tok & Hreq)).
  - unfold register in Hreq. repeat (case_match; try done); simplify_eq; try done.
    simpl in Huser. injection Huser as <-. apply Hjson.
  - unfold login in Hreq. repeat (case_match; try done); simplify_eq; try done.
    simpl in Huser. injection Huser as <-. apply Hjson.
  - unfold me in Hreq. simplify_eq. simpl in Huser. injection Huser as <-. apply Hjson.
  - unfold logout in Hreq. repeat (case_match; try done); simplify_eq; done.
  - unfold listTasks in Hreq. repeat (case_match; try done); simplify_eq; done.
  - unfold getTask in Hreq. repeat (case_match; try done); simplify_eq; done.
  - unfold createTask in Hreq. repeat (case_match; try done); simplify_eq; done.
  - unfold updateTask in Hreq. repeat (case_match; try done); simplify_eq; done.
  - unfold deleteTask in Hreq. repeat (case_match; try done); simplify_eq; done.
Qed.

End Outward.

(** Alice tries to complete her task without sending its title. *)
Lemma update_requires_title_witness :
  let body : gmap string json := {[ "status" := JStr "completed" ]} in
  body !! "title" = None
  ∧ updateTask (H := Demo.libraries) Demo.small (Demo.environment 9) Demo.alice_user
      (Demo.id 2) body
    = (Send (Response 400 (error_body (JS.quote "title" +:+ " is required"))), Demo.small).
Proof.
  intros body.
  assert (H1 : body !! "title" = None) by (vm_compute; reflexivity).
  split; [exact H1|].
  exact (proj1 (update_requires_title (H := Demo.libraries) Demo.small
                  (Demo.environment 9) Demo.alice_user (Demo.id 2) body H1)).
Defined.

(** A due date long before the time of the request. *)
Lemma past_dueDate_rejected_witness :
  let body : gmap string json := {[ "title" := JStr "late"; "dueDate" := JNum 1000 ]} in
  let e := Demo.environment 9 in
  body !! "dueDate" = Some (JNum 1000)
  ∧ Joi.date JS.parseInt "dueDate" (JNum 1000) = inr 1000
  ∧ 1000 ≤ now e
  ∧ ∃ error,
      createTask (H := Demo.libraries) Demo.small e Demo.alice_user body
      = (Send (Response 400 (error_body (Joi.message error))), Demo.small)
      ∧ updateTask (H := Demo.libraries) Demo.small e Demo.alice_user (Demo.id 2) body
        = (Send (Response 400 (error_body (Joi.message error))), Demo.small).
Proof.
  intros body e.
  assert (H1 : body !! "dueDate" = Some (JNum 1000)) by (vm_compute; reflexivity).
  assert (H2 : Joi.date JS.parseInt "dueDate" (JNum 1000) = inr 1000) by reflexivity.
  assert (H3 : 1000 ≤ now e) by (vm_compute; discriminate).
  split; [exact H1|]. split; [exact H2|]. split; [exact H3|].
  destruct (past_dueDate_rejected (H := Demo.libraries) Demo.small e Demo.alice_user
              (Demo.id 2) body (JNum 1000) 1000 H1 H2 H3) as (error & _ & Hc & Hu).
  exists error. split; [exact Hc | exact Hu].
Defined.

(** Bob reads, deletes and updates Alice's task. *)
Lemma foreign_task_not_found_witness :
  let body : gmap string json := {[ "title" := JStr "mine now" ]} in
  let e := Demo.environment 9 in
  Mongoose.castObjectId (Demo.id 2) = Some (Demo.id 2)
  ∧ tasks Demo.small !! Demo.id 2 = Some Demo.alice_task
  ∧ Task.owner Demo.alice_task ≠ User._id Demo.bob_user
  ∧ getTask Demo.small Demo.bob_user (Demo.id 2) = Send not_found
  ∧ deleteTask Demo.small Demo.bob_user (Demo.id 2) = (Send not_found, Demo.small)
  ∧ updateTask (H := Demo.libraries) Demo.small e Demo.bob_user (Demo.id 2) body
    = (Send not_found, Demo.small)
  ∧ updateTask (H := Demo.libraries) Demo.small e Demo.bob_user (Demo.id 2)
      {[ "title" := JNum 7 ]}
    = (Send (Response 400 (error_body (Joi.message (Joi.StringBase "title")))),
       Demo.small)
  ∧ updateTask (H := Demo.libraries) Demo.small e Demo.bob_user (Demo.id 2)
      (Demo.task Demo.blanks)
    = (NextError (Mongoose.ValidationError [("title", "Task title is required")]),
       Demo.small).
Proof.
  intros body e.
  assert (H1 : Mongoose.castObjectId (Demo.id 2) = Some (Demo.id 2)) by reflexivity.
  assert (H2 : tasks Demo.small !! Demo.id 2 = Some Demo.alice_task)
    by (vm_compute; reflexivity).
  assert (H3 : Task.owner Demo.alice_task ≠ User._id Demo.bob_user) by discriminate.
  split; [exact H1|]. split; [exact H2|]. split; [exact H3|].
  destruct (foreign_task_not_found (H := Demo.libraries) Demo.small e Demo.bob_user
              (Demo.id 2) (Demo.id 2) Demo.alice_task body H1 H2 H3)
    as (Hget & Hdel & Hupd & _).
  split; [exact Hget|]. split; [exact Hdel|]. split.
  { apply (Hupd (TaskValue.Make "mine now" None None None None)).
    - vm_compute. reflexivity.
    - vm_compute. discriminate. }
  destruct (foreign_task_not_found (H := Demo.libraries) Demo.small e Demo.bob_user
              (Demo.id 2) (Demo.id 2) Demo.alice_task {[ "title" := JNum 7 ]} H1 H2 H3)
    as (_ & _ & _ & Hschema & _).
  split; [apply Hschema; vm_compute; reflexivity|].
  destruct (foreign_task_not_found (H := Demo.libraries) Demo.small e Demo.bob_user
              (Demo.id 2) (Demo.id 2) Demo.alice_task (Demo.task Demo.blanks) H1 H2 H3)
    as (_ & _ & _ & _ & Hblank & _).
  apply (Hblank (TaskValue.Make Demo.blanks None None None None)).
  - vm_compute. reflexivity.
  - vm_compute. reflexivity.
Defined.

(** Alice renames her task seven seconds after she created it. *)
Lemma update_keeps_updatedAt_witness :
  let body : gmap string json := {[ "title" := JStr "rewrite" ]} in
  let e := Demo.environment 9 in
  Mongoose.castObjectId (Demo.id 2) = Some (Demo.id 2)
  ∧ tasks Demo.small !! Demo.id 2 = Some Demo.alice_task
  ∧ Task.owner Demo.alice_task = User._id Demo.alice_user
  ∧ taskSchema (H := Demo.libraries) (now e) body
    = inr (TaskValue.Make "rewrite" None None None None)
  ∧ JS.trim "rewrite" ≠ EmptyString
  ∧ Task.updatedAt Demo.alice_task < now e
  ∧ ∃ task',
      updateTask (H := Demo.libraries) Demo.small e Demo.alice_user (Demo.id 2) body
      = (Send (Response 200 (JObj [("message", JStr "Task updated successfully");
                                   ("task", Task.toJSON task')])),
         set_tasks (<[Demo.id 2 := task']> (tasks Demo.small)) Demo.small)
      ∧ Task.title task' = "rewrite"
      ∧ Task.updatedAt task' = 1002000.
Proof.
  intros body e.
  assert (H1 : Mongoose.castObjectId (Demo.id 2) = Some (Demo.id 2)) by reflexivity.
  assert (H2 : tasks Demo.small !! Demo.id 2 = Some Demo.alice_task)
    by (vm_compute; reflexivity).
  assert (H3 : Task.owner Demo.alice_task = User._id Demo.alice_user) by reflexivity.
  assert (H4 : taskSchema (H := Demo.libraries) (now e) body
               = inr (TaskValue.Make "rewrite" None None None None))
    by (vm_compute; reflexivity).
  assert (H5 : JS.trim "rewrite" ≠ EmptyString) by discriminate.
  assert (H6 : Task.updatedAt Demo.alice_task < now e) by (vm_compute; reflexivity).
  split; [exact H1|]. split; [exact H2|]. split; [exact H3|]. split; [exact H4|].
  split; [exact H5|]. split; [exact H6|].
  destruct (update_keeps_updatedAt (H := Demo.libraries) Demo.small e Demo.alice_user
              (Demo.id 2) (Demo.id 2) Demo.alice_task body _ H1 H2 H3 H4 H5)
    as (task' & Hupd & Hsame & _ & _ & _ & _ & Htitle & _).
  exists task'. split; [exact Hupd|]. split; [exact Htitle | exact Hsame].
Defined.

(** The response to Alice's registration. *)
Lemma user_json_hides_credentials_witness :
  let o := [("_id", JStr (Demo.id 0)); ("name", JStr "Alice");
            ("email", JStr "alice@example.com"); ("role", JStr "user");
            ("createdAt", JDate 1000000)] in
  let r := Response 201 (JObj [("message", JStr "User registered successfully");
                               ("user", JObj o); ("token", JStr Demo.alice_token)]) in
  handle (H := Demo.libraries) (Store ∅ ∅) (Demo.environment 0) (Register Demo.alice)
  = (Send r, Demo.registered)
  ∧ field "user" (body r) = Some (JObj o)
  ∧ ¬ has_key "password" o ∧ ¬ has_key "tokens" o.
Proof.
  intros o r.
  assert (Hreq : handle (H := Demo.libraries) (Store ∅ ∅) (Demo.environment 0)
                   (Register Demo.alice) = (Send r, Demo.registered))
    by (vm_compute; reflexivity).
  assert (Huser : field "user" (body r) = Some (JObj o)) by reflexivity.
  split; [exact Hreq|]. split; [exact Huser|].
  destruct (user_json_hides_credentials (H := Demo.libraries) _ _ _ _ _ _ Hreq Huser)
    as (u & o' & _ & Ho & Hp & Ht).
  injection Ho as <-. split; [exact Hp | exact Ht].
Defined.

(** ** Listing and pagination *)

Lemma path_createdAt (t : Task.doc) :
  Task.path "createdAt" t = Task.KDate (Task.createdAt t).
Proof. reflexivity. Qed.

Lemma ordered_createdAt_desc (a b : Task.doc) :
  Task.ordered "createdAt" (-1) a b ↔ Task.createdAt b ≤ Task.createdAt a.
Proof.
  unfold Task.ordered. rewrite decide_True by done. rewrite !path_createdAt. simpl.
  rewrite Is_true_true. apply Z.leb_le.
Qed.

Lemma StronglySorted_weaken {A} (R R' : relation A) (l : list A) :
  (∀ a b, R a b → R' a b) → StronglySorted R l → StronglySorted R' l.
Proof.
  intros Himp. induction 1 as [|x l _ IH Hall]; constructor; [done|].
  eapply Forall_impl; [exact Hall | by auto].
Qed.

Lemma sort_length (p : string) (direction : Z) (l : list Task.doc) :
  length (Task.sort p direction l) = length l.
Proof. unfold Task.sort. by rewrite merge_sort_Permutation. Qed.

Lemma sort_createdAt_desc (l : list Task.doc) :
  StronglySorted (λ a b, Task.createdAt b ≤ Task.createdAt a)
                 (Task.sort "createdAt" (-1) l).
Proof.
  assert (Htotal : Total (Task.ordered "createdAt" (-1))).
  { intros a b. rewrite !ordered_createdAt_desc. lia. }
  assert (Htrans : Transitive (Task.ordered "createdAt" (-1))).
  { intros a b c. rewrite !ordered_createdAt_desc. lia. }
  eapply StronglySorted_weaken; [|by apply StronglySorted_merge_sort].
  intros a b. by rewrite ordered_createdAt_desc.
Qed.

Lemma StronglySorted_take_drop {A} (R : relation A) (l : list A) (n m : nat) :
  StronglySorted R l → StronglySorted R (take n (drop m l)).
Proof.
  intros Hl.
  assert (Hd : StronglySorted R (drop m l)).
  { rewrite <- (take_drop m l) in Hl. by apply StronglySorted_app_1_r in Hl. }
  rewrite <- (take_drop n (drop m l)) in Hd. by apply StronglySorted_app_1_l in Hd.
Qed.

Lemma ceil_div_spec (total limit : Z) :
  0 < limit →
  (JS.ceil_div total limit - 1) * limit < total ≤ JS.ceil_div total limit * limit.
Proof.
  intros Hl. unfold JS.ceil_div.
  pose proof (Z.div_mod (- total) limit ltac:(lia)) as Hdm.
  pose proof (Z.mod_pos_bound (- total) limit Hl) as Hb.
  nia.
Qed.

(** ** The order of a listing *)

Lemma string_leb_trans (a b c : string) :
  String.leb a b = true → String.leb b c = true → String.leb a c = true.
Proof.
  unfold String.leb. revert b c.
  induction a as [|x a IH]; intros [|y b] [|z c]; simpl; try done.
  unfold Ascii.compare.
  destruct (N.compare_spec (N_of_ascii x) (N_of_ascii y)),
           (N.compare_spec (N_of_ascii y) (N_of_ascii z)),
           (N.compare_spec (N_of_ascii x) (N_of_ascii z));
    try done; try lia.
  apply IH.
Qed.

Lemma key_leb_total (a b : Task.key) :
  Task.key_leb a b = true ∨ Task.key_leb b a = true.
Proof.
  destruct a as [|x|x], b as [|y|y]; simpl; auto.
  - apply String.leb_total.
  - destruct (Z.leb_spec x y), (Z.leb_spec y x); auto. lia.
Qed.

Lemma key_leb_trans (a b c : Task.key) :
  Task.key_leb a b = true → Task.key_leb b c = true → Task.key_leb a c = true.
Proof.
  destruct a as [|x|x], b as [|y|y], c as [|z|z]; simpl; try done.
  - apply string_leb_trans.
  - rewrite !Z.leb_le. lia.
Qed.

Lemma sort_sorted (p : string) (direction : Z) (l : list Task.doc) :
  StronglySorted (Task.ordered p direction) (Task.sort p direction l).
Proof.
  assert (Htotal : Total (Task.ordered p direction)).
  { intros a b. unfold Task.ordered. case_decide; rewrite !Is_true_true;
      apply key_leb_total. }
  assert (Htrans : Transitive (Task.ordered p direction)).
  { intros a b c. unfold Task.ordered. case_decide; rewrite !Is_true_true.
    - intros ? ?. by eapply key_leb_trans.
    - apply key_leb_trans. }
  by apply StronglySorted_merge_sort.
Qed.

Lemma ordered_desc (p : string) (a b : Task.doc) :
  Task.ordered p (-1) a b ↔ Task.key_leb (Task.path p b) (Task.path p a) = true.
Proof. unfold Task.ordered. rewrite decide_True by done. apply Is_true_true. Qed.

Lemma ordered_asc (p : string) (a b : Task.doc) :
  Task.ordered p 1 a b ↔ Task.key_leb (Task.path p a) (Task.path p b) = true.
Proof. unfold Task.ordered. rewrite decide_False by done. apply Is_true_true. Qed.

Lemma sort_Permutation (p : string) (direction : Z) (l : list Task.doc) :
  Task.sort p direction l ≡ₚ l.
Proof. apply merge_sort_Permutation. Qed.

(** ** Queries and the documents of the store *)

Lemma filter_snd {K V} (f : V → bool) (P : V → Prop) `{∀ x, Decision (P x)}
    (l : list (K * V)) :
  (∀ x, f x = true ↔ P x) →
  List.filter f l.*2 = (filter (λ kv, P kv.2) l).*2.
Proof.
  intros Hf. induction l as [|[k v] l IH]; [done|].
  rewrite fmap_cons, filter_cons. simpl.
  destruct (f v) eqn:Hv.
  - rewrite decide_True by by apply Hf. rewrite fmap_cons. simpl. by rewrite IH.
  - rewrite decide_False; [done|]. rewrite <- Hf, Hv. done.
Qed.

(** [find] returns the documents of the collection that satisfy the filter,
    each once. *)
Lemma find_filter {V} (f : V → bool) (P : V → Prop) `{∀ x, Decision (P x)}
    (coll : gmap ObjectId V) :
  (∀ x, f x = true ↔ P x) →
  Mongoose.find f coll ≡ₚ (map_to_list (filter (λ kv, P kv.2) coll)).*2.
Proof.
  intros Hf. unfold Mongoose.find, Mongoose.docs.
  rewrite (filter_snd f P _ Hf). apply fmap_Permutation.
  rewrite map_filter_alt. symmetry. apply map_to_list_to_map.
  apply NoDup_fmap_fst.
  - intros k x y [_ Hx]%list_elem_of_filter [_ Hy]%list_elem_of_filter.
    apply elem_of_map_to_list in Hx, Hy. congruence.
  - apply NoDup_filter, NoDup_map_to_list.
Qed.

Lemma countDocuments_size {V} (f : V → bool) (P : V → Prop) `{∀ x, Decision (P x)}
    (coll : gmap ObjectId V) :
  (∀ x, f x = true ↔ P x) →
  Mongoose.countDocuments f coll = size (filter (λ kv, P kv.2) coll).
Proof.
  intros Hf. unfold Mongoose.countDocuments.
  rewrite (find_filter f P coll Hf), length_fmap. apply length_map_to_list.
Qed.

Lemma number_safe (z : Z) : Z.abs z < 2 ^ 53 → JS.number z = Some z.
Proof.
  intros Hz. unfold JS.number, JS.double.
  destruct (Z.ltb_spec (Z.abs z) (2 ^ 53)) as [_|?]; [|lia].
  assert (H1024 : 2 ^ 53 < 2 ^ 1024) by (apply Z.pow_lt_mono_r; lia).
  destruct (Z.ltb_spec (Z.abs z) (2 ^ 1024)); [done | lia].
Qed.

Section Listing.

Context `{Libraries}.

Lemma list_query_listed (user : User.doc) (q : Query.t) (t : Task.doc) :
  list_query user q t = true ↔ listed user q t.
Proof.
  assert (Hfilter : ∀ (v : Task.doc → string) (o : option string),
            from_option (λ s, bool_decide (v t = s)) true (truthy o) = true
            ↔ ∀ s, o = Some s → s ≠ EmptyString → v t = s).
  { intros v [s|]; simpl; [|split; [by intros _ ? [=] | done]].
    case_decide as Hs; simpl.
    - split; [|done]. intros _ ? [= <-]. done.
    - rewrite bool_decide_eq_true. split; [by intros ? ? [= <-] | intros Hall; by apply Hall]. }
  unfold list_query, listed.
  rewrite !andb_true_iff, bool_decide_eq_true, !Hfilter. tauto.
Qed.

(** Claim C7.  Take a query whose page number and limit are at least 1 and,
    with the offset [(page - 1) * limit], below 2^53, and whose sort field,
    when it names one, is a path of the schema.  The list route answers 200
    with a page of the matching tasks: the tasks of the store that the
    caller owns and that have the status and the priority of the query,
    each once, in the order of the sort, of which the page has the [limit]
    tasks after the first [(page - 1) * limit]; [total] is the number of the
    matching tasks before pagination and [pages] is the ceiling of
    [total / limit].  Without [page], [limit], [sortBy] and [sortOrder] the
    page is 1, the limit 10 and the tasks are in descending order of
    creation time.  For a caller who owns exactly 15 tasks, page 2 with
    limit 10 and no filter has 5 tasks, total 15 and 2 pages. *)
Theorem list_pagination
    (st : store) (user : User.doc) (q : Query.t) (page limit : Z) :
  param 1 (Query.page q) = Some page →
  param 10 (Query.limit q) = Some limit →
  1 ≤ page →
  1 ≤ limit < 2 ^ 53 →
  (page - 1) * limit < 2 ^ 53 →
  default "createdAt" (Query.sortBy q) ∈ Task.paths →
  let matching := filter (λ kv : ObjectId * Task.doc, listed user q kv.2) (tasks st) in
  let total := size matching in
  let sortBy := default "createdAt" (Query.sortBy q) in
  let count := JS.ceil_div (Z.of_nat total) limit in
  ∃ sorted,
    let found := take (Z.to_nat limit) (drop (Z.to_nat ((page - 1) * limit)) sorted) in
    listTasks st user q
    = Send (Response 200
        (JObj [("tasks", JArr (Task.toJSON <$> found));
               ("pagination",
                JObj [("page", JNum page); ("limit", JNum limit);
                      ("total", JNum (Z.of_nat total)); ("pages", JNum count)])]))
    ∧ sorted ≡ₚ (map_to_list matching).*2
    ∧ StronglySorted
        (λ a b, if decide (default "desc" (Query.sortOrder q) = "desc")
                then Task.key_leb (Task.path sortBy b) (Task.path sortBy a) = true
                else Task.key_leb (Task.path sortBy a) (Task.path sortBy b) = true)
        sorted
    ∧ length found = (Z.to_nat limit `min` (total - Z.to_nat ((page - 1) * limit)))%nat
    ∧ (count - 1) * limit < Z.of_nat total ≤ count * limit
    ∧ (Query.page q = None → page = 1)
    ∧ (Query.limit q = None → limit = 10)
    ∧ (Query.sortBy q = None → Query.sortOrder q = None →
       StronglySorted (λ a b, Task.createdAt b ≤ Task.createdAt a) found)
    ∧ (Query.status q = None → Query.priority q = None →
       size (filter (λ kv : ObjectId * Task.doc, Task.owner kv.2 = User._id user)
                    (tasks st)) = 15%nat →
       page = 2 → limit = 10 →
       length found = 5%nat ∧ total = 15%nat ∧ count = 2).
Proof.
  intros Hpage Hlimit Hp [Hl Hsafe] Hskip Hfield matching total sortBy count.
  set (direction := if decide (default "desc" (Query.sortOrder q) = "desc")
                    then -1 else 1).
  set (sorted := Task.sort sortBy direction
                   (Mongoose.find (list_query user q) (tasks st))).
  exists sorted. intros found.
  assert (Hperm : sorted ≡ₚ (map_to_list matching).*2).
  { unfold sorted. rewrite sort_Permutation.
    apply (find_filter _ (listed user q)), list_query_listed. }
  assert (Htotal : Mongoose.countDocuments (list_query user q) (tasks st) = total).
  { apply (countDocuments_size _ (listed user q)), list_query_listed. }
  assert (Hsorted : length sorted = total).
  { rewrite Hperm, length_fmap. apply length_map_to_list. }
  assert (Hlen : length found
                 = (Z.to_nat limit `min` (total - Z.to_nat ((page - 1) * limit)))%nat).
  { unfold found. by rewrite length_take, length_drop, Hsorted. }
  assert (H63 : 2 ^ 53 < 2 ^ 63) by (apply Z.pow_lt_mono_r; lia).
  assert (Hempty : EmptyString ∉ Task.paths)
    by (apply (bool_decide_unpack _); vm_compute; exact I).
  split_and!.
  - unfold listTasks. rewrite Hpage, Hlimit. simpl.
    rewrite (number_safe (page - 1)) by nia. simpl.
    rewrite (number_safe ((page - 1) * limit)) by (rewrite Z.abs_eq; nia).
    unfold find_sort_limit_skip.
    rewrite decide_False by (by intros Heq; apply Hempty; rewrite <- Heq).
    destruct (Z.ltb_spec ((page - 1) * limit) 0) as [Hneg|_]; [nia|].
    destruct (Z.leb_spec (2 ^ 63) ((page - 1) * limit)); [lia|].
    destruct (Z.leb_spec (2 ^ 63) (Z.abs limit)); [lia|]. simpl.
    destruct (Z.eqb_spec limit 0) as [->|_]; [lia|].
    rewrite Z.abs_eq by lia. unfold pages. simpl.
    destruct (Z.eqb_spec limit 0) as [->|_]; [lia|]. by rewrite Htotal.
  - done.
  - unfold sorted. eapply StronglySorted_weaken; [|apply sort_sorted].
    intros a b Hab. unfold direction in Hab.
    destruct (decide (default "desc" (Query.sortOrder q) = "desc")).
    + exact (proj1 (ordered_desc _ _ _) Hab).
    + exact (proj1 (ordered_asc _ _ _) Hab).
  - done.
  - apply ceil_div_spec. lia.
  - apply ceil_div_spec. lia.
  - intros Hnone. rewrite Hnone in Hpage. by injection Hpage as <-.
  - intros Hnone. rewrite Hnone in Hlimit. by injection Hlimit as <-.
  - intros Hby Horder. unfold found, sorted, sortBy, direction. rewrite Hby, Horder. simpl.
    apply StronglySorted_take_drop, sort_createdAt_desc.
  - intros Hstatus Hprio Hfifteen -> ->.
    assert (Hfif : total = 15%nat).
    { rewrite <- Hfifteen. unfold total, matching. f_equal.
      apply map_filter_ext. intros i t _. unfold listed. simpl.
      rewrite Hstatus, Hprio.
      split; [by intros [? _] | intros ?; split_and!; [done | by intros ? [=] ..]]. }
    split_and!; [|done|].
    + rewrite Hlen, Hfif. reflexivity.
    + unfold count. rewrite Hfif. reflexivity.
Qed.

End Listing.

(** The second page of Alice's fifteen tasks. *)
Lemma list_pagination_witness :
  let q := Query.Make None None None None (Some "2") (Some "10") in
  param 1 (Query.page q) = Some 2
  ∧ param 10 (Query.limit q) = Some 10
  ∧ default "createdAt" (Query.sortBy q) ∈ Task.paths
  ∧ size (filter (λ kv : ObjectId * Task.doc,
                    Task.owner kv.2 = User._id Demo.alice_user) (tasks Demo.busy))
    = 15%nat
  ∧ ∃ found,
      listTasks Demo.busy Demo.alice_user q
      = Send (Response 200
          (JObj [("tasks", JArr (Task.toJSON <$> found));
                 ("pagination",
                  JObj [("page", JNum 2); ("limit", JNum 10);
                        ("total", JNum 15); ("pages", JNum 2)])]))
      ∧ length found = 5%nat.
Proof.
  intros q.
  assert (H1 : param 1 (Query.page q) = Some 2) by (vm_compute; reflexivity).
  assert (H2 : param 10 (Query.limit q) = Some 10) by (vm_compute; reflexivity).
  assert (H3 : default "createdAt" (Query.sortBy q) ∈ Task.paths)
    by (apply (bool_decide_unpack _); vm_compute; exact I).
  assert (H4 : size (filter (λ kv : ObjectId * Task.doc,
                               Task.owner kv.2 = User._id Demo.alice_user)
                            (tasks Demo.busy)) = 15%nat) by (vm_compute; reflexivity).
  assert (H5 : 1 ≤ 10 < 2 ^ 53) by (split; [lia | reflexivity]).
  assert (H6 : (2 - 1) * 10 < 2 ^ 53) by reflexivity.
  split; [exact H1|]. split; [exact H2|]. split; [exact H3|]. split; [exact H4|].
  destruct (list_pagination Demo.busy Demo.alice_user q 2 10 H1 H2 ltac:(lia) H5 H6 H3)
    as (sorted & Hall).
  cbv zeta in Hall.
  destruct Hall as (Hlist & _ & _ & _ & _ & _ & _ & _ & Hfifteen).
  destruct (Hfifteen eq_refl eq_refl H4 eq_refl eq_refl) as (Hfive & Htotal & Hcount).
  rewrite Hcount, Htotal in Hlist.
  eexists. split; [exact Hlist | exact Hfive].
Defined.

(** Claim C2 as it is stated, for every update, does not hold: Bob's update
    of Alice's task with a body that has no [title] is answered 400, not
    404. *)
Lemma foreign_update_without_title_is_400 :
  ¬ ∀ (L : Libraries) (st : store) (e : env) (user : User.doc) (id : string)
      (_id : ObjectId) (task : Task.doc) (body : gmap string json),
      Mongoose.castObjectId id = Some _id →
      tasks st !! _id = Some task →
      Task.owner task ≠ User._id user →
      (updateTask st e user id body).1 = Send not_found.
Proof.
  intros Hclaim.
  assert (H400 : (updateTask (H := Demo.libraries) Demo.small (Demo.environment 9)
                    Demo.bob_user (Demo.id 2) {[ "status" := JStr "completed" ]}).1
                 = Send (Response 400 (error_body (JS.quote "title" +:+ " is required"))))
    by (vm_compute; reflexivity).
  rewrite (Hclaim Demo.libraries Demo.small (Demo.environment 9) Demo.bob_user
             (Demo.id 2) (Demo.id 2) Demo.alice_task {[ "status" := JStr "completed" ]})
    in H400.
  - discriminate H400.
  - reflexivity.
  - vm_compute. reflexivity.
  - discriminate.
Qed.


(** * Further properties of the code *)

(** ** The guard *)

Section GuardMore.

Context `{Libraries}.

Lemma auth_Next (st : store) (e : env) (h : string) (user : User.doc) (token : string) :
  auth st e (Some h) = Next user token ↔
  token = JS.replace "Bearer " EmptyString h
  ∧ token ≠ EmptyString
  ∧ ∃ payload stored,
      jwt_decode token = Some payload
      ∧ Jwt.clock (now e) < Jwt.exp payload
      ∧ users st !! Jwt._id payload = Some stored
      ∧ token ∈ User.tokens stored
      ∧ user = User.set_password None stored.
Proof.
  rewrite auth_header.
  destruct (JS.replace "Bearer " EmptyString h) as [|c t] eqn:Hr.
  { split; [done|]. intros (-> & ? & _). done. }
  cbv zeta.
  destruct (jwt_verify (String c t) (now e)) as [p|] eqn:Hv.
  - apply jwt_verify_Some in Hv as (_ & Hd & Hlt).
    unfold User_findOne_id_token.
    destruct (users st !! Jwt._id p) as [s|] eqn:Hs; simpl.
    + case_decide as Hin.
      * split.
        -- intros [= <- <-]. split_and!; try done. by exists p, s.
        -- intros (-> & _ & p' & s' & Hd' & _ & Hs' & _ & ->).
           rewrite Hd in Hd'. injection Hd' as <-.
           rewrite Hs in Hs'. by injection Hs' as <-.
      * split; [done|].
        intros (-> & _ & p' & s' & Hd' & _ & Hs' & Hin' & _).
        rewrite Hd in Hd'. injection Hd' as <-.
        rewrite Hs in Hs'. injection Hs' as <-. done.
    + split; [done|].
      intros (-> & _ & p' & s' & Hd' & _ & Hs' & _).
      rewrite Hd in Hd'. injection Hd' as <-. by rewrite Hs in Hs'.
  - split; [done|].
    intros (-> & Hne & p' & s' & Hd' & Hlt & _).
    assert (Hsome : jwt_verify (String c t) (now e) = Some p')
      by by apply jwt_verify_Some.
    by rewrite Hv in Hsome.
Qed.

Lemma prefix_split (p h : string) :
  String.prefix p h = true → h = p +:+ JS.drop (String.length p) h.
Proof.
  revert h. induction p as [|c p IH]; intros h; [done|].
  destruct h as [|a h]; [done|]. simpl.
  destruct (ascii_dec c a) as [<-|]; [|done].
  intros Hp. change (String c h = String c (p +:+ JS.drop (String.length p) h)).
  f_equal. by apply IH.
Qed.

Lemma replace_bearer_empty (h : string) :
  JS.replace "Bearer " EmptyString h = EmptyString ↔ h = EmptyString ∨ h = "Bearer ".
Proof.
  split.
  - rewrite replace_eq. destruct (String.prefix "Bearer " h) eqn:Hp.
    + intros Hd. right. rewrite (prefix_split _ _ Hp).
      change (JS.drop (String.length "Bearer ") h = EmptyString) in Hd.
      by rewrite Hd.
    + destruct h; [by left | done].
  - by intros [-> | ->].
Qed.

Lemma auth_no_token (st : store) (e : env) (a : option string) :
  auth st e a = Reject (Response 401 (error_body "No token, authorization denied"))
  ↔ a = None ∨ a = Some EmptyString ∨ a = Some "Bearer ".
Proof.
  destruct a as [h|]; [|split; [by left | done]].
  rewrite auth_header.
  destruct (JS.replace "Bearer " EmptyString h) as [|c t] eqn:Hr.
  - apply replace_bearer_empty in Hr as [-> | ->]; split; auto.
  - cbv zeta. split.
    + unfold invalid_token. repeat case_match; done.
    + intros [? | [[= ->] | [= ->]]]; done.
Qed.

(** Property X1.  The three answers of the guard.  It answers [No token] exactly when the
    header is absent, empty or the bare prefix [Bearer ].  It lets the
    request through exactly when the header, less the first [Bearer ], is a
    token that decodes, has not reached its expiry and is among the sessions
    of the stored user that its payload names; the request then carries that
    user, without the password, and the token.  In every other case it
    answers 401 [Token is not valid]. *)
Theorem guard_outcomes (st : store) (e : env) (a : option string) :
  (auth st e a = Reject (Response 401 (error_body "No token, authorization denied"))
   ↔ a = None ∨ a = Some EmptyString ∨ a = Some "Bearer ")
  ∧ (∀ user token,
       auth st e a = Next user token ↔
       ∃ h payload stored,
         a = Some h
         ∧ token = JS.replace "Bearer " EmptyString h
         ∧ token ≠ EmptyString
         ∧ jwt_decode token = Some payload
         ∧ Jwt.clock (now e) < Jwt.exp payload
         ∧ users st !! Jwt._id payload = Some stored
         ∧ token ∈ User.tokens stored
         ∧ user = User.set_password None stored)
  ∧ (auth st e a = Reject (Response 401 (error_body "No token, authorization denied"))
     ∨ auth st e a = invalid_token
     ∨ ∃ user token, auth st e a = Next user token).
Proof.
  split; [apply auth_no_token|]. split.
  - intros user token. destruct a as [h|].
    + rewrite auth_Next. split.
      * intros (? & ? & p & s & ?). exists h, p, s. tauto.
      * intros (h' & p & s & [= <-] & ? & ? & ?). split_and!; try done. by exists p, s.
    + split; [done|]. by intros (h & ? & ? & ? & _).
  - unfold auth, invalid_token. repeat case_match; eauto.
Qed.

End GuardMore.
(** ** Sessions *)

Section Sessions.

Context `{Libraries}.

(** What a request does to a stored user: nothing but a change of the
    sessions, which are kept, extended by one token, the one of the
    response, or (on a logout) cleared of the token of the request. *)
Lemma handle_user_step (st : store) (e : env) (req : request) (id : ObjectId)
    (u : User.doc) :
  consistent st →
  users st !! id = Some u →
  ∃ tokens,
    users (handle st e req).2 !! id = Some (User.set_tokens tokens u)
    ∧ (tokens = User.tokens u
       ∨ (∃ t, tokens = User.tokens u ++ [t] ∧ issues (handle st e req).1 t)
       ∨ (∃ h, req = Logout (Some h)
               ∧ tokens = filter (λ t, t ≠ JS.replace "Bearer " EmptyString h)
                                 (User.tokens u))).
Proof.
  intros Hst Hu.
  assert (Hsame : ∀ out, ∃ tokens, users st !! id = Some (User.set_tokens tokens u)
            ∧ (tokens = User.tokens u
               ∨ (∃ t, tokens = User.tokens u ++ [t] ∧ issues out t)
               ∨ (∃ h, req = Logout (Some h)
                       ∧ tokens = filter (λ t, t ≠ JS.replace "Bearer " EmptyString h)
                                         (User.tokens u)))).
  { intros out. exists (User.tokens u). split; [|by left]. rewrite Hu. by destruct u. }
  assert (Hcreate : ∀ user body, users (createTask st e user body).2 = users st).
  { intros. unfold createTask. destruct (taskSchema _ _); [done|].
    by destruct (Task.save _ _ _) as [|[]]. }
  assert (Hupdate : ∀ user i body, users (updateTask st e user i body).2 = users st).
  { intros. unfold updateTask. destruct (taskSchema _ _); [done|].
    destruct (Mongoose.castObjectId _); [|done].
    by destruct (Task.findOneAndUpdate _ _ _ _ _) as [|[[] ?]]. }
  assert (Hdelete : ∀ user i, users (deleteTask st user i).2 = users st).
  { intros. unfold deleteTask. destruct (Mongoose.castObjectId _); [|done].
    by destruct (Task.findOneAndDelete _ _ _) as [[] ?]. }
  destruct req as [b|b|a|a|a q|a i|a b|a i b|a i]; simpl;
    try (unfold protected; destruct (auth st e a) as [usr tok|] eqn:Hauth;
         [|apply Hsame]);
    simpl; rewrite ?Hcreate, ?Hupdate, ?Hdelete; try apply Hsame.
  - (* register *)
    unfold register.
    destruct (registerSchema b) as [|[[name email] password]]; [apply Hsame|].
    destruct (User_findOne_email _ _); [apply Hsame|].
    destruct (User_insert _ _ _) as [|[user coll]] eqn:Hins; [apply Hsame|].
    apply User_insert_inr in Hins as (-> & Hnone & _ & _ & ->). simpl in Hnone.
    assert (Hne : oid e ≠ id).
    { intros Heq. rewrite Heq in Hnone. by rewrite Hnone in Hu. }
    unfold generateAuthToken.
    destruct (User_save _ _ _) as [|coll'] eqn:Hsave; simpl.
    + rewrite lookup_insert_ne by done. apply Hsame.
    + apply User_save_inr in Hsave as (_ & stored & _ & ->). simpl.
      rewrite !lookup_insert_ne by done. apply Hsame.
  - (* login *)
    unfold login.
    destruct (loginSchema b) as [|[email password]]; [apply Hsame|].
    destruct (User_findOne_email_password _ _) as [user|] eqn:Hfind; [|apply Hsame].
    destruct (comparePassword _ _) as [|[]]; try apply Hsame.
    unfold generateAuthToken.
    destruct (User_save _ _ _) as [|coll'] eqn:Hsave; simpl; [apply Hsame|].
    apply User_save_inr in Hsave as (_ & stored & Hs & ->). simpl in *.
    apply findOne_Some in Hfind as (_ & k & Hk).
    rewrite <- (user_key _ Hst _ _ Hk) in Hk. rewrite Hk in Hs. injection Hs as <-.
    rewrite lookup_insert. case_decide as Hid; [|apply Hsame].
    subst id. rewrite Hu in Hk. injection Hk as <-.
    eexists. split; [done|]. right. left. eexists. split; [done|].
    eexists. split; [done|]. reflexivity.
  - (* logout *)
    destruct a as [h|]; [|done].
    apply auth_Next in Hauth as (-> & _ & p & s & _ & _ & Hs & _ & ->).
    pose proof (user_key _ Hst _ _ Hs) as Hkey.
    unfold logout.
    destruct (User_save _ _ _) as [|coll'] eqn:Hsave; simpl; [apply Hsame|].
    apply User_save_inr in Hsave as (_ & stored & Hs' & ->). simpl in *.
    rewrite Hkey, Hs in Hs'. injection Hs' as <-.
    rewrite Hkey, lookup_insert. case_decide as Hid; [|apply Hsame].
    subst id. rewrite Hu in Hs. injection Hs as <-.
    eexists. split; [done|]. right. right. eauto.
Qed.

End Sessions.

(** ** Sessions after a logout *)

Section SessionClaims.

Context `{Libraries}.

(** A token that is absent from the sessions of a user stays absent as long
    as no response hands it out. *)
Lemma later_without_revoked (st st' : store) (token : string) (id : ObjectId) :
  consistent st →
  later_without token st st' →
  (∃ u, users st !! id = Some u ∧ token ∉ User.tokens u) →
  ∃ u', users st' !! id = Some u' ∧ token ∉ User.tokens u'.
Proof.
  intros Hst Hlater Hu.
  assert (Hboth : consistent st'
                  ∧ ∃ u', users st' !! id = Some u' ∧ token ∉ User.tokens u').
  { induction Hlater as [|st' e req Hlater [Hst' (u' & Hu' & Hno)] Hissue]; [done|].
    split; [by apply consistent_handle|].
    destruct (handle_user_step st' e req id u' Hst' Hu') as (tokens & Hstep & Htokens).
    eexists. split; [exact Hstep|]. simpl.
    destruct Htokens as [-> | [(t & -> & Ht) | (h & _ & ->)]]; [done | |].
    - rewrite elem_of_app, list_elem_of_singleton. intros [? | ->]; [done|].
      by apply Hissue.
    - rewrite list_elem_of_filter. tauto. }
  apply Hboth.
Qed.

(** Claim C1, amended.  Take a token that [generateAuthToken] returns for a
    stored user, and that the library decodes to the payload it has just
    signed.  At the time of issuance the guard resolves it to that user.  A
    logout request with the token, in any store where the guard still
    accepts it, is answered 200 and removes it from the sessions of the
    user; from then on the guard rejects the token with 401, at every time,
    in the store that the logout leaves and in every store that follows it
    by requests none of which is answered with this token again.  The guard
    also rejects it in every store where it is not among the sessions of
    that user, whether or not its expiry has passed. *)
Theorem issued_token_valid_until_logout
    (st : store) (e : env) (this this' : User.doc) (token : string)
    (coll' : gmap ObjectId User.doc) :
  users st !! User._id this = Some this →
  generateAuthToken e this (users st) = inr (token, this', coll') →
  jwt_decode token =
    Some (Jwt.Payload (User._id this) (User.email this) (User.role this)
            (Jwt.clock (now e)) (Jwt.clock (now e) + Jwt.seven_days)) →
  let header := Some ("Bearer " +:+ token) in
  (∃ user, auth (set_users coll' st) e header = Next user token
           ∧ User._id user = User._id this)
  ∧ (∀ st2 e2 user,
       consistent st2 →
       auth st2 e2 header = Next user token →
       ∃ st3,
         handle st2 e2 (Logout header) =
           (Send (Response 200 (JObj [("message", JStr "Logged out successfully")])),
            st3)
         ∧ (∀ u, users st3 !! User._id this = Some u → token ∉ User.tokens u)
         ∧ ∀ st4 e4, later_without token st3 st4 → auth st4 e4 header = invalid_token)
  ∧ (∀ st4 e4,
       (∀ u, users st4 !! User._id this = Some u → token ∉ User.tokens u) →
       auth st4 e4 header = invalid_token).
Proof.
  intros Hthis Hgen Hdec header.
  unfold generateAuthToken in Hgen.
  destruct (User_save _ _ _) as [|coll1] eqn:Hsave; [done|].
  injection Hgen as Htok <- <-.
  apply User_save_inr in Hsave as (Hall & stored & Hstored & ->).
  simpl in Hall, Hstored. rewrite Hthis in Hstored. injection Hstored as <-.
  assert (Hne : token ≠ EmptyString).
  { rewrite Forall_app, Forall_singleton in Hall. rewrite <- Htok. apply Hall. }
  assert (Hid : ∀ p, jwt_decode token = Some p → Jwt._id p = User._id this).
  { intros p Hp. rewrite Hdec in Hp. by injection Hp as <-. }
  split_and!.
  - eexists. unfold header. rewrite auth_bearer by done.
    assert (Hv : jwt_verify token (now e) = Some
              (Jwt.Payload (User._id this) (User.email this) (User.role this)
                 (Jwt.clock (now e)) (Jwt.clock (now e) + Jwt.seven_days))).
    { apply jwt_verify_Some. split_and!; try done. simpl. unfold Jwt.seven_days. lia. }
    rewrite Hv. unfold User_findOne_id_token. simpl.
    rewrite lookup_insert_eq. simpl.
    rewrite decide_True by (rewrite <- Htok; set_solver). done.
  - intros st2 e2 user Hst2 Hauth.
    assert (Hroute : handle st2 e2 (Logout header) = logout st2 e2 user token).
    { simpl. unfold protected. by rewrite Hauth. }
    pose proof (consistent_handle st2 e2 (Logout header) Hst2) as Hst3.
    rewrite Hroute in Hst3 |- *. clear Hroute. unfold header in Hauth.
    rewrite auth_bearer in Hauth by done.
    destruct (jwt_verify token (now e2)) as [p|] eqn:Hv; [|done].
    apply jwt_verify_Some in Hv as (_ & Hp & _). rewrite (Hid _ Hp) in Hauth.
    unfold User_findOne_id_token in Hauth.
    destruct (users st2 !! User._id this) as [u|] eqn:Hu; simpl in Hauth; [|done].
    case_decide as Hmem; [|done]. injection Hauth as <-.
    pose proof (user_key _ Hst2 _ _ Hu) as Hkey.
    pose proof (user_tokens _ Hst2 _ _ Hu) as Hutok.
    unfold logout in Hst3 |- *.
    destruct (User_save e2 _ (users st2)) as [err|coll3] eqn:Hsave.
    + exfalso.
      assert (Hok : ∃ c, User_save e2
                 (User.set_tokens (filter (λ tokenObj, tokenObj ≠ token)
                    (User.tokens (User.set_password None u))) (User.set_password None u))
                 (users st2) = inr c).
      { eexists. apply User_save_inr. simpl. split.
        - rewrite Forall_forall in Hutok. apply Forall_forall.
          intros t Ht. apply list_elem_of_filter in Ht as [_ Ht]. by apply Hutok.
        - rewrite Hkey. eauto. }
      destruct Hok as [c Hc]. by rewrite Hc in Hsave.
    + apply User_save_inr in Hsave as (_ & stored & Hs & ->).
      simpl in Hs. rewrite Hkey, Hu in Hs. injection Hs as <-.
      eexists. split; [done|].
      assert (Hgone : ∀ u', <[User._id u := User.set_tokens
                  (filter (λ tokenObj, tokenObj ≠ token) (User.tokens u)) u]>
                  (users st2) !! User._id this = Some u' → token ∉ User.tokens u').
      { intros u'. rewrite Hkey, lookup_insert_eq. intros [= <-]. simpl.
        rewrite list_elem_of_filter. tauto. }
      split; [exact Hgone|].
      intros st4 e4 Hlater.
      destruct (later_without_revoked _ _ token (User._id this) Hst3 Hlater)
        as (u' & Hu' & Hno).
      { exists (User.set_tokens (filter (λ tokenObj, tokenObj ≠ token) (User.tokens u)) u).
        split; [simpl; rewrite Hkey; apply lookup_insert_eq|].
        simpl. rewrite list_elem_of_filter. tauto. }
      apply auth_revoked with (id := User._id this); [done..|].
      intros u'' Hu''. rewrite Hu' in Hu''. by injection Hu'' as <-.
  - intros st4 e4 Hrev. by apply auth_revoked with (id := User._id this).
Qed.

End SessionClaims.

(** Alice logs in a second time, uses the new token, logs out with it and is
    then rejected. *)
Lemma issued_token_valid_until_logout_witness :
  let e := Demo.environment 5 in
  let this' := User.set_tokens [Demo.alice_token; Demo.second_token] Demo.alice_doc in
  let coll' := <[Demo.id 0 := this']> (users Demo.small) in
  let st1 := set_users coll' Demo.small in
  let header := Demo.bearer Demo.second_token in
  consistent Demo.small
  ∧ users Demo.small !! Demo.id 0 = Some Demo.alice_doc
  ∧ generateAuthToken (H := Demo.libraries) e Demo.alice_doc (users Demo.small)
    = inr (Demo.second_token, this', coll')
  ∧ ∃ user st3,
      auth (H := Demo.libraries) st1 e header = Next user Demo.second_token
      ∧ User._id user = Demo.id 0
      ∧ handle (H := Demo.libraries) st1 e (Logout header)
        = (Send (Response 200 (JObj [("message", JStr "Logged out successfully")])), st3)
      ∧ auth (H := Demo.libraries) st3 (Demo.environment 6) header = invalid_token.
Proof.
  intros e this' coll' st1 header.
  assert (H1 : consistent Demo.small) by apply demo_run_consistent.
  assert (H2 : users Demo.small !! Demo.id 0 = Some Demo.alice_doc) by by vm_compute.
  assert (H3 : generateAuthToken (H := Demo.libraries) e Demo.alice_doc (users Demo.small)
               = inr (Demo.second_token, this', coll')) by (vm_compute; reflexivity).
  split; [exact H1|]. split; [exact H2|]. split; [exact H3|].
  destruct (issued_token_valid_until_logout (H := Demo.libraries) Demo.small e
              Demo.alice_doc this' Demo.second_token coll' H2 H3 eq_refl)
    as ((user & Hauth & Hid) & Hlogout & _).
  destruct (Hlogout st1 e user
              (consistent_generateAuthToken (H := Demo.libraries) _ _ _ _ _ _ H1 H3) Hauth)
    as (st3 & Hout & _ & Hrejected).
  exists user, st3. split; [exact Hauth|]. split; [exact Hid|]. split; [exact Hout|].
  apply Hrejected. constructor.
Defined.

(** Claim C1 as it is stated, for every check after the logout, does not
    hold: the token is signed from the user and the second of the clock, so
    a login of the same user in the second in which the token was issued
    returns the same token, and the guard accepts it again.  Alice registers,
    logs out and logs in within one second. *)
Lemma logged_out_token_reissued_in_same_second :
  ¬ ∀ (L : Libraries) (st2 st4 : store) (e2 e4 : env) (token : string)
      (user : User.doc),
      consistent st2 →
      auth st2 e2 (Some ("Bearer " +:+ token)) = Next user token →
      later (handle st2 e2 (Logout (Some ("Bearer " +:+ token)))).2 st4 →
      auth st4 e4 (Some ("Bearer " +:+ token)) = invalid_token.
Proof.
  intros Hclaim.
  pose (e2 := Env 1000300 (Demo.id 1) "salt").
  pose (e3 := Env 1000600 (Demo.id 2) "salt").
  pose (e4 := Env 1000900 (Demo.id 3) "salt").
  pose (st3 := (handle (H := Demo.libraries) Demo.registered e2
                  (Logout (Demo.bearer Demo.alice_token))).2).
  pose (st4 := (handle (H := Demo.libraries) st3 e3 (Login Demo.alice_login)).2).
  assert (Hout : auth (H := Demo.libraries) st3 e3 (Demo.bearer Demo.alice_token)
                 = invalid_token) by (vm_compute; reflexivity).
  assert (Hsame : issues (handle (H := Demo.libraries) st3 e3 (Login Demo.alice_login)).1
                    Demo.alice_token).
  { eexists. split; [vm_compute; reflexivity | reflexivity]. }
  assert (Hin : auth (H := Demo.libraries) st4 e4 (Demo.bearer Demo.alice_token)
                = Next Demo.alice_user Demo.alice_token) by (vm_compute; reflexivity).
  unfold Demo.bearer in Hin.
  rewrite (Hclaim Demo.libraries Demo.registered st4 e2 e4 Demo.alice_token
             Demo.alice_user) in Hin.
  - discriminate Hin.
  - apply (consistent_handle (H := Demo.libraries) (Store ∅ ∅) (Demo.environment 0)
             (Register Demo.alice)), consistent_empty.
  - vm_compute. reflexivity.
  - exact (later_step (H := Demo.libraries) _ st3 e3 (Login Demo.alice_login)
             (later_refl _)).
Qed.

Section SessionLife.

Context `{Libraries}.

(** Property X2.  A session outlives every request but its own logout: when the guard
    accepts a token, it accepts it after any request, as the same user, unless
    the request is a logout that presents this very token. *)
Theorem session_survives_other_requests
    (st : store) (e e' : env) (req : request) (token : string) (user : User.doc) :
  consistent st →
  auth st e' (Some ("Bearer " +:+ token)) = Next user token →
  (∀ h, req = Logout (Some h) → JS.replace "Bearer " EmptyString h ≠ token) →
  ∃ user',
    auth (handle st e req).2 e' (Some ("Bearer " +:+ token)) = Next user' token
    ∧ User._id user' = User._id user
    ∧ User.email user' = User.email user.
Proof.
  intros Hst Hauth Hother.
  apply auth_Next in Hauth as (Htok & Hne & p & s & Hd & Hlt & Hs & Hin & ->).
  destruct (handle_user_step st e req _ _ Hst Hs) as (tokens & Hs' & Htokens).
  exists (User.set_password None (User.set_tokens tokens s)).
  split; [|done]. apply auth_Next. split_and!; try done.
  exists p, (User.set_tokens tokens s). split_and!; try done. simpl.
  destruct Htokens as [-> | [(t & -> & _) | (h & -> & ->)]]; [done | set_solver |].
  apply list_elem_of_filter. split; [|done]. intros ->. by apply (Hother h).
Qed.

Lemma auth_issued (tasks : gmap ObjectId Task.doc) (e e' : env) (this this' : User.doc)
    (token : string) (coll coll' : gmap ObjectId User.doc) :
  coll !! User._id this = Some this →
  generateAuthToken e this coll = inr (token, this', coll') →
  jwt_decode token =
    Some (Jwt.Payload (User._id this) (User.email this) (User.role this)
            (Jwt.clock (now e)) (Jwt.clock (now e) + Jwt.seven_days)) →
  this' = User.set_tokens (User.tokens this ++ [token]) this
  ∧ coll' = <[User._id this := this']> coll
  ∧ token ≠ EmptyString
  ∧ auth (Store coll' tasks) e' (Some ("Bearer " +:+ token))
    = if Jwt.clock (now e') <? Jwt.clock (now e) + Jwt.seven_days
      then Next (User.set_password None this') token
      else invalid_token.
Proof.
  intros Hthis Hgen Hdec. unfold generateAuthToken in Hgen.
  destruct (User_save _ _ _) as [|coll1] eqn:Hsave; [done|].
  injection Hgen as Htok <- <-.
  apply User_save_inr in Hsave as (Hall & stored & Hstored & ->).
  simpl in Hall, Hstored. rewrite Hthis in Hstored. injection Hstored as <-.
  assert (Hne : token ≠ EmptyString).
  { rewrite Forall_app, Forall_singleton in Hall. rewrite <- Htok. apply Hall. }
  rewrite Htok. split_and!; try done.
  rewrite auth_bearer by done. unfold jwt_verify.
  rewrite decide_False by done. rewrite Hdec. simpl.
  destruct (Z.ltb_spec (Jwt.clock (now e')) (Jwt.clock (now e) + Jwt.seven_days));
    destruct (Z.leb_spec (Jwt.clock (now e) + Jwt.seven_days) (Jwt.clock (now e')));
    try lia; [|done].
  unfold User_findOne_id_token. simpl. rewrite lookup_insert_eq. simpl.
  rewrite decide_True by set_solver. done.
Qed.

(** Property X3.  A session lasts seven days.  The guard accepts a token issued at one
    time at every time whose clock is less than 604800 seconds later, while it
    is among the sessions; from then on it answers 401, in every store. *)
Theorem session_lasts_seven_days
    (st : store) (e e' : env) (this this' : User.doc) (token : string)
    (coll' : gmap ObjectId User.doc) :
  users st !! User._id this = Some this →
  generateAuthToken e this (users st) = inr (token, this', coll') →
  jwt_decode token =
    Some (Jwt.Payload (User._id this) (User.email this) (User.role this)
            (Jwt.clock (now e)) (Jwt.clock (now e) + Jwt.seven_days)) →
  let header := Some ("Bearer " +:+ token) in
  (Jwt.clock (now e') < Jwt.clock (now e) + 604800 →
   auth (set_users coll' st) e' header = Next (User.set_password None this') token)
  ∧ (Jwt.clock (now e) + 604800 ≤ Jwt.clock (now e') →
     ∀ st', auth st' e' header = invalid_token).
Proof.
  intros Hthis Hgen Hdec header.
  destruct (auth_issued (tasks st) e e' _ _ _ _ _ Hthis Hgen Hdec)
    as (_ & _ & Hne & Hauth).
  split.
  - intros Hlt. unfold header, set_users. rewrite Hauth.
    destruct (Z.ltb_spec (Jwt.clock (now e')) (Jwt.clock (now e) + Jwt.seven_days));
      [done | unfold Jwt.seven_days in *; lia].
  - intros Hge st'. unfold header. rewrite auth_bearer by done.
    destruct (jwt_verify token (now e')) as [p|] eqn:Hv; [|done].
    apply jwt_verify_Some in Hv as (_ & Hp & Hlt).
    rewrite Hdec in Hp. injection Hp as <-. simpl in Hlt.
    unfold Jwt.seven_days in Hlt. lia.
Qed.

End SessionLife.
(** ** Registration and login *)

Lemma toJSON_set_password (p : option string) (u : User.doc) :
  User.toJSON (User.set_password p u) = User.toJSON u.
Proof. by destruct u as [? ? ? [] ? ? ?], p. Qed.

Lemma toJSON_set_tokens (t : list string) (u : User.doc) :
  User.toJSON (User.set_tokens t u) = User.toJSON u.
Proof. by destruct u as [? ? ? [] ? ? ?]. Qed.

Section RegisterLogin.

Context `{Libraries}.

(** What a registration that is answered 201 has done. *)
Lemma register_created (st st1 : store) (e : env) (body : gmap string json)
    (r : response) :
  register st e body = (Send r, st1) →
  status r = 201%nat →
  ∃ name email password,
    registerSchema body = inr (name, email, password)
    ∧ users st !! oid e = None
    ∧ (∀ id v, users st !! id = Some v → User.email v ≠ JS.toLowerCase email)
    ∧ let token :=
        jwt_sign (Jwt.Payload (oid e) (JS.toLowerCase email) "user"
                    (Jwt.clock (now e)) (Jwt.clock (now e) + Jwt.seven_days)) in
      let user :=
        User.Doc (oid e) (JS.trim name) (JS.toLowerCase email)
                 (Some (bcrypt_hash password (salt e))) "user" (now e) [token] in
      token ≠ EmptyString
      ∧ st1 = set_users (<[oid e := user]> (users st)) st
      ∧ r = Response 201
              (JObj [("message", JStr "User registered successfully");
                     ("user", User.toJSON user); ("token", JStr token)]).
Proof.
  unfold register. intros Hreg H201.
  destruct (registerSchema body) as [|[[name email] password]] eqn:Hschema.
  { injection Hreg as <- _. done. }
  destruct (User_findOne_email _ _).
  { injection Hreg as <- _. done. }
  destruct (User_insert _ _ _) as [|[user coll]] eqn:Hins; [done|].
  apply User_insert_inr in Hins as (-> & Hnone & Hfresh & _ & ->).
  unfold generateAuthToken in Hreg.
  destruct (User_save _ _ _) as [|coll'] eqn:Hsave; [done|].
  apply User_save_inr in Hsave as (Hall & stored & Hs & ->).
  simpl in *. rewrite lookup_insert_eq in Hs. injection Hs as <-.
  rewrite Forall_singleton in Hall.
  injection Hreg as <- <-. exists name, email, password.
  split_and!; try done. by rewrite insert_insert_eq.
Qed.

(** Property X4.  A registration with an address of ASCII characters that is
    answered 201 has added one user and nothing else: the user is stored
    under the fresh id of the request with the trimmed name, the address in
    lower case, the hash of the password, the role [user], the time of the
    request and one session, the token of the response; no stored user had
    the address; the other users and the tasks are as before. *)
Theorem registration_adds_one_user
    (st st1 : store) (e : env) (b : gmap string json) (r : response)
    (name email password : string) :
  handle st e (Register b) = (Send r, st1) →
  status r = 201%nat →
  b !! "name" = Some (JStr name) →
  b !! "email" = Some (JStr email) →
  b !! "password" = Some (JStr password) →
  JS.is_ascii email = true →
  ∃ token,
    field "token" (body r) = Some (JStr token)
    ∧ users st !! oid e = None
    ∧ users st1 !! oid e
      = Some (User.Doc (oid e) (JS.trim name) (JS.toLowerCase email)
                (Some (bcrypt_hash password (salt e))) "user" (now e) [token])
    ∧ (∀ id, id ≠ oid e → users st1 !! id = users st !! id)
    ∧ (∀ id v, users st !! id = Some v → User.email v ≠ JS.toLowerCase email)
    ∧ size (users st1) = S (size (users st))
    ∧ tasks st1 = tasks st.
Proof.
  intros Hreg H201 Hname Hemail Hpassword _. simpl in Hreg.
  destruct (register_created _ _ _ _ _ Hreg H201)
    as (n & m & p & Hschema & Hnone & Hfresh & Hne & -> & ->).
  apply registerSchema_inr in Hschema as (Hn & Hm & Hp).
  rewrite Hname in Hn. rewrite Hemail in Hm. rewrite Hpassword in Hp.
  injection Hn as <-. injection Hm as <-. injection Hp as <-.
  eexists. split_and!; try done; simpl.
  - by rewrite lookup_insert_eq.
  - intros id Hid. by rewrite lookup_insert_ne.
  - by rewrite map_size_insert_None.
Qed.

(** Property X5.  The token of a registration opens the profile at once: the request
    [GET /api/auth/me] with the token of the response is answered 200 with
    the user of the response. *)
Theorem register_then_me
    (st st1 : store) (e : env) (b : gmap string json) (r : response)
    (email : string) :
  handle st e (Register b) = (Send r, st1) →
  status r = 201%nat →
  b !! "email" = Some (JStr email) →
  (let payload := Jwt.Payload (oid e) (JS.toLowerCase email) "user"
                    (Jwt.clock (now e)) (Jwt.clock (now e) + Jwt.seven_days) in
   jwt_decode (jwt_sign payload) = Some payload) →
  ∃ token user,
    body r
    = JObj [("message", JStr "User registered successfully");
            ("user", user); ("token", JStr token)]
    ∧ handle st1 e (Me (Some ("Bearer " +:+ token)))
      = (Send (Response 200 (JObj [("user", user)])), st1)
    ∧ field "_id" user = Some (JStr (oid e))
    ∧ field "email" user = Some (JStr (JS.toLowerCase email)).
Proof.
  intros Hreg H201 Hemail Hjwt. simpl in Hreg.
  destruct (register_created _ _ _ _ _ Hreg H201)
    as (n & m & p & Hschema & Hnone & Hfresh & Hne & -> & ->).
  apply registerSchema_inr in Hschema as (_ & Hm & _).
  rewrite Hemail in Hm. injection Hm as <-.
  eexists _, _. split; [reflexivity|]. split_and!; try done.
  simpl. unfold protected.
  match goal with |- context [auth ?s ?e ?a] =>
    assert (Hauth : ∃ u, auth s e a = Next u (jwt_sign (Jwt.Payload (oid e)
      (JS.toLowerCase email) "user" (Jwt.clock (now e))
      (Jwt.clock (now e) + Jwt.seven_days))) ∧ User.toJSON u = User.toJSON
        (User.Doc (oid e) (JS.trim n) (JS.toLowerCase email)
           (Some (bcrypt_hash p (salt e))) "user" (now e)
           [jwt_sign (Jwt.Payload (oid e) (JS.toLowerCase email) "user"
              (Jwt.clock (now e)) (Jwt.clock (now e) + Jwt.seven_days))]))
  end.
  { eexists. split.
    - apply auth_Next. rewrite replace_prefix. split_and!; try done.
      eexists _, _. split_and!; [exact Hjwt | | | | reflexivity].
      + simpl. unfold Jwt.seven_days. lia.
      + simpl. by rewrite lookup_insert_eq.
      + set_solver.
    - apply toJSON_set_password. }
  destruct Hauth as (u & -> & Hu). unfold me. by rewrite Hu.
Qed.

Lemma later_user (st st' : store) (id : ObjectId) (u : User.doc) :
  consistent st → later st st' → users st !! id = Some u →
  ∃ tokens, users st' !! id = Some (User.set_tokens tokens u).
Proof.
  intros Hst Hlater. induction Hlater as [|st' e req Hlater IH]; intros Hu.
  - exists (User.tokens u). rewrite Hu. by destruct u.
  - destruct (IH Hu) as (tokens & Hu').
    destruct (handle_user_step st' e req _ _ (later_consistent _ _ Hst Hlater) Hu')
      as (tokens' & Hu'' & _).
    exists tokens'. by rewrite Hu''.
Qed.

(** Property X6.  The stored password is the hash of the submitted one and stays: in
    every store after a registration, with an address of ASCII characters,
    that was answered 201, the user is stored under the id of the
    registration with the trimmed name, the address in lower case, the hash
    of the password under the salt of the registration, the role and the
    creation time it was given; only the sessions change. *)
Theorem registered_user_is_kept
    (st st1 st2 : store) (e : env) (b : gmap string json) (r : response)
    (name email password : string) :
  consistent st →
  handle st e (Register b) = (Send r, st1) →
  status r = 201%nat →
  b !! "name" = Some (JStr name) →
  b !! "email" = Some (JStr email) →
  b !! "password" = Some (JStr password) →
  JS.is_ascii email = true →
  later st1 st2 →
  ∃ tokens,
    users st2 !! oid e
    = Some (User.Doc (oid e) (JS.trim name) (JS.toLowerCase email)
              (Some (bcrypt_hash password (salt e))) "user" (now e) tokens).
Proof.
  intros Hst Hreg H201 Hname Hemail Hpassword _ Hlater.
  assert (Hst1 : consistent st1).
  { replace st1 with (handle st e (Register b)).2 by by rewrite Hreg.
    by apply consistent_handle. }
  simpl in Hreg.
  destruct (register_created _ _ _ _ _ Hreg H201)
    as (n & m & p & Hschema & Hnone & Hfresh & Hne & Hst1' & _).
  apply registerSchema_inr in Hschema as (Hn & Hm & Hp).
  rewrite Hname in Hn. rewrite Hemail in Hm. rewrite Hpassword in Hp.
  injection Hn as <-. injection Hm as <-. injection Hp as <-.
  assert (Hu : users st1 !! oid e
    = Some (User.Doc (oid e) (JS.trim name) (JS.toLowerCase email)
              (Some (bcrypt_hash password (salt e))) "user" (now e)
              [jwt_sign (Jwt.Payload (oid e) (JS.toLowerCase email) "user"
                 (Jwt.clock (now e)) (Jwt.clock (now e) + Jwt.seven_days))])).
  { rewrite Hst1'. simpl. by rewrite lookup_insert_eq. }
  destruct (later_user _ _ _ _ Hst1 Hlater Hu) as (tokens & Hu2).
  by exists tokens.
Qed.

(** Property X7.  Login after registration.  In every store after a registration that was
    answered 201, a login whose body passes the schema, with the same address
    up to letter case and the same password, is answered 200 with a new token
    when [bcrypt.compare] accepts the password against its hash and the
    signed token is not empty; the login adds the token to the sessions of
    that user and changes nothing else. *)
Theorem register_then_login
    (st st1 st2 : store) (e e2 : env) (b b2 : gmap string json) (r : response)
    (email password email2 : string) :
  consistent st →
  handle st e (Register b) = (Send r, st1) →
  status r = 201%nat →
  b !! "email" = Some (JStr email) →
  b !! "password" = Some (JStr password) →
  later st1 st2 →
  loginSchema b2 = inr (email2, password) →
  JS.toLowerCase email2 = JS.toLowerCase email →
  bcrypt_compare password (bcrypt_hash password (salt e)) = true →
  (let token := jwt_sign (Jwt.Payload (oid e) (JS.toLowerCase email) "user"
                  (Jwt.clock (now e2)) (Jwt.clock (now e2) + Jwt.seven_days)) in
   token ≠ EmptyString) →
  ∃ stored token,
    users st2 !! oid e = Some stored
    ∧ token = jwt_sign (Jwt.Payload (oid e) (JS.toLowerCase email) "user"
                (Jwt.clock (now e2)) (Jwt.clock (now e2) + Jwt.seven_days))
    ∧ handle st2 e2 (Login b2)
      = (Send (Response 200
           (JObj [("message", JStr "Login successful");
                  ("user", User.toJSON stored); ("token", JStr token)])),
         set_users
           (<[oid e := User.set_tokens (User.tokens stored ++ [token]) stored]>
              (users st2)) st2).
Proof.
  intros Hst Hreg H201 Hemail Hpassword Hlater Hschema Hsame Hcompare Htoken.
  assert (Hst1 : consistent st1).
  { replace st1 with (handle st e (Register b)).2 by by rewrite Hreg.
    by apply consistent_handle. }
  pose proof (later_consistent _ _ Hst1 Hlater) as Hst2.
  simpl in Hreg.
  destruct (register_created _ _ _ _ _ Hreg H201)
    as (n & m & p & Hschema1 & Hnone & Hfresh & Hne & Hst1' & _).
  apply registerSchema_inr in Hschema1 as (_ & Hm & Hp).
  rewrite Hemail in Hm. rewrite Hpassword in Hp.
  injection Hm as <-. injection Hp as <-.
  assert (Hu : users st1 !! oid e
    = Some (User.Doc (oid e) (JS.trim n) (JS.toLowerCase email)
              (Some (bcrypt_hash password (salt e))) "user" (now e)
              [jwt_sign (Jwt.Payload (oid e) (JS.toLowerCase email) "user"
                 (Jwt.clock (now e)) (Jwt.clock (now e) + Jwt.seven_days))])).
  { rewrite Hst1'. simpl. by rewrite lookup_insert_eq. }
  destruct (later_user _ _ _ _ Hst1 Hlater Hu) as (tokens & Hu2).
  eexists _, _. split; [exact Hu2|]. split; [reflexivity|].
  simpl. unfold login. rewrite Hschema.
  destruct (User_findOne_email_password email2 (users st2)) as [found|] eqn:Hfind.
  2:{ unfold User_findOne_email_password in Hfind.
      pose proof (findOne_None _ _ _ _ Hfind Hu2) as Hno. simpl in Hno.
      rewrite Hsame in Hno. by rewrite bool_decide_eq_false in Hno. }
  apply findOne_Some in Hfind as (Hmail%bool_decide_eq_true & k & Hk).
  assert (k = oid e) as ->.
  { apply (user_email_unique _ Hst2 _ _ _ _ Hk Hu2). simpl. by rewrite Hmail, Hsame. }
  rewrite Hu2 in Hk. injection Hk as <-.
  unfold comparePassword. simpl. rewrite Hcompare.
  unfold generateAuthToken.
  destruct (User_save _ _ _) as [err|coll'] eqn:Hsave.
  - exfalso.
    assert (Hok : ∃ c, User_save e2
      (User.set_tokens (tokens ++ [jwt_sign (Jwt.Payload (oid e) (JS.toLowerCase email)
         "user" (Jwt.clock (now e2)) (Jwt.clock (now e2) + Jwt.seven_days))])
         (User.Doc (oid e) (JS.trim n) (JS.toLowerCase email)
            (Some (bcrypt_hash password (salt e))) "user" (now e) tokens))
      (users st2) = inr c).
    { eexists. apply User_save_inr. simpl. split.
      - apply Forall_app. split.
        + apply (user_tokens _ Hst2 _ _ Hu2).
        + by apply Forall_singleton.
      - eauto. }
    destruct Hok as [c Hc].
    enough (Hno : @inl Mongoose.error (gmap string User.doc) err = inr c) by done.
    rewrite <- Hsave, <- Hc. reflexivity.
  - apply User_save_inr in Hsave as (_ & s & Hs & ->). simpl in *.
    rewrite Hu2 in Hs. by injection Hs as <-.
Qed.

End RegisterLogin.
(** ** Requests that are refused *)

Section Refused.

Context `{Libraries}.

(** Property X8.  A request that is not answered with a status below 400
    leaves the store as it was, with one exception.  A 400, a 401 from the
    guard or from a login, a 404 and an error that is passed to the error
    handler change neither users nor tasks, unless the request is a
    registration that has saved its user and then fails to issue the token:
    the route calls [user.save()] before [generateAuthToken], so the error
    goes to the error handler and the user stays stored, without a session.
    Here that happens when the signing library returns an empty token. *)
Theorem refused_request_changes_nothing
    (st st' : store) (e : env) (req : request) (out : outcome) :
  handle st e req = (out, st') →
  (∀ r, out = Send r → (400 ≤ status r)%nat) →
  st' = st
  ∨ ∃ b user payload error,
      req = Register b
      ∧ out = NextError error
      ∧ jwt_sign payload = EmptyString
      ∧ users st !! oid e = None
      ∧ User.tokens user = []
      ∧ st' = set_users (<[oid e := user]> (users st)) st.
Proof.
  intros Hreq Hstatus.
  assert (Hsent : ∀ r s, out = Send r → status r = s → (s < 400)%nat → False).
  { intros r s Hout <- Hs. specialize (Hstatus r Hout). lia. }
  destruct req as [b|b|a|a|a q|a i|a b|a i b|a i]; simpl in Hreq;
    try (unfold protected in Hreq;
         destruct (auth st e a) as [u tok|rej] eqn:Hauth; [|left; by injection Hreq]).
  - unfold register in Hreq.
    destruct (registerSchema b) as [|[[name email] password]];
      [left; by injection Hreq|].
    destruct (User_findOne_email _ _); [left; by injection Hreq|].
    destruct (User_insert _ _ _) as [|[user coll]] eqn:Hins; [left; by injection Hreq|].
    apply User_insert_inr in Hins as (-> & Hnone & _ & _ & ->). simpl in Hnone.
    destruct (generateAuthToken _ _ _) as [err|[[token user'] coll']] eqn:Hgen.
    + injection Hreq as <- <-. right.
      unfold generateAuthToken in Hgen.
      destruct (User_save _ _ _) as [err'|coll'] eqn:Hsave; [|done].
      set (payload := Jwt.Payload (oid e) (JS.toLowerCase email) "user"
                        (Jwt.clock (now e)) (Jwt.clock (now e) + Jwt.seven_days)) in *.
      set (user := User_pre_save true (salt e)
                     (User.new (oid e) (now e) name email password)) in *.
      assert (Hempty : jwt_sign payload = EmptyString).
      { destruct (decide (jwt_sign payload = EmptyString)) as [Hempty|Hne]; [done|].
        exfalso.
        assert (Hok : ∃ c, User_save e
                  (User.set_tokens (User.tokens user ++ [jwt_sign payload]) user)
                  (<[oid e := user]> (users st)) = inr c).
        { eexists. apply User_save_inr. simpl. split.
          - by apply Forall_singleton.
          - eexists. split; [apply lookup_insert_eq | done]. }
        destruct Hok as [c Hc].
        enough (Hno : @inl Mongoose.error (gmap string User.doc) err' = inr c) by done.
        rewrite <- Hsave, <- Hc. reflexivity. }
      exists b, user, payload, err. split_and!; try done; try reflexivity.
    + injection Hreq as <- <-. exfalso. eapply (Hsent _ 201%nat); [done | done | lia].
  - unfold login in Hreq.
    repeat (case_match; try done).
    all: injection Hreq as <- <-;
      first [left; done | exfalso; eapply (Hsent _ 200%nat); [done | done | lia]].
  - left. by injection Hreq.
  - unfold logout in Hreq.
    repeat (case_match; try done).
    all: injection Hreq as <- <-;
      first [left; done | exfalso; eapply (Hsent _ 200%nat); [done | done | lia]].
  - left. by injection Hreq.
  - left. by injection Hreq.
  - unfold createTask in Hreq.
    repeat (case_match; try done).
    all: injection Hreq as <- <-;
      first [left; done | exfalso; eapply (Hsent _ 201%nat); [done | done | lia]].
  - unfold updateTask in Hreq.
    repeat (case_match; try done).
    all: injection Hreq as <- <-;
      first [left; done | exfalso; eapply (Hsent _ 200%nat); [done | done | lia]].
  - unfold deleteTask in Hreq.
    repeat (case_match; try done).
    all: injection Hreq as <- <-;
      first [left; done | exfalso; eapply (Hsent _ 200%nat); [done | done | lia]].
Qed.

End Refused.

(** ** Creating, reading and deleting a task *)

Lemma unknown_inr (keys : list string) (o : gmap string json) :
  Joi.unknown keys o = inr () ↔ ∀ k, is_Some (o !! k) → k ∈ keys.
Proof.
  unfold Joi.unknown.
  destruct (filter (λ k, k ∉ keys) (map_to_list o).*1) as [|k l] eqn:Hf.
  - split; [|done]. intros _ k [v Hk].
    destruct (decide (k ∈ keys)) as [|Hno]; [done|].
    assert (Hin : k ∈ filter (λ k, k ∉ keys) (map_to_list o).*1).
    { apply list_elem_of_filter. split; [done|].
      apply list_elem_of_fmap. exists (k, v). split; [done|].
      by apply elem_of_map_to_list. }
    rewrite Hf in Hin. by apply elem_of_nil in Hin.
  - split; [done|]. intros Hall.
    assert (Hin : k ∈ filter (λ k, k ∉ keys) (map_to_list o).*1)
      by (rewrite Hf; left).
    apply list_elem_of_filter in Hin as [Hno Hin].
    apply list_elem_of_fmap in Hin as ([k' v] & -> & Hin).
    apply elem_of_map_to_list in Hin. destruct Hno. apply Hall. by exists v.
Qed.

Section TaskLife.

Context `{Libraries}.

(** Property X9.  A body with a key that the task schema does not list (such as [owner],
    [_id], [createdAt] or [updatedAt]) is refused with 400 by create and by
    update, and the store is left as it is: a request cannot set these
    fields. *)
Theorem unlisted_key_refused
    (st : store) (e : env) (user : User.doc) (id : string) (b : gmap string json)
    (k : string) :
  is_Some (b !! k) →
  k ∉ ["title"; "description"; "status"; "priority"; "dueDate"] →
  ∃ error,
    taskSchema (now e) b = inl error
    ∧ createTask st e user b
      = (Send (Response 400 (error_body (Joi.message error))), st)
    ∧ updateTask st e user id b
      = (Send (Response 400 (error_body (Joi.message error))), st).
Proof.
  intros Hk Hno.
  destruct (taskSchema (now e) b) as [error|value] eqn:Hschema.
  - exists error. unfold createTask, updateTask. by rewrite Hschema.
  - exfalso. unfold taskSchema in Hschema.
    apply bind_inr in Hschema as (? & _ & (? & _ & (? & _ & (? & _ & (? & _
      & ([] & Hunknown & _)%bind_inr)%bind_inr)%bind_inr)%bind_inr)%bind_inr).
    apply Hno. by apply (proj1 (unknown_inr _ _) Hunknown).
Qed.

Lemma validate_new_nil (now : Z) (b : gmap string json) (value : TaskValue.t)
    (id owner : ObjectId) :
  taskSchema now b = inr value →
  JS.trim (TaskValue.title value) ≠ EmptyString →
  Task.validate now (Task.new id now value owner) = [].
Proof.
  intros Hvalue Hblank.
  pose proof (update_validators_nil _ _ _ Hvalue Hblank) as Hupd.
  unfold Task.update_validators, Task.cast_update in Hupd. simpl in Hupd.
  apply app_eq_nil in Hupd as (Ht & (Hd & (_ & (_ & Hdue)%app_eq_nil)%app_eq_nil)%app_eq_nil).
  apply taskSchema_inr in Hvalue as (_ & _ & _ & Hs & Hp & _).
  unfold Task.validate, Task.new. simpl. rewrite Ht, Hd, Hdue. simpl.
  assert (Hstatus : default "pending" (TaskValue.status value) ∈ Task.statuses).
  { destruct (TaskValue.status value) as [s|]; simpl; [by apply Hs | by left]. }
  assert (Hprio : default "medium" (TaskValue.priority value) ∈ Task.priorities).
  { destruct (TaskValue.priority value) as [p|]; simpl;
      [by apply Hp | by right; left]. }
  unfold Mongoose.validate_enum.
  rewrite (proj2 (check_nil "status" _)), (proj2 (check_nil "priority" _)); [done| |];
    repeat constructor; simpl; by apply bool_decide_eq_true.
Qed.

(** Property X10.  Create, then get.  A create whose body passes the schema with a title
    that is not blank, under an id that is free, is answered 201 with the new
    task: the supplied fields (strings trimmed), [pending] and [medium] where
    status and priority are not supplied, the caller as owner and the time
    of the request as [createdAt] and [updatedAt].  The task is stored under
    the id, the rest of the store is as before, and a get of the id by the
    caller is answered 200 with the same task. *)
Theorem create_then_get
    (st : store) (e : env) (user : User.doc) (b : gmap string json)
    (value : TaskValue.t) :
  taskSchema (now e) b = inr value →
  JS.trim (TaskValue.title value) ≠ EmptyString →
  tasks st !! oid e = None →
  Mongoose.castObjectId (oid e) = Some (oid e) →
  let task :=
    Task.Doc (oid e) (JS.trim (TaskValue.title value))
      (JS.trim <$> TaskValue.description value)
      (default "pending" (TaskValue.status value))
      (default "medium" (TaskValue.priority value))
      (TaskValue.dueDate value) (User._id user) (now e) (now e) in
  let st1 := set_tasks (<[oid e := task]> (tasks st)) st in
  createTask st e user b
  = (Send (Response 201 (JObj [("message", JStr "Task created successfully");
                               ("task", Task.toJSON task)])), st1)
  ∧ getTask st1 user (oid e) = Send (Response 200 (JObj [("task", Task.toJSON task)]))
  ∧ (∀ id, id ≠ oid e → tasks st1 !! id = tasks st !! id)
  ∧ users st1 = users st.
Proof.
  intros Hvalue Hblank Hfree Hcast task st1. split_and!; try done.
  - unfold createTask, Task.save. rewrite Hvalue.
    rewrite (validate_new_nil _ _ _ _ _ Hvalue Hblank). simpl. by rewrite Hfree.
  - unfold getTask. rewrite Hcast. unfold Task.by_id_owner. simpl.
    rewrite lookup_insert_eq. simpl. by rewrite decide_True.
  - intros id Hid. simpl. by rewrite lookup_insert_ne.
Qed.

(** Property X11.  Delete.  The delete of a task by its owner is answered 200 and removes
    that task and nothing else; afterwards a get and a second delete of the
    id are answered 404. *)
Theorem delete_removes_the_task
    (st : store) (user : User.doc) (id : string) (_id : ObjectId) (task : Task.doc) :
  Mongoose.castObjectId id = Some _id →
  tasks st !! _id = Some task →
  Task.owner task = User._id user →
  let st1 := set_tasks (delete _id (tasks st)) st in
  deleteTask st user id
  = (Send (Response 200 (JObj [("message", JStr "Task deleted successfully")])), st1)
  ∧ getTask st1 user id = Send not_found
  ∧ deleteTask st1 user id = (Send not_found, st1)
  ∧ (∀ other, other ≠ _id → tasks st1 !! other = tasks st !! other)
  ∧ users st1 = users st.
Proof.
  intros Hcast Htask Hown st1.
  assert (Hsome : Task.by_id_owner _id (User._id user) (tasks st) = Some task)
    by by apply by_id_owner_Some.
  assert (Hnone : Task.by_id_owner _id (User._id user) (tasks st1) = None).
  { apply by_id_owner_None. intros t. simpl. by rewrite lookup_delete_eq. }
  split_and!; try done.
  - unfold deleteTask, Task.findOneAndDelete. by rewrite Hcast, Hsome.
  - unfold getTask. by rewrite Hcast, Hnone.
  - unfold deleteTask, Task.findOneAndDelete. by rewrite Hcast, Hnone.
  - intros other Hother. simpl. by rewrite lookup_delete_ne.
Qed.

End TaskLife.
(** ** What one request does to the tasks *)

Section TaskSteps.

Context `{Libraries}.

Lemma auth_user (st : store) (e : env) (a : option string) (user : User.doc)
    (token : string) :
  consistent st →
  auth st e a = Next user token →
  ∃ stored, users st !! User._id user = Some stored ∧ user = User.set_password None stored.
Proof.
  intros Hst Hauth. destruct a as [h|]; [|done].
  apply auth_Next in Hauth as (_ & _ & p & s & _ & _ & Hs & _ & ->).
  exists s. split; [|done]. simpl. by rewrite (user_key _ Hst _ _ Hs).
Qed.

(** The tasks after a request: as before, or one task inserted by a create,
    one replaced by its owner's update, or one removed by its owner's
    delete. *)
Lemma handle_tasks (st : store) (e : env) (req : request) :
  tasks (handle st e req).2 = tasks st
  ∨ (∃ a b user token value,
       req = CreateTask a b ∧ auth st e a = Next user token
       ∧ taskSchema (now e) b = inr value
       ∧ Task.validate (now e) (Task.new (oid e) (now e) value (User._id user)) = []
       ∧ tasks st !! oid e = None
       ∧ tasks (handle st e req).2
         = <[oid e := Task.new (oid e) (now e) value (User._id user)]> (tasks st))
  ∨ (∃ a i b user token value _id t,
       req = UpdateTask a i b ∧ auth st e a = Next user token
       ∧ taskSchema (now e) b = inr value
       ∧ Mongoose.castObjectId i = Some _id
       ∧ Task.update_validators (now e) (Task.cast_update value) = []
       ∧ tasks st !! _id = Some t ∧ Task.owner t = User._id user
       ∧ tasks (handle st e req).2
         = <[_id := Task.apply_set (Task.cast_update value) t]> (tasks st))
  ∨ (∃ a i user token _id t,
       req = DeleteTask a i ∧ auth st e a = Next user token
       ∧ Mongoose.castObjectId i = Some _id
       ∧ tasks st !! _id = Some t ∧ Task.owner t = User._id user
       ∧ tasks (handle st e req).2 = delete _id (tasks st)).
Proof.
  destruct req as [b|b|a|a|a q|a i|a b|a i b|a i]; simpl;
    try (unfold protected;
         destruct (auth st e a) as [user token|rej] eqn:Hauth; [|by left]);
    try by left.
  - left. unfold register. repeat (case_match; try done).
    all: unfold User_save, generateAuthToken in *; repeat (case_match; simplify_eq; try done).
  - left. unfold login. repeat (case_match; try done).
    all: unfold User_save, generateAuthToken in *; repeat (case_match; simplify_eq; try done).
  - left. unfold logout. repeat (case_match; try done).
  - unfold createTask.
    destruct (taskSchema (now e) b) as [err|value] eqn:Hvalue; [by left|].
    unfold Task.save.
    destruct (Task.validate _ _) eqn:Hvalid; [|by left]. simpl.
    destruct (tasks st !! oid e) eqn:Hfree; [by left|].
    right; left. exists a, b, user, token, value. split_and!; done.
  - unfold updateTask.
    destruct (taskSchema (now e) b) as [err|value] eqn:Hvalue; [by left|].
    destruct (Mongoose.castObjectId i) as [_id|] eqn:Hcast; [|by left].
    unfold Task.findOneAndUpdate.
    destruct (Task.update_validators _ _) eqn:Hvalid; [|by left].
    destruct (Task.by_id_owner _ _ _) as [t|] eqn:Ht; [|by left].
    apply by_id_owner_Some in Ht as [Ht Hown].
    right; right; left. exists a, i, b, user, token, value, _id, t. split_and!; done.
  - unfold deleteTask.
    destruct (Mongoose.castObjectId i) as [_id|] eqn:Hcast; [|by left].
    unfold Task.findOneAndDelete.
    destruct (Task.by_id_owner _ _ _) as [t|] eqn:Ht; [|by left].
    apply by_id_owner_Some in Ht as [Ht Hown].
    right; right; right. exists a, i, user, token, _id, t. split_and!; done.
Qed.

Lemma validate_nil (now : Z) (t : Task.doc) :
  Task.validate now t = [] →
  Task.title t ≠ EmptyString ∧ (JS.length (Task.title t) ≤ 100)%nat
  ∧ (∀ d, Task.description t = Some d → (JS.length d ≤ 500)%nat)
  ∧ Task.status t ∈ Task.statuses ∧ Task.priority t ∈ Task.priorities.
Proof.
  unfold Task.validate.
  intros (Ht & (Hd & (Hs & (Hp & _)%app_eq_nil)%app_eq_nil)%app_eq_nil)%app_eq_nil.
  apply check_nil in Ht. rewrite !Forall_cons in Ht. simpl in Ht.
  destruct Ht as (Hne & Hlen & _).
  apply check_nil in Hs. rewrite Forall_singleton in Hs. simpl in Hs.
  apply check_nil in Hp. rewrite Forall_singleton in Hp. simpl in Hp.
  split_and!.
  - by apply bool_decide_eq_true in Hne.
  - by apply Nat.leb_le.
  - intros d Hsome. unfold Task.validate_description in Hd. rewrite Hsome in Hd.
    apply check_nil in Hd. rewrite Forall_singleton in Hd. by apply Nat.leb_le.
  - by apply bool_decide_eq_true in Hs.
  - by apply bool_decide_eq_true in Hp.
Qed.

Lemma update_validators_nil_inv (now : Z) (u : TaskValue.t) :
  Task.update_validators now u = [] →
  TaskValue.title u ≠ EmptyString ∧ (JS.length (TaskValue.title u) ≤ 100)%nat
  ∧ (∀ d, TaskValue.description u = Some d → (JS.length d ≤ 500)%nat)
  ∧ (∀ s, TaskValue.status u = Some s → s ∈ Task.statuses)
  ∧ (∀ p, TaskValue.priority u = Some p → p ∈ Task.priorities).
Proof.
  unfold Task.update_validators.
  intros (Ht & (Hd & (Hs & (Hp & _)%app_eq_nil)%app_eq_nil)%app_eq_nil)%app_eq_nil.
  apply check_nil in Ht. rewrite !Forall_cons in Ht. simpl in Ht.
  destruct Ht as (Hne & Hlen & _).
  split_and!.
  - by apply bool_decide_eq_true in Hne.
  - by apply Nat.leb_le.
  - intros d Hsome. unfold Task.validate_description in Hd. rewrite Hsome in Hd.
    apply check_nil in Hd. rewrite Forall_singleton in Hd. by apply Nat.leb_le.
  - intros s Hsome. rewrite Hsome in Hs. simpl in Hs.
    apply check_nil in Hs. rewrite Forall_singleton in Hs.
    by apply bool_decide_eq_true in Hs.
  - intros p Hsome. rewrite Hsome in Hp. simpl in Hp.
    apply check_nil in Hp. rewrite Forall_singleton in Hp.
    by apply bool_decide_eq_true in Hp.
Qed.

Lemma well_formed_empty : well_formed (Store ∅ ∅).
Proof. split; intros *; simpl; by rewrite lookup_empty. Qed.

Lemma well_formed_handle (st : store) (e : env) (req : request) :
  consistent st → well_formed st → well_formed (handle st e req).2.
Proof.
  intros Hst Hwf.
  assert (Husers : ∀ id, is_Some (users st !! id) →
                         is_Some (users (handle st e req).2 !! id)).
  { intros id [u Hu]. destruct (handle_keeps st e req id u Hu) as (u' & Hu' & _). eauto. }
  assert (Hall : ∀ id t, tasks (handle st e req).2 !! id = Some t →
            is_Some (users st !! Task.owner t)
            ∧ Task.title t ≠ EmptyString ∧ (JS.length (Task.title t) ≤ 100)%nat
            ∧ (∀ d, Task.description t = Some d → (JS.length d ≤ 500)%nat)
            ∧ Task.status t ∈ Task.statuses ∧ Task.priority t ∈ Task.priorities).
  { assert (Hold : ∀ id t, tasks st !! id = Some t →
            is_Some (users st !! Task.owner t)
            ∧ Task.title t ≠ EmptyString ∧ (JS.length (Task.title t) ≤ 100)%nat
            ∧ (∀ d, Task.description t = Some d → (JS.length d ≤ 500)%nat)
            ∧ Task.status t ∈ Task.statuses ∧ Task.priority t ∈ Task.priorities).
    { intros id t Ht. split_and!.
      - by eapply task_owner.
      - by eapply task_title.
      - by eapply task_title.
      - intros d. by eapply task_description.
      - by eapply task_status.
      - by eapply task_priority. }
    intros id t.
    destruct (handle_tasks st e req) as
      [-> | [(a & b & user & token & value & _ & Hauth & _ & Hvalid & _ & ->)
          | [(a & i & b & user & token & value & _id & t0 & _ & Hauth & _ & _ & Hvalid
               & Ht0 & Hown & ->)
          | (a & i & user & token & _id & t0 & _ & _ & _ & _ & _ & ->)]]].
    - apply Hold.
    - destruct (decide (id = oid e)) as [->|Hne].
      + rewrite lookup_insert_eq. intros [= <-].
        destruct (auth_user _ _ _ _ _ Hst Hauth) as (s & Hs & _).
        apply validate_nil in Hvalid as (? & ? & ? & ? & ?).
        split_and!; try done; simpl; by rewrite Hs.
      + rewrite lookup_insert_ne by done. apply Hold.
    - destruct (decide (id = _id)) as [->|Hne].
      + rewrite lookup_insert_eq. intros [= <-].
        destruct (Hold _ _ Ht0) as (Ho & _ & _ & Hd & Hs & Hp).
        remember (Task.cast_update value) as u eqn:Hu. clear Hu.
        apply update_validators_nil_inv in Hvalid as (? & ? & Hd' & Hs' & Hp').
        split_and!; try done.
        * simpl. destruct (TaskValue.description u) as [d'|] eqn:Hdd.
          -- intros d [= <-]. by apply Hd'.
          -- done.
        * simpl. destruct (TaskValue.status u) as [s'|] eqn:Hss;
            simpl; [by apply Hs' | done].
        * simpl. destruct (TaskValue.priority u) as [p'|] eqn:Hpp;
            simpl; [by apply Hp' | done].
      + rewrite lookup_insert_ne by done. apply Hold.
    - intros Ht. apply lookup_delete_Some in Ht as [_ Ht]. by eapply Hold. }
  split.
  - intros id t Ht. apply Husers. by destruct (Hall id t Ht) as (? & _).
  - intros id t Ht. by destruct (Hall id t Ht) as (_ & ? & ? & _).
  - intros id t d Ht. destruct (Hall id t Ht) as (_ & _ & _ & Hd & _). apply Hd.
  - intros id t Ht. by destruct (Hall id t Ht) as (_ & _ & _ & _ & ? & _).
  - intros id t Ht. by destruct (Hall id t Ht) as (_ & _ & _ & _ & _ & ?).
Qed.

Lemma reachable_well_formed (st : store) : reachable st → well_formed st.
Proof.
  induction 1 as [|st e req Hreach IH]; [apply well_formed_empty|].
  apply well_formed_handle; [by apply reachable_consistent | done].
Qed.

(** Property X12.  Whatever requests the server has handled, every stored task is sound:
    it is stored under its [_id], its owner is a registered user, its title
    is not empty and has at most 100 characters, a description has at most
    500, and status and priority are values of their enumerations. *)
Theorem stored_tasks_are_sound (st : store) (id : ObjectId) (t : Task.doc) :
  reachable st →
  tasks st !! id = Some t →
  Task._id t = id
  ∧ is_Some (users st !! Task.owner t)
  ∧ Task.title t ≠ EmptyString ∧ (JS.length (Task.title t) ≤ 100)%nat
  ∧ (∀ d, Task.description t = Some d → (JS.length d ≤ 500)%nat)
  ∧ Task.status t ∈ Task.statuses
  ∧ Task.priority t ∈ Task.priorities.
Proof.
  intros Hreach Ht.
  pose proof (reachable_consistent _ Hreach) as Hst.
  pose proof (reachable_well_formed _ Hreach) as Hwf.
  split_and!.
  - by eapply task_key.
  - by eapply task_owner.
  - by eapply task_title.
  - by eapply task_title.
  - intros d. by eapply task_description.
  - by eapply task_status.
  - by eapply task_priority.
Qed.

(** Property X13.  Only its owner changes a task.  When a request leaves a stored task
    other than it was, the request is an update or a delete of that id whose
    token the guard accepts for the owner of the task; after an update the
    task is still there with its [_id], [owner], [createdAt] and [updatedAt]
    as before, after a delete it is gone. *)
Theorem task_changed_only_by_owner
    (st : store) (e : env) (req : request) (id : ObjectId) (t : Task.doc) :
  consistent st →
  tasks st !! id = Some t →
  tasks (handle st e req).2 !! id ≠ Some t →
  ∃ a i user token,
    auth st e a = Next user token
    ∧ User._id user = Task.owner t
    ∧ Mongoose.castObjectId i = Some id
    ∧ ((∃ b t', req = UpdateTask a i b
                ∧ tasks (handle st e req).2 !! id = Some t'
                ∧ Task._id t' = id ∧ Task.owner t' = Task.owner t
                ∧ Task.createdAt t' = Task.createdAt t
                ∧ Task.updatedAt t' = Task.updatedAt t)
       ∨ (req = DeleteTask a i ∧ tasks (handle st e req).2 !! id = None)).
Proof.
  intros Hst Ht Hchanged.
  destruct (handle_tasks st e req) as
    [Heq | [(a & b & user & token & value & _ & _ & _ & _ & Hfree & Heq)
        | [(a & i & b & user & token & value & _id & t0 & -> & Hauth & _ & Hcast & _
             & Ht0 & Hown & Heq)
        | (a & i & user & token & _id & t0 & -> & Hauth & Hcast & Ht0 & Hown & Heq)]]].
  - by rewrite Heq in Hchanged.
  - rewrite Heq in Hchanged. destruct (decide (id = oid e)) as [->|Hne].
    + by rewrite Hfree in Ht.
    + by rewrite lookup_insert_ne in Hchanged.
  - rewrite Heq in Hchanged |- *. destruct (decide (id = _id)) as [->|Hne].
    + rewrite Ht in Ht0. injection Ht0 as <-.
      exists a, i, user, token. split_and!; try done. left.
      eexists b, _. split_and!; [done | apply lookup_insert_eq | | done..].
      simpl. by eapply task_key.
    + by rewrite lookup_insert_ne in Hchanged.
  - rewrite Heq in Hchanged |- *. destruct (decide (id = _id)) as [->|Hne].
    + rewrite Ht in Ht0. injection Ht0 as <-.
      exists a, i, user, token. split_and!; try done. right.
      split; [done | apply lookup_delete_eq].
    + by rewrite lookup_delete_ne in Hchanged.
Qed.

End TaskSteps.
(** ** Listing and counting *)

Lemma elem_of_find {V} (filter : V → bool) (coll : gmap ObjectId V) (v : V) :
  v ∈ Mongoose.find filter coll ↔ filter v = true ∧ ∃ id, coll !! id = Some v.
Proof.
  unfold Mongoose.find. rewrite list_elem_of_In, List.filter_In, <- list_elem_of_In.
  rewrite elem_of_docs. tauto.
Qed.

Section ListingMore.

Context `{Libraries}.

(** Property X14.  Listing shows the caller's tasks only.  Whatever the query parameters,
    when the list route answers, it answers 200 with tasks that are stored,
    owned by the caller and have the status and the priority that the query
    asks for (when it does); they come in the order of the sort, none more
    often than the store holds it. *)
Theorem list_shows_only_own_tasks
    (st : store) (user : User.doc) (q : Query.t) (r : response) :
  listTasks st user q = Send r →
  ∃ found pagination,
    r = Response 200 (JObj [("tasks", JArr (Task.toJSON <$> found));
                            ("pagination", pagination)])
    ∧ found `sublist_of`
        Task.sort (default "createdAt" (Query.sortBy q))
          (if decide (default "desc" (Query.sortOrder q) = "desc") then -1 else 1)
          (Mongoose.find (list_query user q) (tasks st))
    ∧ ∀ t, t ∈ found →
        (∃ id, tasks st !! id = Some t)
        ∧ Task.owner t = User._id user
        ∧ (∀ s, Query.status q = Some s → s ≠ EmptyString → Task.status t = s)
        ∧ (∀ p, Query.priority q = Some p → p ≠ EmptyString → Task.priority t = p).
Proof.
  unfold listTasks. cbv zeta.
  destruct (find_sort_limit_skip _ _ _ _ _ _) as [err|found] eqn:Hfound; [done|].
  intros [= <-]. eexists found, _. split; [done|].
  unfold find_sort_limit_skip in Hfound.
  case_decide; [done|].
  destruct (param 10 (Query.limit q)) as [limit|]; [|done].
  destruct (_ ≫= _) as [skip|]; [|done].
  destruct (skip <? 0); [done|].
  destruct (_ || _); [done|]. injection Hfound as <-.
  set (sorted := Task.sort _ _ _).
  assert (Hsub : (if limit =? 0 then drop (Z.to_nat skip) sorted
                  else take (Z.to_nat (Z.abs limit)) (drop (Z.to_nat skip) sorted))
                 `sublist_of` sorted).
  { destruct (limit =? 0); [apply sublist_drop|].
    etrans; [apply sublist_take | apply sublist_drop]. }
  split; [done|].
  intros t Ht.
  assert (Hin : t ∈ Mongoose.find (list_query user q) (tasks st)).
  { rewrite <- (sort_Permutation (default "createdAt" (Query.sortBy q))
      (if decide (default "desc" (Query.sortOrder q) = "desc") then -1 else 1)).
    by eapply elem_of_sublist. }
  apply elem_of_find in Hin as [Hq Hid]. unfold list_query in Hq.
  apply andb_prop in Hq as [[Ho%bool_decide_eq_true Hs]%andb_prop Hp].
  split_and!; try done.
  - intros s Hsome Hne. rewrite Hsome in Hs. simpl in Hs.
    rewrite decide_False in Hs by done. simpl in Hs. by apply bool_decide_eq_true in Hs.
  - intros p Hsome Hne. rewrite Hsome in Hp. simpl in Hp.
    rewrite decide_False in Hp by done. simpl in Hp. by apply bool_decide_eq_true in Hp.
Qed.

End ListingMore.
(** ** The statistics *)

Lemma count_status_absent (s : string) (l : list Task.doc) :
  s ∉ Task.status <$> l →
  length (List.filter (λ t, bool_decide (Task.status t = s)) l) = 0%nat.
Proof.
  induction l as [|t l IH]; [done|]. rewrite fmap_cons, not_elem_of_cons.
  intros [Hne Hl]. simpl. rewrite bool_decide_eq_false_2 by done. by apply IH.
Qed.

Lemma count_statuses (l : list Task.doc) :
  (∀ t, t ∈ l → Task.status t ∈ Task.statuses) →
  (length (List.filter (λ t, bool_decide (Task.status t = "pending")) l)
   + length (List.filter (λ t, bool_decide (Task.status t = "in-progress")) l)
   + length (List.filter (λ t, bool_decide (Task.status t = "completed")) l)
   = length l)%nat.
Proof.
  induction l as [|t l IH]; [done|]. intros Hall.
  assert (Hl : ∀ t, t ∈ l → Task.status t ∈ Task.statuses)
    by (intros t' ?; apply Hall; by right).
  specialize (IH Hl).
  assert (Ht : Task.status t ∈ Task.statuses) by (apply Hall; by left).
  unfold Task.statuses in Ht. rewrite !elem_of_cons, elem_of_nil in Ht.
  simpl. destruct Ht as [-> | [-> | [-> | []]]]; simpl; lia.
Qed.

Lemma if_elem_of_here {A} (s : string) (ss : list string) (a d : A) :
  (if decide (s ∈ s :: ss) then a else d) = a.
Proof. rewrite decide_True; [done | by left]. Qed.

Lemma if_elem_of_there {A} (s s' : string) (ss : list string) (a d : A) :
  s' ≠ s →
  (if decide (s' ∈ s :: ss) then a else d) = (if decide (s' ∈ ss) then a else d).
Proof.
  intros Hne. destruct (decide (s' ∈ ss)) as [Hin|Hin].
  - rewrite decide_True; [done | by right].
  - rewrite decide_False; [done|]. rewrite elem_of_cons. tauto.
Qed.

Lemma if_elem_of_absent {A} (s : string) (ss : list string) (a d : A) :
  s ∉ ss → (if decide (s ∈ ss) then a else d) = d.
Proof. intros. by rewrite decide_False. Qed.

Lemma fold_stats (cnt : string → nat) (ss : list string) (T P I C : Z) :
  NoDup ss →
  (∀ s, s ∈ ss → s ∈ Task.statuses) →
  foldl (λ overview (stat : string * nat),
           let overview := set_key stat.1 (JNum (Z.of_nat stat.2)) overview in
           set_key "total" (plus (assoc "total" overview) (Z.of_nat stat.2)) overview)
        [("total", JNum T); ("pending", JNum P); ("in-progress", JNum I);
         ("completed", JNum C)]
        ((λ s, (s, cnt s)) <$> ss)
  = [("total",
      JNum (T + (if decide ("pending" ∈ ss) then Z.of_nat (cnt "pending") else 0)
              + (if decide ("in-progress" ∈ ss) then Z.of_nat (cnt "in-progress") else 0)
              + (if decide ("completed" ∈ ss) then Z.of_nat (cnt "completed") else 0)));
     ("pending", JNum (if decide ("pending" ∈ ss) then Z.of_nat (cnt "pending") else P));
     ("in-progress",
      JNum (if decide ("in-progress" ∈ ss) then Z.of_nat (cnt "in-progress") else I));
     ("completed",
      JNum (if decide ("completed" ∈ ss) then Z.of_nat (cnt "completed") else C))].
Proof.
  revert T P I C. induction ss as [|s ss IH]; intros T P I C Hnodup Hall.
  - rewrite !if_elem_of_absent by apply not_elem_of_nil. simpl.
    do 3 f_equal. lia.
  - apply NoDup_cons in Hnodup as [Hs Hnodup].
    assert (Hss : ∀ s, s ∈ ss → s ∈ Task.statuses) by (intros; apply Hall; by right).
    assert (Hin : s ∈ Task.statuses) by (apply Hall; by left).
    unfold Task.statuses in Hin. rewrite !elem_of_cons, elem_of_nil in Hin.
    rewrite fmap_cons. cbn [foldl fst snd].
    destruct Hin as [-> | [-> | [-> | []]]].
    + match goal with
      | |- foldl _ ?o _ = _ => change o with
        [("total", JNum (T + Z.of_nat (cnt "pending")));
              ("pending", JNum (Z.of_nat (cnt "pending")));
              ("in-progress", JNum I); ("completed", JNum C)]
      end.
      rewrite IH by done.
      rewrite !if_elem_of_here, !(if_elem_of_there "pending") by done.
      rewrite !(if_elem_of_absent "pending") by done.
      do 3 f_equal. lia.
    + match goal with
      | |- foldl _ ?o _ = _ => change o with
        [("total", JNum (T + Z.of_nat (cnt "in-progress")));
              ("pending", JNum P);
              ("in-progress", JNum (Z.of_nat (cnt "in-progress")));
              ("completed", JNum C)]
      end.
      rewrite IH by done.
      rewrite !if_elem_of_here, !(if_elem_of_there "in-progress") by done.
      rewrite !(if_elem_of_absent "in-progress") by done.
      do 3 f_equal. lia.
    + match goal with
      | |- foldl _ ?o _ = _ => change o with
        [("total", JNum (T + Z.of_nat (cnt "completed")));
              ("pending", JNum P); ("in-progress", JNum I);
              ("completed", JNum (Z.of_nat (cnt "completed")))]
      end.
      rewrite IH by done.
      rewrite !if_elem_of_here, !(if_elem_of_there "completed") by done.
      rewrite !(if_elem_of_absent "completed") by done.
      do 3 f_equal. lia.
Qed.

Section Stats.

Context `{Libraries}.

(** Property X16.  The overview.  In a store that the server can be in, the statistics
    route answers 200 with the number of the caller's tasks as [total] and
    the number of those with each status under [pending], [in-progress] and
    [completed], 0 for a status that none has; the three add up to the
    total. *)
Theorem stats_overview_counts (st : store) (user : User.doc) :
  reachable st →
  let mine := Mongoose.find (λ t, bool_decide (Task.owner t = User._id user)) (tasks st) in
  let count s :=
    Z.of_nat (length (List.filter (λ t, bool_decide (Task.status t = s)) mine)) in
  statsOverview st user
  = Send (Response 200
      (JObj [("stats",
              JObj [("total", JNum (Z.of_nat (length mine)));
                    ("pending", JNum (count "pending"));
                    ("in-progress", JNum (count "in-progress"));
                    ("completed", JNum (count "completed"))])]))
  ∧ count "pending" + count "in-progress" + count "completed" = Z.of_nat (length mine).
Proof.
  intros Hreach mine count.
  pose proof (reachable_well_formed _ Hreach) as Hwf.
  assert (Hall : ∀ t, t ∈ mine → Task.status t ∈ Task.statuses).
  { intros t [_ [id Hid]]%elem_of_find. by eapply task_status. }
  assert (Hsum : count "pending" + count "in-progress" + count "completed"
                 = Z.of_nat (length mine)).
  { unfold count. rewrite <- (count_statuses mine Hall). lia. }
  split; [|done].
  unfold statsOverview, Task.group_by_status. fold mine. cbv zeta.
  pose proof (fold_stats
    (λ s, length (List.filter (λ t, bool_decide (Task.status t = s)) mine))
    (remove_dups (Task.status <$> mine)) 0 0 0 0) as Hfold.
  cbv zeta in Hfold. rewrite Hfold.
  - assert (Hpick : ∀ s,
      (if decide (s ∈ remove_dups (Task.status <$> mine))
       then Z.of_nat (length (List.filter (λ t, bool_decide (Task.status t = s)) mine))
       else 0) = count s).
    { intros s. unfold count.
      destruct (decide (s ∈ remove_dups (Task.status <$> mine))) as [Hin|Hin];
        [reflexivity|].
      rewrite count_status_absent; [done|]. by rewrite <- elem_of_remove_dups. }
    rewrite !Hpick.
    replace (0 + count "pending" + count "in-progress" + count "completed")
      with (Z.of_nat (length mine)) by lia.
    done.
  - apply NoDup_remove_dups.
  - intros s Hs. apply elem_of_remove_dups, list_elem_of_fmap in Hs as (t & -> & Ht).
    by apply Hall.
Qed.

End Stats.


Section ListingOrder.

Context `{Libraries}.

(** Property X19.  A listing is sorted by the field of [sortBy] ([createdAt] when there is
    none): when the list route answers, each task of the page comes before
    the tasks whose value of the field is greater (less, with the order
    [desc], which is the default), in the order of the database: a missing
    value first, strings by their characters, dates by their time. *)
Theorem list_is_sorted (st : store) (user : User.doc) (q : Query.t) (r : response) :
  listTasks st user q = Send r →
  let sortBy := default "createdAt" (Query.sortBy q) in
  ∃ found pagination,
    r = Response 200 (JObj [("tasks", JArr (Task.toJSON <$> found));
                            ("pagination", pagination)])
    ∧ StronglySorted
        (λ a b, if decide (default "desc" (Query.sortOrder q) = "desc")
                then Task.key_leb (Task.path sortBy b) (Task.path sortBy a) = true
                else Task.key_leb (Task.path sortBy a) (Task.path sortBy b) = true)
        found.
Proof.
  unfold listTasks. cbv zeta.
  destruct (find_sort_limit_skip _ _ _ _ _ _) as [err|found] eqn:Hfound; [done|].
  intros [= <-]. eexists found, _. split; [done|].
  unfold find_sort_limit_skip in Hfound.
  case_decide; [done|].
  destruct (param 10 (Query.limit q)) as [limit|]; [|done].
  destruct (_ ≫= _) as [skip|]; [|done].
  destruct (skip <? 0); [done|].
  destruct (_ || _); [done|]. injection Hfound as <-.
  pose proof (sort_sorted (default "createdAt" (Query.sortBy q))
    (if decide (default "desc" (Query.sortOrder q) = "desc") then -1 else 1)
    (Mongoose.find (list_query user q) (tasks st))) as Hsorted.
  set (sortBy := default "createdAt" (Query.sortBy q)) in *.
  set (direction := if decide (default "desc" (Query.sortOrder q) = "desc")
                    then -1 else 1) in *.
  set (sorted := Task.sort sortBy direction _) in *.
  assert (Hfound : StronglySorted (Task.ordered sortBy direction)
            (if limit =? 0 then drop (Z.to_nat skip) sorted
             else take (Z.to_nat (Z.abs limit)) (drop (Z.to_nat skip) sorted))).
  { destruct (limit =? 0); [|apply StronglySorted_take_drop, Hsorted].
    rewrite <- (take_ge (drop (Z.to_nat skip) sorted) (length sorted))
      by (rewrite length_drop; lia).
    apply StronglySorted_take_drop, Hsorted. }
  unfold direction in Hfound.
  destruct (decide (default "desc" (Query.sortOrder q) = "desc"));
    (eapply StronglySorted_weaken; [|exact Hfound]); intros a b Hab.
  - exact (proj1 (ordered_desc _ _ _) Hab).
  - exact (proj1 (ordered_asc _ _ _) Hab).
Qed.

(** Property X20.  A title of blanks only passes the schema of the route and
    is refused by the model: the create, and the update of any id that is
    well formed, pass the validation error [Task title is required] on to
    the error handler and store nothing. *)
Theorem blank_title_refused_by_model
    (st : store) (e : env) (user : User.doc) (id : string) (_id : ObjectId)
    (b : gmap string json) (value : TaskValue.t) :
  taskSchema (now e) b = inr value →
  JS.trim (TaskValue.title value) = EmptyString →
  Mongoose.castObjectId id = Some _id →
  let error := Mongoose.ValidationError [("title", "Task title is required")] in
  createTask st e user b = (NextError error, st)
  ∧ updateTask st e user id b = (NextError error, st).
Proof.
  intros Hvalue Hblank Hcast error.
  destruct (schema_validators_nil _ _ _ Hvalue) as (Hd & Hs & Hp & Hs' & Hp' & Hdue).
  unfold createTask, updateTask, Task.save, Task.findOneAndUpdate.
  rewrite Hvalue, Hcast.
  unfold Task.validate, Task.update_validators, Task.new, Task.cast_update.
  cbn [Task.title Task.description Task.status Task.priority Task.dueDate
       TaskValue.title TaskValue.description TaskValue.status TaskValue.priority
       TaskValue.dueDate].
  by rewrite Hblank, Hd, Hs, Hp, Hs', Hp', Hdue.
Qed.

End ListingOrder.


(** ** The properties above on the demonstration stores *)

Lemma demo_run_reachable (n : nat) (reqs : list request) :
  reachable (H := Demo.libraries) (Demo.run (Store ∅ ∅) n reqs).2.
Proof.
  apply (later_reachable (H := Demo.libraries) (Store ∅ ∅));
    [constructor | apply demo_run_later].
Qed.

(** Bob's logout does not end Alice's session. *)
Lemma session_survives_other_requests_witness :
  let st := Demo.small in
  let e := Demo.environment 5 in
  let e' := Demo.environment 6 in
  let req := Logout (Demo.bearer Demo.bob_token) in
  consistent st
  ∧ auth (H := Demo.libraries) st e' (Some ("Bearer " +:+ Demo.alice_token))
    = Next Demo.alice_user Demo.alice_token
  ∧ (∀ h, req = Logout (Some h) →
          JS.replace "Bearer " EmptyString h ≠ Demo.alice_token)
  ∧ ∃ user',
      auth (H := Demo.libraries) (handle (H := Demo.libraries) st e req).2 e'
           (Some ("Bearer " +:+ Demo.alice_token))
      = Next user' Demo.alice_token
      ∧ User._id user' = User._id Demo.alice_user
      ∧ User.email user' = User.email Demo.alice_user.
Proof.
  intros st e e' req.
  assert (H1 : consistent st) by apply demo_run_consistent.
  assert (H2 : auth (H := Demo.libraries) st e' (Some ("Bearer " +:+ Demo.alice_token))
               = Next Demo.alice_user Demo.alice_token) by (vm_compute; reflexivity).
  assert (H3 : ∀ h, req = Logout (Some h) →
                    JS.replace "Bearer " EmptyString h ≠ Demo.alice_token).
  { unfold req. intros h [= <-]. vm_compute. discriminate. }
  split; [exact H1|]. split; [exact H2|]. split; [exact H3|].
  exact (session_survives_other_requests (H := Demo.libraries) st e e' req
           Demo.alice_token Demo.alice_user H1 H2 H3).
Defined.

(** Alice's second token, issued in the fifth second, is accepted a second
    later and refused seven days later. *)
Lemma session_lasts_seven_days_witness :
  let st := Demo.small in
  let e := Demo.environment 5 in
  let late := Env 605805000 (Demo.id 7) "salt" in
  let this' := User.set_tokens [Demo.alice_token; Demo.second_token] Demo.alice_doc in
  let coll' := <[Demo.id 0 := this']> (users st) in
  let header := Some ("Bearer " +:+ Demo.second_token) in
  users st !! User._id Demo.alice_doc = Some Demo.alice_doc
  ∧ generateAuthToken (H := Demo.libraries) e Demo.alice_doc (users st)
    = inr (Demo.second_token, this', coll')
  ∧ auth (H := Demo.libraries) (set_users coll' st) (Demo.environment 6) header
    = Next (User.set_password None this') Demo.second_token
  ∧ auth (H := Demo.libraries) (set_users coll' st) late header = invalid_token.
Proof.
  intros st e late this' coll' header.
  assert (H1 : users st !! User._id Demo.alice_doc = Some Demo.alice_doc)
    by (vm_compute; reflexivity).
  assert (H2 : generateAuthToken (H := Demo.libraries) e Demo.alice_doc (users st)
               = inr (Demo.second_token, this', coll')) by (vm_compute; reflexivity).
  assert (H3 : jwt_decode (Libraries := Demo.libraries) Demo.second_token
               = Some (Jwt.Payload (User._id Demo.alice_doc) (User.email Demo.alice_doc)
                         (User.role Demo.alice_doc) (Jwt.clock (now e))
                         (Jwt.clock (now e) + Jwt.seven_days)))
    by (vm_compute; reflexivity).
  assert (H4 : Jwt.clock (now (Demo.environment 6)) < Jwt.clock (now e) + 604800)
    by (vm_compute; reflexivity).
  assert (H5 : Jwt.clock (now e) + 604800 ≤ Jwt.clock (now late))
    by (vm_compute; discriminate).
  split; [exact H1|]. split; [exact H2|]. split.
  - exact (proj1 (session_lasts_seven_days (H := Demo.libraries) st e
                    (Demo.environment 6) Demo.alice_doc this' Demo.second_token coll'
                    H1 H2 H3) H4).
  - exact (proj2 (session_lasts_seven_days (H := Demo.libraries) st e late
                    Demo.alice_doc this' Demo.second_token coll' H1 H2 H3) H5
                 (set_users coll' st)).
Defined.

(** Alice's registration on the empty store. *)
Lemma registration_adds_one_user_witness :
  let st := Store ∅ ∅ in
  let e := Demo.environment 0 in
  let r := Response 201
             (JObj [("message", JStr "User registered successfully");
                    ("user", User.toJSON Demo.alice_doc);
                    ("token", JStr Demo.alice_token)]) in
  handle (H := Demo.libraries) st e (Register Demo.alice) = (Send r, Demo.registered)
  ∧ status r = 201%nat
  ∧ Demo.alice !! "name" = Some (JStr "Alice")
  ∧ Demo.alice !! "email" = Some (JStr "Alice@Example.com")
  ∧ Demo.alice !! "password" = Some (JStr "secret1")
  ∧ JS.is_ascii "Alice@Example.com" = true
  ∧ ∃ token,
      field "token" (body r) = Some (JStr token)
      ∧ users st !! oid e = None
      ∧ users Demo.registered !! oid e
        = Some (User.Doc (oid e) (JS.trim "Alice") (JS.toLowerCase "Alice@Example.com")
                  (Some (Demo.hash "secret1" (salt e))) "user" (now e) [token])
      ∧ (∀ id, id ≠ oid e → users Demo.registered !! id = users st !! id)
      ∧ (∀ id v, users st !! id = Some v →
                 User.email v ≠ JS.toLowerCase "Alice@Example.com")
      ∧ size (users Demo.registered) = S (size (users st))
      ∧ tasks Demo.registered = tasks st.
Proof.
  intros st e r.
  assert (H1 : handle (H := Demo.libraries) st e (Register Demo.alice)
               = (Send r, Demo.registered)) by (vm_compute; reflexivity).
  assert (H2 : status r = 201%nat) by reflexivity.
  assert (H3 : Demo.alice !! "name" = Some (JStr "Alice")) by (vm_compute; reflexivity).
  assert (H4 : Demo.alice !! "email" = Some (JStr "Alice@Example.com"))
    by (vm_compute; reflexivity).
  assert (H5 : Demo.alice !! "password" = Some (JStr "secret1"))
    by (vm_compute; reflexivity).
  assert (H6 : JS.is_ascii "Alice@Example.com" = true) by reflexivity.
  split; [exact H1|]. split; [exact H2|]. split; [exact H3|]. split; [exact H4|].
  split; [exact H5|]. split; [exact H6|].
  exact (registration_adds_one_user (H := Demo.libraries) st Demo.registered e
           Demo.alice r "Alice" "Alice@Example.com" "secret1" H1 H2 H3 H4 H5 H6).
Defined.

(** Alice reads her profile with the token of her registration. *)
Lemma register_then_me_witness :
  let st := Store ∅ ∅ in
  let e := Demo.environment 0 in
  let r := Response 201
             (JObj [("message", JStr "User registered successfully");
                    ("user", User.toJSON Demo.alice_doc);
                    ("token", JStr Demo.alice_token)]) in
  handle (H := Demo.libraries) st e (Register Demo.alice) = (Send r, Demo.registered)
  ∧ status r = 201%nat
  ∧ Demo.alice !! "email" = Some (JStr "Alice@Example.com")
  ∧ ∃ token user,
      body r
      = JObj [("message", JStr "User registered successfully");
              ("user", user); ("token", JStr token)]
      ∧ handle (H := Demo.libraries) Demo.registered e (Me (Some ("Bearer " +:+ token)))
        = (Send (Response 200 (JObj [("user", user)])), Demo.registered)
      ∧ field "_id" user = Some (JStr (oid e))
      ∧ field "email" user = Some (JStr (JS.toLowerCase "Alice@Example.com")).
Proof.
  intros st e r.
  assert (H1 : handle (H := Demo.libraries) st e (Register Demo.alice)
               = (Send r, Demo.registered)) by (vm_compute; reflexivity).
  assert (H2 : status r = 201%nat) by reflexivity.
  assert (H3 : Demo.alice !! "email" = Some (JStr "Alice@Example.com"))
    by (vm_compute; reflexivity).
  assert (H4 : let payload := Jwt.Payload (oid e) (JS.toLowerCase "Alice@Example.com")
                    "user" (Jwt.clock (now e)) (Jwt.clock (now e) + Jwt.seven_days) in
               jwt_decode (Libraries := Demo.libraries)
                 (jwt_sign (Libraries := Demo.libraries) payload) = Some payload)
    by (vm_compute; reflexivity).
  split; [exact H1|]. split; [exact H2|]. split; [exact H3|].
  exact (register_then_me (H := Demo.libraries) st Demo.registered e Demo.alice r
           "Alice@Example.com" H1 H2 H3 H4).
Defined.

(** Alice's document after Bob's registration and her own logout. *)
Lemma registered_user_is_kept_witness :
  let st := Store ∅ ∅ in
  let e := Demo.environment 0 in
  let r := Response 201
             (JObj [("message", JStr "User registered successfully");
                    ("user", User.toJSON Demo.alice_doc);
                    ("token", JStr Demo.alice_token)]) in
  let st2 := (Demo.run Demo.registered 1
                [Register Demo.bob; Logout (Demo.bearer Demo.alice_token)]).2 in
  consistent st
  ∧ handle (H := Demo.libraries) st e (Register Demo.alice) = (Send r, Demo.registered)
  ∧ status r = 201%nat
  ∧ Demo.alice !! "name" = Some (JStr "Alice")
  ∧ Demo.alice !! "email" = Some (JStr "Alice@Example.com")
  ∧ Demo.alice !! "password" = Some (JStr "secret1")
  ∧ JS.is_ascii "Alice@Example.com" = true
  ∧ later (H := Demo.libraries) Demo.registered st2
  ∧ ∃ tokens,
      users st2 !! oid e
      = Some (User.Doc (oid e) (JS.trim "Alice") (JS.toLowerCase "Alice@Example.com")
                (Some (Demo.hash "secret1" (salt e))) "user" (now e) tokens).
Proof.
  intros st e r st2.
  assert (H0 : consistent st) by apply consistent_empty.
  assert (H1 : handle (H := Demo.libraries) st e (Register Demo.alice)
               = (Send r, Demo.registered)) by (vm_compute; reflexivity).
  assert (H2 : status r = 201%nat) by reflexivity.
  assert (H3 : Demo.alice !! "name" = Some (JStr "Alice")) by (vm_compute; reflexivity).
  assert (H4 : Demo.alice !! "email" = Some (JStr "Alice@Example.com"))
    by (vm_compute; reflexivity).
  assert (H5 : Demo.alice !! "password" = Some (JStr "secret1"))
    by (vm_compute; reflexivity).
  assert (H6 : later (H := Demo.libraries) Demo.registered st2) by apply demo_run_later.
  assert (H7 : JS.is_ascii "Alice@Example.com" = true) by reflexivity.
  split; [exact H0|]. split; [exact H1|]. split; [exact H2|]. split; [exact H3|].
  split; [exact H4|]. split; [exact H5|]. split; [exact H7|]. split; [exact H6|].
  exact (registered_user_is_kept (H := Demo.libraries) st Demo.registered st2 e
           Demo.alice r "Alice" "Alice@Example.com" "secret1" H0 H1 H2 H3 H4 H5 H7 H6).
Defined.

(** Alice logs in after Bob's registration, her address in other letter
    case. *)
Lemma register_then_login_witness :
  let st := Store ∅ ∅ in
  let e := Demo.environment 0 in
  let e2 := Demo.environment 2 in
  let r := Response 201
             (JObj [("message", JStr "User registered successfully");
                    ("user", User.toJSON Demo.alice_doc);
                    ("token", JStr Demo.alice_token)]) in
  let st2 := (Demo.run Demo.registered 1 [Register Demo.bob]).2 in
  let b2 : gmap string json :=
    {[ "email" := JStr "ALICE@example.com"; "password" := JStr "secret1" ]} in
  consistent st
  ∧ handle (H := Demo.libraries) st e (Register Demo.alice) = (Send r, Demo.registered)
  ∧ status r = 201%nat
  ∧ Demo.alice !! "email" = Some (JStr "Alice@Example.com")
  ∧ Demo.alice !! "password" = Some (JStr "secret1")
  ∧ later (H := Demo.libraries) Demo.registered st2
  ∧ loginSchema (H := Demo.libraries) b2 = inr ("ALICE@example.com", "secret1")
  ∧ JS.toLowerCase "ALICE@example.com" = JS.toLowerCase "Alice@Example.com"
  ∧ ∃ stored token,
      users st2 !! oid e = Some stored
      ∧ token = Demo.sign (Jwt.Payload (oid e) (JS.toLowerCase "Alice@Example.com")
                  "user" (Jwt.clock (now e2)) (Jwt.clock (now e2) + Jwt.seven_days))
      ∧ handle (H := Demo.libraries) st2 e2 (Login b2)
        = (Send (Response 200
             (JObj [("message", JStr "Login successful");
                    ("user", User.toJSON stored); ("token", JStr token)])),
           set_users
             (<[oid e := User.set_tokens (User.tokens stored ++ [token]) stored]>
                (users st2)) st2).
Proof.
  intros st e e2 r st2 b2.
  assert (H0 : consistent st) by apply consistent_empty.
  assert (H1 : handle (H := Demo.libraries) st e (Register Demo.alice)
               = (Send r, Demo.registered)) by (vm_compute; reflexivity).
  assert (H2 : status r = 201%nat) by reflexivity.
  assert (H4 : Demo.alice !! "email" = Some (JStr "Alice@Example.com"))
    by (vm_compute; reflexivity).
  assert (H5 : Demo.alice !! "password" = Some (JStr "secret1"))
    by (vm_compute; reflexivity).
  assert (H6 : later (H := Demo.libraries) Demo.registered st2) by apply demo_run_later.
  assert (H7 : loginSchema (H := Demo.libraries) b2 = inr ("ALICE@example.com", "secret1"))
    by (vm_compute; reflexivity).
  assert (H8 : JS.toLowerCase "ALICE@example.com" = JS.toLowerCase "Alice@Example.com")
    by (vm_compute; reflexivity).
  assert (H9 : bcrypt_compare (Libraries := Demo.libraries) "secret1"
                 (bcrypt_hash (Libraries := Demo.libraries) "secret1" (salt e)) = true)
    by (vm_compute; reflexivity).
  assert (H10 : let token := jwt_sign (Libraries := Demo.libraries)
                    (Jwt.Payload (oid e) (JS.toLowerCase "Alice@Example.com") "user"
                       (Jwt.clock (now e2)) (Jwt.clock (now e2) + Jwt.seven_days)) in
                token ≠ EmptyString) by (vm_compute; discriminate).
  split; [exact H0|]. split; [exact H1|]. split; [exact H2|]. split; [exact H4|].
  split; [exact H5|]. split; [exact H6|]. split; [exact H7|]. split; [exact H8|].
  exact (register_then_login (H := Demo.libraries) st Demo.registered st2 e e2
           Demo.alice b2 r "Alice@Example.com" "secret1" "ALICE@example.com"
           H0 H1 H2 H4 H5 H6 H7 H8 H9 H10).
Defined.

(** Bob's update of Alice's task is answered 404 and changes nothing. *)
Lemma refused_request_changes_nothing_witness :
  let st := Demo.small in
  let e := Demo.environment 5 in
  let req := UpdateTask (Demo.bearer Demo.bob_token) (Demo.id 2) (Demo.task "mine now") in
  handle (H := Demo.libraries) st e req
  = (Send not_found, (handle (H := Demo.libraries) st e req).2)
  ∧ (∀ r, Send not_found = Send r → (400 ≤ status r)%nat)
  ∧ (handle (H := Demo.libraries) st e req).2 = st.
Proof.
  intros st e req.
  assert (H1 : handle (H := Demo.libraries) st e req
               = (Send not_found, (handle (H := Demo.libraries) st e req).2))
    by (vm_compute; reflexivity).
  assert (H2 : ∀ r, Send not_found = Send r → (400 ≤ status r)%nat).
  { intros r [= <-]. simpl. lia. }
  split; [exact H1|]. split; [exact H2|].
  destruct (refused_request_changes_nothing (H := Demo.libraries) st
              (handle (H := Demo.libraries) st e req).2 e req (Send not_found) H1 H2)
    as [Hsame | (b & user & payload & error & Hreq & _)].
  - exact Hsame.
  - discriminate Hreq.
Defined.

(** The exception: with a signing library that returns an empty token,
    Alice's registration is passed to the error handler and leaves her user
    in the store. *)
Lemma register_leaves_user_when_token_fails :
  let out := register (H := Demo.silent) (Store ∅ ∅) (Demo.environment 0) Demo.alice in
  out.1 = NextError
            (Mongoose.ValidationError [("tokens.token", "Path `token` is required.")])
  ∧ users out.2 !! Demo.id 0 = Some (User.set_tokens [] Demo.alice_doc).
Proof. split; vm_compute; reflexivity. Qed.

(** Bob cannot take over Alice's task by sending an owner. *)
Lemma unlisted_key_refused_witness :
  let st := Demo.small in
  let e := Demo.environment 5 in
  let b : gmap string json :=
    {[ "title" := JStr "mine"; "owner" := JStr (Demo.id 1) ]} in
  is_Some (b !! "owner")
  ∧ ("owner" ∉ ["title"; "description"; "status"; "priority"; "dueDate"])
  ∧ ∃ error,
      taskSchema (H := Demo.libraries) (now e) b = inl error
      ∧ createTask (H := Demo.libraries) st e Demo.bob_user b
        = (Send (Response 400 (error_body (Joi.message error))), st)
      ∧ updateTask (H := Demo.libraries) st e Demo.bob_user (Demo.id 2) b
        = (Send (Response 400 (error_body (Joi.message error))), st).
Proof.
  intros st e b.
  assert (H1 : is_Some (b !! "owner")).
  { exists (JStr (Demo.id 1)). vm_compute. reflexivity. }
  assert (H2 : "owner" ∉ ["title"; "description"; "status"; "priority"; "dueDate"]).
  { apply (bool_decide_unpack _). vm_compute. exact I. }
  split; [exact H1|]. split; [exact H2|].
  exact (unlisted_key_refused (H := Demo.libraries) st e Demo.bob_user (Demo.id 2) b
           "owner" H1 H2).
Defined.

(** Alice creates her first task and reads it. *)
Lemma create_then_get_witness :
  let st := Demo.registered in
  let e := Demo.environment 1 in
  let user := Demo.alice_user in
  let value := TaskValue.Make "write" None None None None in
  let task :=
    Task.Doc (oid e) (JS.trim (TaskValue.title value))
      (JS.trim <$> TaskValue.description value)
      (default "pending" (TaskValue.status value))
      (default "medium" (TaskValue.priority value))
      (TaskValue.dueDate value) (User._id user) (now e) (now e) in
  let st1 := set_tasks (<[oid e := task]> (tasks st)) st in
  taskSchema (H := Demo.libraries) (now e) (Demo.task "write") = inr value
  ∧ JS.trim (TaskValue.title value) ≠ EmptyString
  ∧ tasks st !! oid e = None
  ∧ Mongoose.castObjectId (oid e) = Some (oid e)
  ∧ createTask (H := Demo.libraries) st e user (Demo.task "write")
    = (Send (Response 201 (JObj [("message", JStr "Task created successfully");
                                 ("task", Task.toJSON task)])), st1)
  ∧ getTask st1 user (oid e) = Send (Response 200 (JObj [("task", Task.toJSON task)]))
  ∧ (∀ id, id ≠ oid e → tasks st1 !! id = tasks st !! id)
  ∧ users st1 = users st.
Proof.
  intros st e user value task st1.
  assert (H1 : taskSchema (H := Demo.libraries) (now e) (Demo.task "write") = inr value)
    by (vm_compute; reflexivity).
  assert (H2 : JS.trim (TaskValue.title value) ≠ EmptyString)
    by (vm_compute; discriminate).
  assert (H3 : tasks st !! oid e = None) by (vm_compute; reflexivity).
  assert (H4 : Mongoose.castObjectId (oid e) = Some (oid e)) by (vm_compute; reflexivity).
  split; [exact H1|]. split; [exact H2|]. split; [exact H3|]. split; [exact H4|].
  exact (create_then_get (H := Demo.libraries) st e user (Demo.task "write") value
           H1 H2 H3 H4).
Defined.

(** Alice deletes her task. *)
Lemma delete_removes_the_task_witness :
  let st := Demo.small in
  let user := Demo.alice_user in
  let st1 := set_tasks (delete (Demo.id 2) (tasks st)) st in
  Mongoose.castObjectId (Demo.id 2) = Some (Demo.id 2)
  ∧ tasks st !! Demo.id 2 = Some Demo.alice_task
  ∧ Task.owner Demo.alice_task = User._id user
  ∧ deleteTask st user (Demo.id 2)
    = (Send (Response 200 (JObj [("message", JStr "Task deleted successfully")])), st1)
  ∧ getTask st1 user (Demo.id 2) = Send not_found
  ∧ deleteTask st1 user (Demo.id 2) = (Send not_found, st1)
  ∧ (∀ other, other ≠ Demo.id 2 → tasks st1 !! other = tasks st !! other)
  ∧ users st1 = users st.
Proof.
  intros st user st1.
  assert (H1 : Mongoose.castObjectId (Demo.id 2) = Some (Demo.id 2))
    by (vm_compute; reflexivity).
  assert (H2 : tasks st !! Demo.id 2 = Some Demo.alice_task) by (vm_compute; reflexivity).
  assert (H3 : Task.owner Demo.alice_task = User._id user) by (vm_compute; reflexivity).
  split; [exact H1|]. split; [exact H2|]. split; [exact H3|].
  exact (delete_removes_the_task st user (Demo.id 2) (Demo.id 2) Demo.alice_task
           H1 H2 H3).
Defined.

(** Alice's task in the store with two users and one task. *)
Lemma stored_tasks_are_sound_witness :
  let st := Demo.small in
  let t := Demo.alice_task in
  reachable (H := Demo.libraries) st
  ∧ tasks st !! Demo.id 2 = Some t
  ∧ Task._id t = Demo.id 2
  ∧ is_Some (users st !! Task.owner t)
  ∧ Task.title t ≠ EmptyString ∧ (JS.length (Task.title t) ≤ 100)%nat
  ∧ (∀ d, Task.description t = Some d → (JS.length d ≤ 500)%nat)
  ∧ Task.status t ∈ Task.statuses
  ∧ Task.priority t ∈ Task.priorities.
Proof.
  intros st t.
  assert (H1 : reachable (H := Demo.libraries) st) by apply demo_run_reachable.
  assert (H2 : tasks st !! Demo.id 2 = Some t) by (vm_compute; reflexivity).
  split; [exact H1|]. split; [exact H2|].
  exact (stored_tasks_are_sound (H := Demo.libraries) st (Demo.id 2) t H1 H2).
Defined.

(** Alice's delete is the request that removes her task. *)
Lemma task_changed_only_by_owner_witness :
  let st := Demo.small in
  let e := Demo.environment 5 in
  let req := DeleteTask (Demo.bearer Demo.alice_token) (Demo.id 2) in
  let t := Demo.alice_task in
  consistent st
  ∧ tasks st !! Demo.id 2 = Some t
  ∧ tasks (handle (H := Demo.libraries) st e req).2 !! Demo.id 2 ≠ Some t
  ∧ ∃ a i user token,
      auth (H := Demo.libraries) st e a = Next user token
      ∧ User._id user = Task.owner t
      ∧ Mongoose.castObjectId i = Some (Demo.id 2)
      ∧ ((∃ b t', req = UpdateTask a i b
                  ∧ tasks (handle (H := Demo.libraries) st e req).2 !! Demo.id 2 = Some t'
                  ∧ Task._id t' = Demo.id 2 ∧ Task.owner t' = Task.owner t
                  ∧ Task.createdAt t' = Task.createdAt t
                  ∧ Task.updatedAt t' = Task.updatedAt t)
         ∨ (req = DeleteTask a i
            ∧ tasks (handle (H := Demo.libraries) st e req).2 !! Demo.id 2 = None)).
Proof.
  intros st e req t.
  assert (H1 : consistent st) by apply demo_run_consistent.
  assert (H2 : tasks st !! Demo.id 2 = Some t) by (vm_compute; reflexivity).
  assert (H3 : tasks (handle (H := Demo.libraries) st e req).2 !! Demo.id 2 ≠ Some t)
    by (vm_compute; discriminate).
  split; [exact H1|]. split; [exact H2|]. split; [exact H3|].
  exact (task_changed_only_by_owner (H := Demo.libraries) st e req (Demo.id 2) t
           H1 H2 H3).
Defined.

(** Alice's list in the store with two users and one task. *)
Lemma list_shows_only_own_tasks_witness :
  let st := Demo.small in
  let user := Demo.alice_user in
  let q := Query.Make None None None None None None in
  let r := Response 200
    (JObj [("tasks", JArr [Task.toJSON Demo.alice_task]);
           ("pagination",
            JObj [("page", JNum 1); ("limit", JNum 10); ("total", JNum 1);
                  ("pages", JNum 1)])]) in
  listTasks st user q = Send r
  ∧ ∃ found pagination,
      r = Response 200 (JObj [("tasks", JArr (Task.toJSON <$> found));
                              ("pagination", pagination)])
      ∧ found `sublist_of`
          Task.sort (default "createdAt" (Query.sortBy q))
            (if decide (default "desc" (Query.sortOrder q) = "desc") then -1 else 1)
            (Mongoose.find (list_query user q) (tasks st))
      ∧ ∀ t, t ∈ found →
          (∃ id, tasks st !! id = Some t)
          ∧ Task.owner t = User._id user
          ∧ (∀ s, Query.status q = Some s → s ≠ EmptyString → Task.status t = s)
          ∧ (∀ p, Query.priority q = Some p → p ≠ EmptyString → Task.priority t = p).
Proof.
  intros st user q r.
  assert (H1 : listTasks st user q = Send r) by (vm_compute; reflexivity).
  split; [exact H1|].
  exact (list_shows_only_own_tasks st user q r H1).
Defined.

(** Alice's overview: three pending tasks and a completed one. *)
Lemma stats_overview_counts_witness :
  let st := Demo.mixed in
  let user := Demo.alice_user in
  let mine := Mongoose.find (λ t, bool_decide (Task.owner t = User._id user)) (tasks st) in
  let count s :=
    Z.of_nat (length (List.filter (λ t, bool_decide (Task.status t = s)) mine)) in
  reachable (H := Demo.libraries) st
  ∧ statsOverview st user
    = Send (Response 200
        (JObj [("stats",
                JObj [("total", JNum (Z.of_nat (length mine)));
                      ("pending", JNum (count "pending"));
                      ("in-progress", JNum (count "in-progress"));
                      ("completed", JNum (count "completed"))])]))
  ∧ count "pending" + count "in-progress" + count "completed" = Z.of_nat (length mine).
Proof.
  intros st user mine count.
  assert (H1 : reachable (H := Demo.libraries) st) by apply demo_run_reachable.
  split; [exact H1|].
  exact (stats_overview_counts (H := Demo.libraries) st user H1).
Defined.

(** Alice's four tasks by title, in ascending order. *)
Lemma list_is_sorted_witness :
  let st := Demo.mixed in
  let user := Demo.alice_user in
  let q := Query.Make None None (Some "title") (Some "asc") None None in
  let r := match listTasks st user q with
           | Send r => r
           | NextError _ => Response 500 JNull
           end in
  let sortBy := default "createdAt" (Query.sortBy q) in
  listTasks st user q = Send r
  ∧ ∃ found pagination,
      r = Response 200 (JObj [("tasks", JArr (Task.toJSON <$> found));
                              ("pagination", pagination)])
      ∧ StronglySorted
          (λ a b, if decide (default "desc" (Query.sortOrder q) = "desc")
                  then Task.key_leb (Task.path sortBy b) (Task.path sortBy a) = true
                  else Task.key_leb (Task.path sortBy a) (Task.path sortBy b) = true)
          found.
Proof.
  intros st user q r sortBy.
  assert (H1 : listTasks st user q = Send r) by (vm_compute; reflexivity).
  split; [exact H1|].
  exact (list_is_sorted st user q r H1).
Defined.

(** Alice sends a title of three blanks. *)
Lemma blank_title_refused_by_model_witness :
  let st := Demo.small in
  let e := Demo.environment 5 in
  let user := Demo.alice_user in
  let b := Demo.task "   " in
  let value := TaskValue.Make "   " None None None None in
  let error := Mongoose.ValidationError [("title", "Task title is required")] in
  taskSchema (H := Demo.libraries) (now e) b = inr value
  ∧ JS.trim (TaskValue.title value) = EmptyString
  ∧ Mongoose.castObjectId (Demo.id 2) = Some (Demo.id 2)
  ∧ createTask (H := Demo.libraries) st e user b = (NextError error, st)
  ∧ updateTask (H := Demo.libraries) st e user (Demo.id 2) b = (NextError error, st).
Proof.
  intros st e user b value error.
  assert (H1 : taskSchema (H := Demo.libraries) (now e) b = inr value)
    by (vm_compute; reflexivity).
  assert (H2 : JS.trim (TaskValue.title value) = EmptyString) by (vm_compute; reflexivity).
  assert (H3 : Mongoose.castObjectId (Demo.id 2) = Some (Demo.id 2))
    by (vm_compute; reflexivity).
  split; [exact H1|]. split; [exact H2|]. split; [exact H3|].
  exact (blank_title_refused_by_model (H := Demo.libraries) st e user (Demo.id 2)
           (Demo.id 2) b value H1 H2 H3).
Defined.
